(** * Verification of the VM CPU power training-data pipeline

    Shallow embedding of three programs of the repository and the
    properties their specification states about them:

    - [Merge]    : [merge_datasets.py]  (class [DatasetMerger])
    - [Power]    : [bm_power_collector.py] (class [BaremetalPowerCollector])
    - [Features] : [vm_feature_collector/src/vm_feature_collector.py]
                   (class [VMFeatureCollector])

    Python floats are modelled by exact rationals ([Q]); Python ints by
    [Z]; dictionaries read with [.get(key, default)] by [gmap] or by
    records with optional fields; mutable object state by explicit state
    passing.

    Each float expression of the code is embedded operation by operation,
    so a theorem that names the value a function stores names the code's
    own expression.  Binary floating point rounds after every operation:
    identities of exact arithmetic, such as [(d / n) * n = d], a mean that
    does not exceed the maximum, or shares that add up to 100, are facts
    of the rationals only.  The theorems on stored values therefore give
    the code's expression, and a lemma that bounds a value computed
    through such an identity (as [utilization_ranges] does for
    [sys_cpu_utilization]) bounds the exact value of that expression. *)

From Stdlib Require Import QArith Qabs Lqa ZArith List Ascii.
From stdpp Require Import gmap strings list fin_maps sorting.

Local Open Scope Q_scope.

(** ** Python arithmetic helpers shared by the three programs *)

(** [a < b] on floats. *)
Definition Qlt_bool (a b : Q) : bool := negb (Qle_bool b a).

(** Python's [max(a, b)] on floats: [b] only when [b > a]. *)
Definition py_maxQ (a b : Q) : Q := if Qlt_bool a b then b else a.

(** Python's [min(a, b)] on floats: [b] only when [b < a]. *)
Definition py_minQ (a b : Q) : Q := if Qlt_bool b a then b else a.

(** [min(l)] / [max(l)] of a non-empty list, [sum(l)]. *)
Definition list_minQ (x : Q) (l : list Q) : Q := fold_left py_minQ l x.
Definition list_maxQ (x : Q) (l : list Q) : Q := fold_left py_maxQ l x.
Definition sumQ (l : list Q) : Q := fold_left Qplus l 0.

(** ** merge_datasets.py *)

Module Merge.

(** One row of the baremetal power CSV ([self.bm_data[i]]).  The loader
    sorts on ['timestamp'], so the key is always present; the other
    columns are read with [.get(key, default)]. *)
Record PowerPoint := {
  pp_timestamp : Q;
  total_cpu_watts_core : option Q;
  total_cpu_watts_package : option Q;
  pp_vm_count : option Z;
  pp_collection_interval : option Q
}.

(** One VM feature point ([self.vm_data[i]]): its timestamp and the rest
    of the dictionary. *)
Record VMPoint := {
  timestamp : Q;
  features : gmap string Q
}.

(** A merged training record: the copied VM point plus the label keys. *)
Record MergedPoint := {
  mp_vm : VMPoint;
  power_watts : Q;
  mp_power_zone : string;
  bm_timestamp : Q;
  time_diff : Q;
  vm_count : Z;
  bm_collection_interval : Q
}.

Record MergeStatistics := {
  vm_feature_points : Z;
  bm_power_points : Z;
  matched_points : Z;
  unmatched_vm_points : Z;
  unmatched_bm_points : Z;
  time_range_vm : Q * Q;
  time_range_bm : Q * Q;
  time_range_merged : Q * Q;
  power_range : Q * Q;
  average_time_diff : Q;
  max_time_diff : Q
}.

(** [MergeStatistics()] with the dataclass defaults. *)
Definition default_statistics : MergeStatistics := {|
  vm_feature_points := 0; bm_power_points := 0; matched_points := 0;
  unmatched_vm_points := 0; unmatched_bm_points := 0;
  time_range_vm := (0, 0); time_range_bm := (0, 0);
  time_range_merged := (0, 0); power_range := (0, 0);
  average_time_diff := 0; max_time_diff := 0
|}.

(** The [DatasetMerger] object. *)
Record DatasetMerger := {
  time_tolerance : Q;
  min_power_threshold : Q;
  power_zone : string;
  vm_data : list VMPoint;
  bm_data : list PowerPoint;
  merged_data : list MergedPoint;
  statistics : MergeStatistics
}.

(** [DatasetMerger.__init__]. *)
Definition init (tol thr : Q) (zone : string) : DatasetMerger := {|
  time_tolerance := tol; min_power_threshold := thr; power_zone := zone;
  vm_data := []; bm_data := []; merged_data := [];
  statistics := default_statistics
|}.

Section Matcher.

Variable self : DatasetMerger.

(** [time_diff < closest_diff] where [closest_diff] starts at
    [float('inf')] ([None]). *)
Definition below_closest (time_diff : Q) (closest_diff : option Q) : bool :=
  match closest_diff with
  | None => true
  | Some d => Qlt_bool time_diff d
  end.

(** The [for i in range(bm_start_idx, len(self.bm_data))] loop of
    [_find_closest_power_point]; [rest] is [self.bm_data[i:]]. *)
Fixpoint scan (target_timestamp : Q) (rest : list PowerPoint) (i : Z)
    (closest_point : option PowerPoint) (closest_diff : option Q)
    (closest_idx : Z) : option PowerPoint * Z :=
  match rest with
  | [] => (closest_point, closest_idx)
  | power_point :: rest' =>
      let time_diff := Qabs (pp_timestamp power_point - target_timestamp) in
      if Qle_bool time_diff (time_tolerance self)
         && below_closest time_diff closest_diff
      then scan target_timestamp rest' (i + 1)%Z
             (Some power_point) (Some time_diff) i
      else if Qlt_bool (target_timestamp + time_tolerance self)
                (pp_timestamp power_point)
      then (closest_point, closest_idx)
      else scan target_timestamp rest' (i + 1)%Z
             closest_point closest_diff closest_idx
  end.

Definition _find_closest_power_point (target_timestamp : Q)
    (bm_start_idx : Z) : option PowerPoint * Z :=
  scan target_timestamp (drop (Z.to_nat bm_start_idx) (bm_data self))
    bm_start_idx None None bm_start_idx.

Definition _get_power_label (power_point : PowerPoint) : Q :=
  if String.eqb (power_zone self) "core" then
    default 0 (total_cpu_watts_core power_point)
  else if String.eqb (power_zone self) "package" then
    default 0 (total_cpu_watts_package power_point)
  else default 0 (total_cpu_watts_core power_point).

(** The variables the [for i, vm_point in enumerate(self.vm_data)] loop of
    [merge_datasets] carries from one feature to the next. *)
Record LoopState := {
  ls_merged_data : list MergedPoint;
  matched_count : Z;
  time_diffs : list Q;
  power_values : list Q;
  bm_search_start : Z
}.

Definition make_merged_point (vm_point : VMPoint) (power_point : PowerPoint)
    (power_value : Q) : MergedPoint := {|
  mp_vm := vm_point;
  power_watts := power_value;
  mp_power_zone := power_zone self;
  bm_timestamp := pp_timestamp power_point;
  time_diff := Qabs (timestamp vm_point - pp_timestamp power_point);
  vm_count := default 1%Z (pp_vm_count power_point);
  bm_collection_interval := default (1 # 10) (pp_collection_interval power_point)
|}.

(** One iteration of the loop body. *)
Definition merge_step (st : LoopState) (vm_point : VMPoint) : LoopState :=
  let vm_timestamp := timestamp vm_point in
  let '(found, search_idx) :=
    _find_closest_power_point vm_timestamp (bm_search_start st) in
  match found with
  | Some power_point =>
      let power_value := _get_power_label power_point in
      if Qle_bool (min_power_threshold self) power_value then
        let merged_point := make_merged_point vm_point power_point power_value in
        {| ls_merged_data := ls_merged_data st ++ [merged_point];
           matched_count := (matched_count st + 1)%Z;
           time_diffs := time_diffs st ++ [time_diff merged_point];
           power_values := power_values st ++ [power_value];
           bm_search_start := Z.max 0 (search_idx - 1) |}
      else st
  | None => st
  end.

Definition loop_start : LoopState := {|
  ls_merged_data := merged_data self;
  matched_count := 0;
  time_diffs := [];
  power_values := [];
  bm_search_start := 0
|}.

Definition merge_loop (st : LoopState) (vms : list VMPoint) : LoopState :=
  fold_left merge_step vms st.

(** The statistics update that follows the loop.  [np.mean] is the sum
    divided by the length, computed here without rounding; [np.max] and
    [np.min] select an element. *)
Definition update_statistics (st : LoopState) : MergeStatistics :=
  let s := statistics self in
  let avg :=
    match time_diffs st with
    | [] => average_time_diff s
    | _ :: _ =>
        sumQ (time_diffs st) / inject_Z (Z.of_nat (length (time_diffs st)))
    end in
  let mx :=
    match time_diffs st with
    | [] => max_time_diff s
    | d :: ds => list_maxQ d ds
    end in
  let pr :=
    match power_values st with
    | [] => power_range s
    | p :: ps => (list_minQ p ps, list_maxQ p ps)
    end in
  let tr :=
    match map (fun p => timestamp (mp_vm p)) (ls_merged_data st) with
    | [] => time_range_merged s
    | t :: ts => (list_minQ t ts, list_maxQ t ts)
    end in
  {| vm_feature_points := vm_feature_points s;
     bm_power_points := bm_power_points s;
     matched_points := matched_count st;
     unmatched_vm_points := (Z.of_nat (length (vm_data self)) - matched_count st)%Z;
     unmatched_bm_points := Z.of_nat (length (bm_data self));
     time_range_vm := time_range_vm s;
     time_range_bm := time_range_bm s;
     time_range_merged := tr;
     power_range := pr;
     average_time_diff := avg;
     max_time_diff := mx |}.

(** [merge_datasets]: the new object state and the returned flag. *)
Definition merge_datasets : DatasetMerger * bool :=
  match vm_data self, bm_data self with
  | [], _ | _, [] => (self, false)
  | _, _ =>
      let st := merge_loop loop_start (vm_data self) in
      ({| time_tolerance := time_tolerance self;
          min_power_threshold := min_power_threshold self;
          power_zone := power_zone self;
          vm_data := vm_data self;
          bm_data := bm_data self;
          merged_data := ls_merged_data st;
          statistics := update_statistics st |},
       Z.ltb 0 (matched_count st))
  end.

(** Which branch of the loop body a feature takes: a record is appended,
    the temporal match is discarded by the value filter, or there is no
    temporal match. *)
Inductive Outcome := Accepted | FilteredByValue | NoTemporalMatch.

Definition step_outcome (st : LoopState) (vm_point : VMPoint) : Outcome :=
  match fst (_find_closest_power_point (timestamp vm_point) (bm_search_start st)) with
  | Some power_point =>
      if Qle_bool (min_power_threshold self) (_get_power_label power_point)
      then Accepted else FilteredByValue
  | None => NoTemporalMatch
  end.

(** The branches taken by the successive features of the loop. *)
Fixpoint outcomes (st : LoopState) (vms : list VMPoint) : list Outcome :=
  match vms with
  | [] => []
  | vm_point :: rest =>
      step_outcome st vm_point :: outcomes (merge_step st vm_point) rest
  end.

(** The records a call of [merge_datasets] appends to [self.merged_data]. *)
Definition produced : list MergedPoint :=
  drop (length (merged_data self)) (merged_data (fst merge_datasets)).

End Matcher.

(** A label is within the tolerance of a target time. *)
Definition within (self : DatasetMerger) (target : Q) (pp : PowerPoint) : Prop :=
  Qabs (pp_timestamp pp - target) <= time_tolerance self.

(** What is expected of a record appended by the loop: its [time_diff] is
    the distance between its two timestamps and is within the tolerance,
    and its label timestamp is that of a loaded power point. *)
Definition sound_record (self : DatasetMerger) (m : MergedPoint) : Prop :=
  time_diff m <= time_tolerance self
  /\ time_diff m = Qabs (timestamp (mp_vm m) - bm_timestamp m)
  /\ exists pp, pp ∈ bm_data self /\ bm_timestamp m = pp_timestamp pp.

(** The loop variables when [self.merged_data] is empty at the start, and
    a loop state whose record list is extended in front. *)
Definition loop_zero : LoopState := {|
  ls_merged_data := []; matched_count := 0; time_diffs := [];
  power_values := []; bm_search_start := 0
|}.

Definition prepend (pre : list MergedPoint) (st : LoopState) : LoopState := {|
  ls_merged_data := pre ++ ls_merged_data st;
  matched_count := matched_count st;
  time_diffs := time_diffs st;
  power_values := power_values st;
  bm_search_start := bm_search_start st
|}.

(** The matcher reads the object only through its tolerance, noise floor,
    zone and power data. *)
Definition same_config (a b : DatasetMerger) : Prop :=
  time_tolerance a = time_tolerance b
  /\ min_power_threshold a = min_power_threshold b
  /\ power_zone a = power_zone b
  /\ bm_data a = bm_data b.

(** The loop of [merge_datasets] run from an empty record list. *)
Definition pure_loop (self : DatasetMerger) : LoopState :=
  merge_loop self loop_zero (vm_data self).

(** The object [merge_datasets] leaves when both inputs are loaded. *)
Definition merged_object (self : DatasetMerger) : DatasetMerger := {|
  time_tolerance := time_tolerance self;
  min_power_threshold := min_power_threshold self;
  power_zone := power_zone self;
  vm_data := vm_data self;
  bm_data := bm_data self;
  merged_data := merged_data self ++ ls_merged_data (pure_loop self);
  statistics := update_statistics self (prepend (merged_data self) (pure_loop self))
|}.

Definition is_outcome (a b : Outcome) : bool :=
  match a, b with
  | Accepted, Accepted | FilteredByValue, FilteredByValue
  | NoTemporalMatch, NoTemporalMatch => true
  | _, _ => false
  end.

Definition count_outcome (o : Outcome) (l : list Outcome) : Z :=
  Z.of_nat (length (List.filter (is_outcome o) l)).

(** Concrete inputs used to run the matcher. *)
Definition label (t w : Q) : PowerPoint := {|
  pp_timestamp := t; total_cpu_watts_core := Some w;
  total_cpu_watts_package := Some w; pp_vm_count := Some 1%Z;
  pp_collection_interval := Some (1 # 10)
|}.

Definition feature (t : Q) : VMPoint := {| timestamp := t; features := ∅ |}.

(** [(data[0]['timestamp'], data[-1]['timestamp'])]. *)
Definition time_range_of (ts : list Q) : Q * Q :=
  (List.hd 0 ts, List.last ts 0).

(** The object after [load_vm_features] and [load_bm_power] have read
    inputs that are already sorted by timestamp.  A loader that reads an
    empty input stores it and returns before touching the statistics. *)
Definition loaded (tol thr : Q) (vms : list VMPoint) (bms : list PowerPoint)
    : DatasetMerger := {|
  time_tolerance := tol; min_power_threshold := thr; power_zone := "core";
  vm_data := vms; bm_data := bms; merged_data := [];
  statistics := {|
    vm_feature_points := Z.of_nat (length vms);
    bm_power_points := Z.of_nat (length bms);
    matched_points := 0; unmatched_vm_points := 0; unmatched_bm_points := 0;
    time_range_vm :=
      match vms with [] => (0, 0) | _ => time_range_of (map timestamp vms) end;
    time_range_bm :=
      match bms with [] => (0, 0) | _ => time_range_of (map pp_timestamp bms) end;
    time_range_merged := (0, 0); power_range := (0, 0);
    average_time_diff := 0; max_time_diff := 0 |}
|}.

(** Features at 0, 1, 2, 10 s and labels at 0.05, 0.95, 2.5 s, tolerance 0.2 s. *)
Definition scenario : DatasetMerger :=
  loaded (2 # 10) 0
    [feature 0; feature 1; feature 2; feature 10]
    [label (5 # 100) 1; label (95 # 100) 1; label (25 # 10) 1].

(** The record the first feature of [scenario] is expected to yield. *)
Definition scenario_first : MergedPoint := {|
  mp_vm := feature 0; power_watts := 1; mp_power_zone := "core";
  bm_timestamp := 5 # 100; time_diff := Qabs (0 - (5 # 100));
  vm_count := 1; bm_collection_interval := 1 # 10
|}.

(** One feature at 1.0 s, one label at 1.1 s reading 0.002 W, noise floor
    0.01 W: with tolerance 0.2 s the label is a temporal match, with
    tolerance 0.05 s it is not. *)
Definition low_power (tol : Q) : DatasetMerger :=
  loaded tol (1 # 100) [feature 1] [label (11 # 10) (2 # 1000)].

(** Features at 1, 5, 6 s against labels at 0, 0.5, 1, 9 s. *)
Definition sparse : DatasetMerger :=
  loaded (2 # 10) 0
    [feature 1; feature 5; feature 6]
    [label 0 1; label (5 # 10) 1; label 1 1; label 9 1].

(** Power data loaded, no feature data. *)
Definition no_features : DatasetMerger :=
  loaded (2 # 10) 0 [] [label 0 1].

End Merge.

(** ** bm_power_collector.py *)

Module Power.

(** One parsed [kepler_vm_cpu_watts] sample ([vm_info]). *)
Record VMInfo := {
  vm_id : string;
  vm_name : string;
  hypervisor : string;
  node_name : string;
  zone : string;
  watts : Q;
  state : string
}.

(** The result of [_parse_vm_metrics]: readings grouped by zone. *)
Record ZoneMetrics := {
  core : list VMInfo;
  package : list VMInfo
}.

(** [PowerDataPoint]; the two formatted strings [timestamp_iso] and
    [vm_filter] are left out. *)
Record PowerDataPoint := {
  timestamp : Q;
  timestamp_absolute : Q;
  total_cpu_watts_core : Q;
  total_cpu_watts_package : Q;
  vm_count : Z;
  vms : list VMInfo;
  collection_interval : Q;
  kepler_endpoint : string
}.

(** What one [self.session.get(...)] attempt does: a response body, a
    [requests.RequestException], or any other exception. *)
Inductive Response :=
  | Ok (text : string)
  | RequestException
  | OtherException.

(** The [BaremetalPowerCollector] object.  [vm_pattern] is the compiled
    pattern, seen through its [search] test. *)
Record Collector := {
  kepler_url : string;
  c_collection_interval : Q;
  max_retries : nat;
  target_vms : option (gset string);
  vm_pattern : option (string -> bool);
  sync_start_time : option Q;
  power_data : list PowerDataPoint;
  collection_start_time : option Q
}.

(** The variables of the [while] loop of [collect_power_data]. *)
Record LoopState := {
  ls_power_data : list PowerDataPoint;
  collection_count : Z;
  error_count : Z
}.

(** What the outside world does during one pass of the [while] loop: the
    [collection_active] flag and the clock at the loop test, the clock read
    as [current_time], and the outcome of each scrape attempt. *)
Record CycleEnv := {
  ce_active : bool;
  ce_now_loop : Q;
  ce_now_cycle : Q;
  ce_responses : nat -> Response
}.

Section Collector.

(** The text grammar of the scrape is outside this development. *)
Variable _parse_vm_metrics : string -> ZoneMetrics.

Variable self : Collector.

Definition nonempty_string (s : string) : bool :=
  negb (String.eqb s "").

(** [bool(self.target_vms)]: a set is true when it is not empty. *)
Definition has_targets : bool :=
  match target_vms self with
  | Some names => negb (bool_decide (names = ∅))
  | None => false
  end.

Definition _filter_vms (vm_list : list VMInfo) : list VMInfo :=
  if negb has_targets && negb (bool_decide (is_Some (vm_pattern self)))
  then vm_list
  else
    List.filter (fun vm =>
      let by_name :=
        match target_vms self with
        | Some names =>
            has_targets
            && (bool_decide (vm_name vm ∈ names)
                || bool_decide (vm_id vm ∈ names))
        | None => false
        end in
      let by_pattern :=
        match vm_pattern self with
        | Some search =>
            existsb search
              (List.filter nonempty_string [vm_name vm; vm_id vm])
        | None => false
        end in
      by_name || by_pattern) vm_list.

Definition set_zone (z : string) (vm : VMInfo) : VMInfo := {|
  vm_id := vm_id vm; vm_name := vm_name vm; hypervisor := hypervisor vm;
  node_name := node_name vm; zone := z; watts := watts vm; state := state vm
|}.

(** The body of the [try] of [collect_power_metrics_with_timestamp] after
    a successful [get]; [None] is the [TypeError] raised when
    [collection_start_time] is still [None]. *)
Definition build_data_point (target_timestamp : Q) (text : string)
    : option PowerDataPoint :=
  let metrics := _parse_vm_metrics text in
  let filtered_core := _filter_vms (core metrics) in
  let filtered_package := _filter_vms (package metrics) in
  let total_core_watts := sumQ (map watts filtered_core) in
  let total_package_watts := sumQ (map watts filtered_package) in
  let vm_count := Z.of_nat (length filtered_core) in
  let timestamp := target_timestamp in
  start ← collection_start_time self;
  let relative_timestamp := timestamp - start in
  Some {| timestamp := relative_timestamp;
          timestamp_absolute := timestamp;
          total_cpu_watts_core := total_core_watts;
          total_cpu_watts_package := total_package_watts;
          vm_count := vm_count;
          vms := map (set_zone "core") filtered_core
                 ++ map (set_zone "package") filtered_package;
          collection_interval := c_collection_interval self;
          kepler_endpoint := kepler_url self |}.

(** [for attempt in range(self.max_retries)]. *)
Fixpoint attempts (responses : nat -> Response) (target_timestamp : Q)
    (remaining attempt : nat) : option PowerDataPoint :=
  match remaining with
  | O => None
  | S remaining' =>
      match responses attempt with
      | Ok text => build_data_point target_timestamp text
      | RequestException =>
          if Nat.ltb attempt (max_retries self - 1)
          then attempts responses target_timestamp remaining' (S attempt)
          else None
      | OtherException => None
      end
  end.

Definition collect_power_metrics_with_timestamp
    (responses : nat -> Response) (target_timestamp : Q)
    : option PowerDataPoint :=
  attempts responses target_timestamp (max_retries self) 0.

(** The target time the loop computes for the sample it is about to take. *)
Definition target_time (start_time : Q) (st : LoopState) : Q :=
  start_time + inject_Z (collection_count st) * c_collection_interval self.

(** One pass of the loop body.  Sleeping only moves the clock, which the
    body does not read again.  When no data point comes back, the counter
    is incremented, and the debug line that follows names the undefined
    [sleep_time], so the generic handler adds a second error. *)
Definition cycle (start_time : Q) (st : LoopState) (e : CycleEnv)
    : LoopState :=
  let target_time := target_time start_time st in
  let current_time := ce_now_cycle e in
  let sleep_duration := target_time - current_time in
  let target_timestamp := target_time in
  match collect_power_metrics_with_timestamp (ce_responses e) target_timestamp with
  | Some data_point =>
      {| ls_power_data := ls_power_data st ++ [data_point];
         collection_count := (collection_count st + 1)%Z;
         error_count := error_count st |}
  | None =>
      {| ls_power_data := ls_power_data st;
         collection_count := (collection_count st + 1)%Z;
         error_count := (error_count st + 1 + 1)%Z |}
  end.

(** [while self.collection_active and (time.time() - start_time) < duration]. *)
Definition loop_test (start_time duration : Q) (e : CycleEnv) : bool :=
  ce_active e && Qlt_bool (ce_now_loop e - start_time) duration.

Fixpoint run (start_time duration : Q) (st : LoopState)
    (envs : list CycleEnv) : LoopState :=
  match envs with
  | [] => st
  | e :: rest =>
      if loop_test start_time duration e
      then run start_time duration (cycle start_time st e) rest
      else st
  end.

End Collector.

(** [_wait_for_sync_start]: the start time, given the clock. *)
Definition _wait_for_sync_start (self : Collector) (now : Q) : Q :=
  match sync_start_time self with
  | None => now
  | Some t => t
  end.

Definition set_start (self : Collector) (start_time : Q) : Collector := {|
  kepler_url := kepler_url self;
  c_collection_interval := c_collection_interval self;
  max_retries := max_retries self;
  target_vms := target_vms self;
  vm_pattern := vm_pattern self;
  sync_start_time := sync_start_time self;
  power_data := power_data self;
  collection_start_time := Some start_time
|}.

(** [collect_power_data]: the final loop state ([ls_power_data] is the
    returned [self.power_data]).  [now] is the clock at the start and
    [envs] what happens at each pass of the loop. *)
Definition collect_power_data (parse : string -> ZoneMetrics)
    (self : Collector) (now duration : Q) (envs : list CycleEnv)
    : LoopState :=
  let start_time := _wait_for_sync_start self now in
  let self' := set_start self start_time in
  run parse self' start_time duration
    {| ls_power_data := power_data self';
       collection_count := 0; error_count := 0 |}
    envs.

(** The passes of the loop that are executed: those before the first
    failing loop test. *)
Fixpoint executed (start_time duration : Q) (envs : list CycleEnv)
    : list CycleEnv :=
  match envs with
  | [] => []
  | e :: rest =>
      if loop_test start_time duration e
      then e :: executed start_time duration rest
      else []
  end.

(** The sample pass number [k] of the loop asks for, when the schedule is
    anchored at [start_time]. *)
Definition cycle_sample (parse : string -> ZoneMetrics) (self : Collector)
    (start_time : Q) (k : nat) (e : CycleEnv) : option PowerDataPoint :=
  collect_power_metrics_with_timestamp parse self (ce_responses e)
    (start_time + inject_Z (Z.of_nat k) * c_collection_interval self).

(** A concrete run: 0.1 s interval, synchronized start at 100 s; the
    first pass scrapes 0.35 s late, the second pass fails every attempt,
    the third pass succeeds. *)
Definition example_vm (z : string) (w : Q) : VMInfo := {|
  vm_id := "1"; vm_name := "fedora40"; hypervisor := "kvm";
  node_name := "host"; zone := z; watts := w; state := "running"
|}.

Definition example_parse (text : string) : ZoneMetrics := {|
  core := [example_vm "core" (5 # 10)];
  package := [example_vm "package" (7 # 10)]
|}.

Definition example_collector : Collector := {|
  kepler_url := "http://localhost:28283/metrics";
  c_collection_interval := 1 # 10;
  max_retries := 3;
  target_vms := None;
  vm_pattern := None;
  sync_start_time := Some 100;
  power_data := [];
  collection_start_time := None
|}.

Definition example_envs : list CycleEnv := [
  {| ce_active := true; ce_now_loop := 100; ce_now_cycle := 10035 # 100;
     ce_responses := fun _ => Ok "" |};
  {| ce_active := true; ce_now_loop := 1004 # 10; ce_now_cycle := 1004 # 10;
     ce_responses := fun _ => RequestException |};
  {| ce_active := true; ce_now_loop := 1034 # 10; ce_now_cycle := 1034 # 10;
     ce_responses := fun _ => Ok "" |}
].

End Power.

(** ** vm_feature_collector.py *)

Module Features.

(** *** A dictionary being filled inside a [try] block

    [_compute_proc_stat_deltas] and [_compute_os_metrics_from_snapshots]
    fill a result dictionary inside [try: ... except Exception:] and return
    whatever the dictionary holds when an exception stops the block.  A
    computation is therefore a function from the dictionary to the updated
    dictionary and either a value or an exception ([None]). *)

Definition Try (A : Type) : Type :=
  gmap string Q -> gmap string Q * option A.

#[global] Instance try_ret : MRet Try := fun A a d => (d, Some a).

#[global] Instance try_bind : MBind Try := fun A B k m d =>
  match m d with
  | (d', Some a) => k a d'
  | (d', None) => (d', None)
  end.

(** [d[key] = v]. *)
Definition store (key : string) (v : Q) : Try unit :=
  fun d => (<[key := v]> d, Some tt).

(** A partial operation: [None] raises. *)
Definition must {A} (o : option A) : Try A := fun d => (d, o).

(** The dictionary returned by the [try] block run on an empty one. *)
Definition run_try {A} (m : Try A) : gmap string Q := fst (m ∅).

(** Float division [a / b]: [ZeroDivisionError] when [b] is zero. *)
Definition py_truediv (a b : Q) : option Q :=
  if Qeq_bool b 0 then None else Some (a / b).

(** [d.get(key, 0)]. *)
Definition getZ (d : gmap string Z) (key : string) : Z := default 0%Z (d !! key).
Definition getQ (d : gmap string Q) (key : string) : Q := default 0 (d !! key).

(** [bool(d)] of a dictionary. *)
Definition nonempty {V} (d : gmap string V) : bool := negb (bool_decide (d = ∅)).

(** What [_read_proc_stat] returns: every key is optional. *)
Record ProcStat := {
  ps_cpu : option (gmap string Z);
  ps_context_switches : option Z;
  ps_processes_created : option Z;
  ps_procs_running : option Z;
  ps_procs_blocked : option Z
}.

Definition stat_nonempty (s : ProcStat) : bool :=
  match ps_cpu s, ps_context_switches s, ps_processes_created s,
        ps_procs_running s, ps_procs_blocked s with
  | None, None, None, None, None => false
  | _, _, _, _, _ => true
  end.

(** What [_snapshot_os_counters] returns. *)
Record OSSnapshot := {
  cpu_times : option (gmap string Q);
  disk_io : option (gmap string Z);
  net_io : option (gmap string Z);
  memory : option (gmap string Q);
  snap_process_count : option Z;
  load_avg : option (gmap string Q)
}.

Definition cpu_fields : list string :=
  ["user"; "nice"; "system"; "idle"; "iowait"; "irq"; "softirq"; "steal"].

Section DeltaSampler.

(** [os.sysconf(os.sysconf_names['SC_CLK_TCK'])], or the fallback 100. *)
Variable jiffies_per_second : Z.

(** [max(0, curr_val - prev_val)] for one field of the [cpu] line. *)
Definition delta_jiffies (prev_cpu curr_cpu : gmap string Z) (field : string) : Z :=
  let prev_val := getZ prev_cpu field in
  let curr_val := getZ curr_cpu field in
  Z.max 0 (curr_val - prev_val).

(** The first [for field in [...]] loop: [cpu_deltas] and [total_delta]. *)
Fixpoint cpu_loop (prev_cpu curr_cpu : gmap string Z) (fields : list string)
    (cpu_deltas : gmap string Q) (total_delta : Z)
    : Try (gmap string Q * Z) :=
  match fields with
  | [] => mret (cpu_deltas, total_delta)
  | field :: rest =>
      let dj := delta_jiffies prev_cpu curr_cpu field in
      delta_seconds ← must (py_truediv (inject_Z dj) (inject_Z jiffies_per_second));
      cpu_loop prev_cpu curr_cpu rest
        (<[field := delta_seconds]> cpu_deltas) (total_delta + dj)%Z
  end.

(** The second loop: the per-field percentages.  [field_jiffies] is the
    product [cpu_deltas[field] * jiffies_per_second] as the code forms it,
    not the tick count it started from. *)
Fixpoint percent_loop (cpu_deltas : gmap string Q) (total_delta : Z)
    (fields : list string) : Try unit :=
  match fields with
  | [] => mret tt
  | field :: rest =>
      d ← must (cpu_deltas !! field);
      let field_jiffies := d * inject_Z jiffies_per_second in
      q ← must (py_truediv field_jiffies (inject_Z total_delta));
      store ("sys_cpu_" +:+ field +:+ "_percent") (q * 100);;
      percent_loop cpu_deltas total_delta rest
  end.

(** The block under [if prev_cpu and curr_cpu:].  [idle_jiffies] is the
    product [cpu_deltas['idle'] * jiffies_per_second] as the code forms
    it. *)
Definition cpu_block (prev_cpu curr_cpu : gmap string Z) : Try unit :=
  '(cpu_deltas, total_delta) ← cpu_loop prev_cpu curr_cpu cpu_fields ∅ 0%Z;
  user ← must (cpu_deltas !! "user");
  store "sys_cpu_user_seconds" user;;
  system ← must (cpu_deltas !! "system");
  store "sys_cpu_system_seconds" system;;
  user ← must (cpu_deltas !! "user");
  system ← must (cpu_deltas !! "system");
  nice ← must (cpu_deltas !! "nice");
  store "sys_cpu_total_seconds" (user + system + nice);;
  (if (0 <? total_delta)%Z then
     idle ← must (cpu_deltas !! "idle");
     let idle_jiffies := idle * inject_Z jiffies_per_second in
     let active_jiffies := inject_Z total_delta - idle_jiffies in
     q ← must (py_truediv active_jiffies (inject_Z total_delta));
     store "sys_cpu_utilization" (q * 100)
   else store "sys_cpu_utilization" 0);;
  (if (0 <? total_delta)%Z
   then percent_loop cpu_deltas total_delta cpu_fields
   else mret tt).

Definition proc_stat_body (prev_stat curr_stat : ProcStat) : Try unit :=
  let prev_cpu := default ∅ (ps_cpu prev_stat) in
  let curr_cpu := default ∅ (ps_cpu curr_stat) in
  (if nonempty prev_cpu && nonempty curr_cpu
   then cpu_block prev_cpu curr_cpu else mret tt);;
  let prev_ctxt := default 0%Z (ps_context_switches prev_stat) in
  let curr_ctxt := default 0%Z (ps_context_switches curr_stat) in
  store "sys_context_switches" (inject_Z (Z.max 0 (curr_ctxt - prev_ctxt)));;
  let prev_procs := default 0%Z (ps_processes_created prev_stat) in
  let curr_procs := default 0%Z (ps_processes_created curr_stat) in
  store "sys_processes_created" (inject_Z (Z.max 0 (curr_procs - prev_procs)));;
  store "sys_procs_running" (inject_Z (default 0%Z (ps_procs_running curr_stat)));;
  store "sys_procs_blocked" (inject_Z (default 0%Z (ps_procs_blocked curr_stat))).

Definition _compute_proc_stat_deltas (prev_stat curr_stat : ProcStat)
    (time_delta : Q) : gmap string Q :=
  if negb (stat_nonempty prev_stat) || negb (stat_nonempty curr_stat)
  then ∅
  else run_try (proc_stat_body prev_stat curr_stat).

(** [{k: max(0.0, float(t1.get(k, 0.0)) - float(t0.get(k, 0.0))) for k in keys}],
    read at one key. *)
Definition os_delta (t0 t1 : gmap string Q) (k : string) : Q :=
  py_maxQ 0 (getQ t1 k - getQ t0 k).

(** [a or b or c] on floats. *)
Definition first_nonzero (a b c : Q) : Q :=
  if negb (Qeq_bool a 0) then a
  else if negb (Qeq_bool b 0) then b
  else c.

(** [total = sum(deltas.values()) or time_delta or 1.0]. *)
Definition os_total (t0 t1 : gmap string Q) (time_delta : Q) : Q :=
  first_nonzero (sumQ (map (os_delta t0 t1) cpu_fields)) time_delta 1.

Definition metrics_map (k : string) : string :=
  if String.eqb k "user" then "cpu_user_time"
  else if String.eqb k "nice" then "cpu_nice_time"
  else if String.eqb k "system" then "cpu_system_time"
  else if String.eqb k "idle" then "cpu_idle"
  else if String.eqb k "iowait" then "cpu_iowait"
  else if String.eqb k "irq" then "cpu_irq"
  else if String.eqb k "softirq" then "cpu_softirq"
  else "cpu_steal".

(** [metrics[metrics_map[k]] = (deltas[k] / total) * 100.0] for each
    key. *)
Fixpoint os_percent_loop (t0 t1 : gmap string Q) (total : Q)
    (keys : list string) : Try unit :=
  match keys with
  | [] => mret tt
  | k :: rest =>
      q ← must (py_truediv (os_delta t0 t1 k) total);
      store (metrics_map k) (q * 100);;
      os_percent_loop t0 t1 total rest
  end.

(** [metrics.get('cpu_idle', 0.0)], reading the dictionary being filled. *)
Definition load_key (key : string) : Try Q := fun d => (d, Some (getQ d key)).

Definition mib : Q := inject_Z (1024 * 1024).

Definition os_metrics_body (snap0 snap1 : OSSnapshot) (time_delta : Q)
    : Try unit :=
  let t0 := default ∅ (cpu_times snap0) in
  let t1 := default ∅ (cpu_times snap1) in
  let total := os_total t0 t1 time_delta in
  os_percent_loop t0 t1 total cpu_fields;;
  idle ← load_key "cpu_idle";
  store "cpu_utilization" (100 - idle);;
  let d0 := default ∅ (disk_io snap0) in
  let d1 := default ∅ (disk_io snap1) in
  read_mb ← must (py_truediv
    (inject_Z (Z.max 0 (getZ d1 "read_bytes" - getZ d0 "read_bytes"))) mib);
  write_mb ← must (py_truediv
    (inject_Z (Z.max 0 (getZ d1 "write_bytes" - getZ d0 "write_bytes"))) mib);
  store "disk_io_read_mb" read_mb;;
  store "disk_io_write_mb" write_mb;;
  let n0 := default ∅ (net_io snap0) in
  let n1 := default ∅ (net_io snap1) in
  store "network_bytes_sent"
    (inject_Z (Z.max 0 (getZ n1 "bytes_sent" - getZ n0 "bytes_sent")));;
  store "network_bytes_recv"
    (inject_Z (Z.max 0 (getZ n1 "bytes_recv" - getZ n0 "bytes_recv")));;
  let mem1 := default ∅ (memory snap1) in
  store "memory_usage_percent" (getQ mem1 "percent");;
  store "memory_available_gb" (getQ mem1 "available_gb");;
  store "process_count" (inject_Z (default 0%Z (snap_process_count snap1)));;
  let la1 := default ∅ (load_avg snap1) in
  store "load_average_1min" (getQ la1 "la1");;
  store "load_average_5min" (getQ la1 "la5");;
  store "load_average_15min" (getQ la1 "la15").

Definition _compute_os_metrics_from_snapshots (snap0 snap1 : OSSnapshot)
    (time_delta : Q) : gmap string Q :=
  run_try (os_metrics_body snap0 snap1 time_delta).

End DeltaSampler.

(** Closed forms of what the first loop of [_compute_proc_stat_deltas]
    leaves in [cpu_deltas] and [total_delta], and of the utilization
    computed from them. *)
Definition seconds_of (jps : Z) (prev_cpu curr_cpu : gmap string Z)
    (field : string) : Q :=
  inject_Z (delta_jiffies prev_cpu curr_cpu field) / inject_Z jps.

Definition cpu_deltas_of (jps : Z) (prev_cpu curr_cpu : gmap string Z)
    (fields : list string) (cpu_deltas : gmap string Q) : gmap string Q :=
  fold_left (fun m f => <[f := seconds_of jps prev_cpu curr_cpu f]> m)
    fields cpu_deltas.

Definition total_of (prev_cpu curr_cpu : gmap string Z)
    (fields : list string) (total_delta : Z) : Z :=
  fold_left (fun t f => (t + delta_jiffies prev_cpu curr_cpu f)%Z)
    fields total_delta.

Definition utilization_of (jps : Z) (prev_cpu curr_cpu : gmap string Z) : Q :=
  let total_delta := total_of prev_cpu curr_cpu cpu_fields 0 in
  if (0 <? total_delta)%Z then
    (inject_Z total_delta
     - seconds_of jps prev_cpu curr_cpu "idle" * inject_Z jps)
    / inject_Z total_delta * 100
  else 0.

(** Closed forms for [_compute_os_metrics_from_snapshots]: the dictionary
    its percentage loop leaves and the utilization it stores. *)
Definition os_percents (t0 t1 : gmap string Q) (total : Q)
    (keys : list string) (d : gmap string Q) : gmap string Q :=
  fold_left (fun m k => <[metrics_map k := os_delta t0 t1 k / total * 100]> m)
    keys d.

Definition os_utilization_of (t0 t1 : gmap string Q) (time_delta : Q) : Q :=
  100 - os_delta t0 t1 "idle" / os_total t0 t1 time_delta * 100.

(** [calculate_derived_features]: no handler of its own, so an exception
    ([None]) would reach the caller.  The counters are Python ints. *)
Definition guarded_ratio (pmc_data : gmap string Z) (num den : string)
    : option Q :=
  if (0 <? getZ pmc_data den)%Z then
    d ← pmc_data !! den;
    py_truediv (inject_Z (getZ pmc_data num)) (inject_Z d)
  else Some 0.

Definition calculate_derived_features (pmc_data : gmap string Z)
    (os_data : gmap string Q) : option (gmap string Q) :=
  ipc ← guarded_ratio pmc_data "instructions" "cpu_cycles";
  cmr ← guarded_ratio pmc_data "cache_misses" "cache_references";
  bmr ← guarded_ratio pmc_data "branch_misses" "branches";
  let total_active := getQ os_data "cpu_user_time" + getQ os_data "cpu_system_time" in
  eff ← py_truediv total_active 100;
  Some (<["cpu_efficiency" := eff]>
        (<["branch_miss_ratio" := bmr]>
         (<["cache_miss_ratio" := cmr]>
          (<["instructions_per_cycle" := ipc]> ∅)))).

(** [VMFeaturePoint]; the strings [timestamp_iso], [vm_hostname] and the
    constant [target_zones] are left out. *)
Record VMFeaturePoint := {
  timestamp : Q;
  cpu_cycles : Z;
  instructions : Z;
  cache_references : Z;
  cache_misses : Z;
  branches : Z;
  branch_misses : Z;
  page_faults : Z;
  context_switches : Z;
  cpu_utilization : Q;
  cpu_user_time : Q;
  cpu_system_time : Q;
  cpu_nice_time : Q;
  cpu_iowait : Q;
  cpu_irq : Q;
  cpu_softirq : Q;
  cpu_steal : Q;
  cpu_idle : Q;
  memory_usage_percent : Q;
  memory_available_gb : Q;
  disk_io_read_mb : Q;
  disk_io_write_mb : Q;
  network_bytes_sent : Q;
  network_bytes_recv : Q;
  process_count : Q;
  load_average_1min : Q;
  load_average_5min : Q;
  load_average_15min : Q;
  instructions_per_cycle : Q;
  cache_miss_ratio : Q;
  branch_miss_ratio : Q;
  cpu_efficiency : Q;
  sys_cpu_user_seconds : Q;
  sys_cpu_system_seconds : Q;
  sys_cpu_total_seconds : Q;
  sys_context_switches : Q;
  sys_processes_created : Q;
  sys_procs_running : Q;
  sys_procs_blocked : Q;
  collection_interval : Q;
  time_delta_seconds : Q
}.

(** What the outside world does during one synchronized cycle: the clock
    read at T0, the two snapshots taken then, the counters [perf] reports,
    the clock read after [perf] returns, how long after the end of the
    requested sleep (or after that reading, when no sleep is requested) the
    clock is read for T1, and the two snapshots taken at T1. *)
Record CycleEnv := {
  ce_t0 : Q;
  ce_proc_stat0 : ProcStat;
  ce_os0 : OSSnapshot;
  ce_pmc_data : gmap string Z;
  ce_t_after_pmc : Q;
  ce_wake_delay : Q;
  ce_proc_stat1 : ProcStat;
  ce_os1 : OSSnapshot
}.

Section Collector.

Variable jiffies_per_second : Z.

(** [self.collection_interval]. *)
Variable self_collection_interval : Q.

(** The clock value [time.time()] returns for T1. *)
Definition t1_of (e : CycleEnv) : Q :=
  let t0 := ce_t0 e in
  let t_after_pmc := ce_t_after_pmc e in
  let elapsed := t_after_pmc - t0 in
  if Qlt_bool elapsed self_collection_interval then
    let remaining_sleep := self_collection_interval - elapsed in
    t_after_pmc + remaining_sleep + ce_wake_delay e
  else t_after_pmc + ce_wake_delay e.

(** The [self.synchronized] branch of [collect_feature_point]; [None] is
    the [except Exception: return None] of the method. *)
Definition collect_feature_point (e : CycleEnv) : option VMFeaturePoint :=
  let t0 := ce_t0 e in
  let pmc_data := ce_pmc_data e in
  let t1 := t1_of e in
  let time_delta := py_maxQ (1 # 1000000) (t1 - t0) in
  let system_deltas :=
    _compute_proc_stat_deltas jiffies_per_second
      (ce_proc_stat0 e) (ce_proc_stat1 e) time_delta in
  let aligned_os :=
    _compute_os_metrics_from_snapshots (ce_os0 e) (ce_os1 e) time_delta in
  derived_data ← calculate_derived_features pmc_data aligned_os;
  Some {|
    timestamp := t1;
    sys_cpu_user_seconds := getQ system_deltas "sys_cpu_user_seconds";
    sys_cpu_system_seconds := getQ system_deltas "sys_cpu_system_seconds";
    sys_cpu_total_seconds := getQ system_deltas "sys_cpu_total_seconds";
    sys_context_switches := getQ system_deltas "sys_context_switches";
    sys_processes_created := getQ system_deltas "sys_processes_created";
    sys_procs_running := getQ system_deltas "sys_procs_running";
    sys_procs_blocked := getQ system_deltas "sys_procs_blocked";
    cpu_cycles := getZ pmc_data "cpu_cycles";
    instructions := getZ pmc_data "instructions";
    cache_references := getZ pmc_data "cache_references";
    cache_misses := getZ pmc_data "cache_misses";
    branches := getZ pmc_data "branches";
    branch_misses := getZ pmc_data "branch_misses";
    page_faults := getZ pmc_data "page_faults";
    context_switches := getZ pmc_data "context_switches";
    cpu_utilization := getQ aligned_os "cpu_utilization";
    cpu_user_time := getQ aligned_os "cpu_user_time";
    cpu_system_time := getQ aligned_os "cpu_system_time";
    cpu_nice_time := getQ aligned_os "cpu_nice_time";
    cpu_iowait := getQ aligned_os "cpu_iowait";
    cpu_irq := getQ aligned_os "cpu_irq";
    cpu_softirq := getQ aligned_os "cpu_softirq";
    cpu_steal := getQ aligned_os "cpu_steal";
    cpu_idle := getQ aligned_os "cpu_idle";
    memory_usage_percent := getQ aligned_os "memory_usage_percent";
    memory_available_gb := getQ aligned_os "memory_available_gb";
    disk_io_read_mb := getQ aligned_os "disk_io_read_mb";
    disk_io_write_mb := getQ aligned_os "disk_io_write_mb";
    network_bytes_sent := getQ aligned_os "network_bytes_sent";
    network_bytes_recv := getQ aligned_os "network_bytes_recv";
    process_count := getQ aligned_os "process_count";
    load_average_1min := getQ aligned_os "load_average_1min";
    load_average_5min := getQ aligned_os "load_average_5min";
    load_average_15min := getQ aligned_os "load_average_15min";
    instructions_per_cycle := getQ derived_data "instructions_per_cycle";
    cache_miss_ratio := getQ derived_data "cache_miss_ratio";
    branch_miss_ratio := getQ derived_data "branch_miss_ratio";
    cpu_efficiency := getQ derived_data "cpu_efficiency";
    collection_interval := self_collection_interval;
    time_delta_seconds := time_delta
  |}.

End Collector.

(** The delta of a cumulative counter as the specification words it:
    the difference when the counter did not go back, zero after a reset. *)
Definition counter_delta (prev curr : Z) : Z :=
  if (prev <=? curr)%Z then (curr - prev)%Z else 0%Z.

(** Concrete snapshots used to run the collector. *)
Definition stat_a : ProcStat := {|
  ps_cpu := Some (list_to_map [("user", 5%Z); ("idle", 7%Z)]);
  ps_context_switches := Some 10%Z;
  ps_processes_created := Some 3%Z;
  ps_procs_running := Some 1%Z;
  ps_procs_blocked := None
|}.

(** Three more user ticks and one more idle tick; the context-switch
    counter restarted. *)
Definition stat_b : ProcStat := {|
  ps_cpu := Some (list_to_map [("user", 8%Z); ("idle", 8%Z)]);
  ps_context_switches := Some 4%Z;
  ps_processes_created := Some 5%Z;
  ps_procs_running := Some 2%Z;
  ps_procs_blocked := None
|}.

(** A snapshot whose CPU times do not advance when taken twice. *)
Definition still_snapshot : OSSnapshot := {|
  cpu_times := Some (list_to_map [("user", 5 # 1); ("idle", 7 # 1)]);
  disk_io := None; net_io := None; memory := None;
  snap_process_count := Some 12%Z; load_avg := None
|}.

(** What [_snapshot_os_counters] returns when [psutil] fails at once. *)
Definition failed_snapshot : OSSnapshot := {|
  cpu_times := None; disk_io := None; net_io := None; memory := None;
  snap_process_count := None; load_avg := None
|}.

(** A cycle in which [perf] fails after 0.3 s: T0 = 50, the clock reads
    50.3 after [perf], the sleep overshoots by 2 ms. *)
Definition short_perf_cycle : CycleEnv := {|
  ce_t0 := 50;
  ce_proc_stat0 := stat_a;
  ce_os0 := still_snapshot;
  ce_pmc_data := list_to_map [("instructions", 900%Z); ("cpu_cycles", 0%Z);
                              ("cache_misses", 3%Z); ("cache_references", 12%Z)];
  ce_t_after_pmc := 503 # 10;
  ce_wake_delay := 2 # 1000;
  ce_proc_stat1 := stat_b;
  ce_os1 := still_snapshot
|}.

End Features.

(** ** merge_datasets.py: loading, ordering and export *)

Module MergeIO.

Import Merge.

(** The distance of a label from a target time. *)
Definition dist (target : Q) (pp : PowerPoint) : Q :=
  Qabs (pp_timestamp pp - target).

(** The candidate the scan carries: none, or a label within the tolerance
    together with its distance. *)
Definition candidate_ok (self : DatasetMerger) (target : Q)
    (cp : option PowerPoint) (cd : option Q) : Prop :=
  (cp = None /\ cd = None)
  \/ exists p, cp = Some p /\ cd = Some (dist target p)
                /\ dist target p <= time_tolerance self.

(** Sequences in ascending timestamp order. *)
Definition sorted_labels (l : list PowerPoint) : Prop :=
  StronglySorted (fun a b => pp_timestamp a <= pp_timestamp b) l.

Definition sorted_features (l : list VMPoint) : Prop :=
  StronglySorted (fun a b => timestamp a <= timestamp b) l.

(** The cursor invariant of the forward scan: the cursor is not negative
    and, unless it is 0, points at a label that is not later than any of
    the features still to be processed. *)
Definition cursor_ok (self : DatasetMerger) (c : Z) (vms : list VMPoint)
    : Prop :=
  (0 <= c)%Z
  /\ (c = 0%Z
      \/ exists q, bm_data self !! Z.to_nat c = Some q
                   /\ Forall (fun vm => pp_timestamp q <= timestamp vm) vms).

(** What the loop body puts into a record besides the timestamps: a
    label value that passes the noise floor, read from a loaded power
    point in the configured zone. *)
Definition labelled_record (self : DatasetMerger) (m : MergedPoint) : Prop :=
  min_power_threshold self <= power_watts m
  /\ mp_power_zone m = power_zone self
  /\ exists pp, pp ∈ bm_data self
                /\ power_watts m = _get_power_label self pp
                /\ bm_timestamp m = pp_timestamp pp
                /\ vm_count m = default 1%Z (pp_vm_count pp).

(** [list.sort(key=...)]: a stable sort.  Each element goes behind the
    elements whose key is not larger. *)
Fixpoint insert_by {A} (key : A -> Q) (x : A) (l : list A) : list A :=
  match l with
  | [] => [x]
  | y :: l' =>
      if Qlt_bool (key x) (key y) then x :: y :: l'
      else y :: insert_by key x l'
  end.

Definition sort_by {A} (key : A -> Q) (l : list A) : list A :=
  fold_left (fun acc x => insert_by key x acc) l [].

Definition set_vm_data (self : DatasetMerger) (vms : list VMPoint)
    (stats : MergeStatistics) : DatasetMerger := {|
  time_tolerance := time_tolerance self;
  min_power_threshold := min_power_threshold self;
  power_zone := power_zone self;
  vm_data := vms;
  bm_data := bm_data self;
  merged_data := merged_data self;
  statistics := stats
|}.

Definition set_bm_data (self : DatasetMerger) (bms : list PowerPoint)
    (stats : MergeStatistics) : DatasetMerger := {|
  time_tolerance := time_tolerance self;
  min_power_threshold := min_power_threshold self;
  power_zone := power_zone self;
  vm_data := vm_data self;
  bm_data := bms;
  merged_data := merged_data self;
  statistics := stats
|}.

Definition with_vm_range (s : MergeStatistics) (n : Z) (r : Q * Q)
    : MergeStatistics := {|
  vm_feature_points := n;
  bm_power_points := bm_power_points s;
  matched_points := matched_points s;
  unmatched_vm_points := unmatched_vm_points s;
  unmatched_bm_points := unmatched_bm_points s;
  time_range_vm := r;
  time_range_bm := time_range_bm s;
  time_range_merged := time_range_merged s;
  power_range := power_range s;
  average_time_diff := average_time_diff s;
  max_time_diff := max_time_diff s
|}.

Definition with_bm_range (s : MergeStatistics) (n : Z) (r : Q * Q)
    : MergeStatistics := {|
  vm_feature_points := vm_feature_points s;
  bm_power_points := n;
  matched_points := matched_points s;
  unmatched_vm_points := unmatched_vm_points s;
  unmatched_bm_points := unmatched_bm_points s;
  time_range_vm := time_range_vm s;
  time_range_bm := r;
  time_range_merged := time_range_merged s;
  power_range := power_range s;
  average_time_diff := average_time_diff s;
  max_time_diff := max_time_diff s
|}.

(** [load_vm_features].  The file content is [None] when the file is
    missing or cannot be read as JSON, and the parsed list otherwise.  The
    list is stored before it is tested for emptiness. *)
Definition load_vm_features (self : DatasetMerger)
    (content : option (list VMPoint)) : DatasetMerger * bool :=
  match content with
  | None => (self, false)
  | Some [] => (set_vm_data self [] (statistics self), false)
  | Some data =>
      let sorted := sort_by timestamp data in
      (set_vm_data self sorted
         (with_vm_range (statistics self) (Z.of_nat (length sorted))
            (time_range_of (map timestamp sorted))),
       true)
  end.

(** [load_bm_power].  The rows are [None] when the file is missing or
    cannot be read.  An empty frame is rejected before anything is
    stored. *)
Definition load_bm_power (self : DatasetMerger)
    (content : option (list PowerPoint)) : DatasetMerger * bool :=
  match content with
  | None => (self, false)
  | Some [] => (self, false)
  | Some data =>
      let sorted := sort_by pp_timestamp data in
      (set_bm_data self sorted
         (with_bm_range (statistics self) (Z.of_nat (length sorted))
            (time_range_of (map pp_timestamp sorted))),
       true)
  end.

(** The column order of [_save_as_csv]. *)
Definition important_cols : list string :=
  ["timestamp"; "timestamp_iso"; "power_watts"; "time_diff"].

Definition feature_prefixes : list string :=
  ["cpu_"; "memory_"; "disk_"; "network_"; "process_count"; "load_average";
   "instructions_"; "cache_"; "branch_"; "sys_"].

(** [col.startswith((...))]. *)
Definition is_feature_col (col : string) : bool :=
  existsb (fun p => String.prefix p col) feature_prefixes.

(** [col in cols]. *)
Definition mem (col : string) (cols : list string) : bool :=
  bool_decide (col ∈ cols).

Definition ordered_cols (columns : list string) : list string :=
  let feature_cols := List.filter is_feature_col columns in
  let metadata_cols :=
    List.filter (fun col => negb (mem col (important_cols ++ feature_cols)))
      columns in
  List.filter (fun col => mem col columns)
    (important_cols ++ feature_cols ++ metadata_cols).

(** The match rate and rating of [print_merge_summary]. *)
Inductive Rating := Excellent | Good | Fair | Poor.

Definition data_quality (s : MergeStatistics) : Q :=
  inject_Z (matched_points s)
  / inject_Z (Z.max 1 (vm_feature_points s)) * 100.

Definition quality_rating (s : MergeStatistics) : option Rating :=
  if (0 <? matched_points s)%Z then
    let q := data_quality s in
    Some (if Qle_bool 90 q then Excellent
          else if Qle_bool 80 q then Good
          else if Qle_bool 60 q then Fair
          else Poor)
  else None.

(** The recommendations printed when the match rate is below 80. *)
Inductive Recommendation :=
  | IncreaseTolerance
  | CheckSynchronization
  | ReduceThreshold.

Definition recommendations (self : DatasetMerger) : list Recommendation :=
  let s := statistics self in
  if (0 <? matched_points s)%Z && Qlt_bool (data_quality s) 80 then
    (if Qlt_bool (time_tolerance self * (5 # 10)) (average_time_diff s)
     then [IncreaseTolerance] else [])
    ++ (if Qlt_bool (inject_Z (matched_points s) * (2 # 10))
             (inject_Z (unmatched_vm_points s))
        then [CheckSynchronization] else [])
    ++ (if Qlt_bool (snd (power_range s)) (1 # 100)
        then [ReduceThreshold] else [])
  else [].

(** The command-line run: construct, load both files, merge. *)
Definition run_merge (tol thr : Q) (zone : string)
    (vms : list VMPoint) (bms : list PowerPoint) : DatasetMerger * bool :=
  let m0 := init tol thr zone in
  let m1 := fst (load_vm_features m0 (Some vms)) in
  let m2 := fst (load_bm_power m1 (Some bms)) in
  merge_datasets m2.

(** Inputs that are not in timestamp order, and the columns of a small
    frame, used to run the loaders and the export. *)
Definition shuffled_features : list VMPoint :=
  [feature 2; feature 0; feature 10; feature 1].

Definition shuffled_labels : list PowerPoint :=
  [label (25 # 10) 1; label (5 # 100) 1; label (95 # 100) 1].

Definition example_columns : list string :=
  ["cpu_cycles"; "power_watts"; "vm_hostname"; "timestamp";
   "sys_procs_running"].

End MergeIO.

(** ** bm_power_collector.py: the connectivity probe *)

Module PowerProbe.

Import Power.

Section Probe.

Variable _parse_vm_metrics : string -> ZoneMetrics.

(** The [try] body of [collect_power_metrics] after a successful [get]:
    the clock is read, the first measurement fixes the collection start,
    and the data point is built as in
    [collect_power_metrics_with_timestamp]. *)
Definition probe_point (self : Collector) (timestamp : Q) (text : string)
    : Collector * option PowerDataPoint :=
  let self' :=
    match collection_start_time self with
    | None => set_start self timestamp
    | Some _ => self
    end in
  (self', build_data_point _parse_vm_metrics self' timestamp text).

(** [for attempt in range(self.max_retries)]; [now attempt] is the clock
    read in that attempt. *)
Fixpoint probe_attempts (self : Collector) (responses : nat -> Response)
    (now : nat -> Q) (remaining attempt : nat)
    : Collector * option PowerDataPoint :=
  match remaining with
  | O => (self, None)
  | S remaining' =>
      match responses attempt with
      | Ok text => probe_point self (now attempt) text
      | RequestException =>
          if Nat.ltb attempt (max_retries self - 1)
          then probe_attempts self responses now remaining' (S attempt)
          else (self, None)
      | OtherException => (self, None)
      end
  end.

Definition collect_power_metrics (self : Collector)
    (responses : nat -> Response) (now : nat -> Q)
    : Collector * option PowerDataPoint :=
  probe_attempts self responses now (max_retries self) 0.

End Probe.

(** The relative timestamp the loop gives the sample of pass [k]. *)
Definition relative_time (self : Collector) (start_time : Q) (k : nat) : Q :=
  start_time + inject_Z (Z.of_nat k) * c_collection_interval self - start_time.

(** A collector restricted to one VM name, a reading of another VM, and
    an endpoint that refuses the first two connections. *)
Definition named_collector : Collector := {|
  kepler_url := kepler_url example_collector;
  c_collection_interval := c_collection_interval example_collector;
  max_retries := max_retries example_collector;
  target_vms := Some {["fedora40"]};
  vm_pattern := None;
  sync_start_time := sync_start_time example_collector;
  power_data := [];
  collection_start_time := None
|}.

Definition other_vm : VMInfo := {|
  vm_id := "2"; vm_name := "debian12"; hypervisor := "kvm";
  node_name := "host"; zone := "core"; watts := 3 # 10; state := "running"
|}.

Definition flaky (attempt : nat) : Response :=
  if Nat.ltb attempt 2 then RequestException else Ok "".

(** The entries of a data point's [vms] list stored for one zone. *)
Definition zone_entries (z : string) (p : PowerDataPoint) : list VMInfo :=
  List.filter (fun vm => String.eqb (zone vm) z) (vms p).

End PowerProbe.

(** ** vm_feature_collector.py: the percentage keys *)

Module FeatureKeys.

Import Features.

(** [f'sys_cpu_{field}_percent']. *)
Definition percent_key (field : string) : string :=
  "sys_cpu_" +:+ field +:+ "_percent".

(** The value the second loop of [_compute_proc_stat_deltas] stores for
    one field. *)
Definition percent_of (jps : Z) (prev_cpu curr_cpu : gmap string Z)
    (field : string) : Q :=
  seconds_of jps prev_cpu curr_cpu field * inject_Z jps
  / inject_Z (total_of prev_cpu curr_cpu cpu_fields 0) * 100.

(** The value [_compute_os_metrics_from_snapshots] stores for one CPU
    state. *)
Definition os_percent_of (t0 t1 : gmap string Q) (time_delta : Q)
    (k : string) : Q :=
  os_delta t0 t1 k / os_total t0 t1 time_delta * 100.

(** The CPU-state fields of a feature point, in the order of
    [cpu_fields]. *)
Definition cpu_state_fields (p : VMFeaturePoint) : list Q :=
  [cpu_user_time p; cpu_nice_time p; cpu_system_time p; cpu_idle p;
   cpu_iowait p; cpu_irq p; cpu_softirq p; cpu_steal p].

(** [still_snapshot] three seconds of user time and one second of idle
    time later. *)
Definition busy_snapshot : OSSnapshot := {|
  cpu_times := Some (list_to_map [("user", 8 # 1); ("idle", 8 # 1)]);
  disk_io := None; net_io := None; memory := None;
  snap_process_count := Some 12%Z; load_avg := None
|}.

End FeatureKeys.
(** ** Python string operations

    A string is a sequence of code points below 256, one [ascii] each. *)

Module PyStr.

Definition newline : ascii := "010"%char.
Definition comma : ascii := ","%char.
Definition quote : ascii := "034"%char.
Definition space : ascii := " "%char.
Definition equals : ascii := "="%char.
Definition lbrace : ascii := "{"%char.
Definition rbrace : ascii := "}"%char.

(** [c.isspace()]: the code points 9 to 13, 28 to 32, 133 and 160. *)
Definition isspace (c : ascii) : bool :=
  let n := nat_of_ascii c in
  ((9 <=? n) && (n <=? 13) || (28 <=? n) && (n <=? 32)
   || (n =? 133) || (n =? 160))%nat.

(** [s.lstrip()], [s.rstrip()] and [s.strip()], and with an argument
    ([s.strip(chars)]) through the predicate [drop]. *)
Fixpoint lstrip_by (drop : ascii -> bool) (s : string) : string :=
  match s with
  | EmptyString => EmptyString
  | String c s' => if drop c then lstrip_by drop s' else s
  end.

Fixpoint rstrip_by (drop : ascii -> bool) (s : string) : string :=
  match s with
  | EmptyString => EmptyString
  | String c s' =>
      match rstrip_by drop s' with
      | EmptyString => if drop c then EmptyString else String c EmptyString
      | r => String c r
      end
  end.

Definition strip_by (drop : ascii -> bool) (s : string) : string :=
  rstrip_by drop (lstrip_by drop s).

Definition strip : string -> string := strip_by isspace.

(** [c in s]. *)
Fixpoint contains (c : ascii) (s : string) : bool :=
  match s with
  | EmptyString => false
  | String a s' => Ascii.eqb a c || contains c s'
  end.

(** [s.split(sep)] for a separator of one character: one more part than
    there are separators. *)
Fixpoint split_on (sep : ascii) (s : string) : list string :=
  match s with
  | EmptyString => [EmptyString]
  | String a s' =>
      if Ascii.eqb a sep then EmptyString :: split_on sep s'
      else match split_on sep s' with
           | part :: parts => String a part :: parts
           | [] => [String a EmptyString]
           end
  end.

(** [s.replace(c, '')]. *)
Fixpoint remove_char (c : ascii) (s : string) : string :=
  match s with
  | EmptyString => EmptyString
  | String a s' =>
      if Ascii.eqb a c then remove_char c s' else String a (remove_char c s')
  end.

(** [s.split()]: the maximal runs of characters that are not
    whitespace. *)
Fixpoint split_ws (s : string) : list string :=
  match s with
  | EmptyString => []
  | String c s' =>
      if isspace c then split_ws s'
      else
        match s' with
        | EmptyString => [String c EmptyString]
        | String c' _ =>
            if isspace c' then String c EmptyString :: split_ws s'
            else match split_ws s' with
                 | token :: tokens => String c token :: tokens
                 | [] => [String c EmptyString]
                 end
        end
  end.

(** [s.split(sep, 1)] when [sep in s]: the text before the first
    separator and the text after it. *)
Fixpoint split_first (sep : ascii) (s : string) : string * string :=
  match s with
  | EmptyString => (EmptyString, EmptyString)
  | String a s' =>
      if Ascii.eqb a sep then (EmptyString, s')
      else let '(before, after) := split_first sep s' in
           (String a before, after)
  end.

(** [s.find(c)] and [s.rfind(c)]: -1 when [c] does not occur. *)
Fixpoint find (c : ascii) (s : string) : Z :=
  match s with
  | EmptyString => (-1)%Z
  | String a s' =>
      if Ascii.eqb a c then 0%Z
      else let r := find c s' in
           if (r <? 0)%Z then (-1)%Z else (r + 1)%Z
  end.

Fixpoint rfind (c : ascii) (s : string) : Z :=
  match s with
  | EmptyString => (-1)%Z
  | String a s' =>
      let r := rfind c s' in
      if (0 <=? r)%Z then (r + 1)%Z
      else if Ascii.eqb a c then 0%Z else (-1)%Z
  end.

(** [s[a:b]]: a negative index counts from the end, and both are clamped
    to the string. *)
Definition slice_index (len i : Z) : Z :=
  if (i <? 0)%Z then Z.max 0 (i + len) else Z.min i len.

Definition py_slice (s : string) (a b : Z) : string :=
  let len := Z.of_nat (String.length s) in
  let a' := slice_index len a in
  let b' := slice_index len b in
  String.substring (Z.to_nat a') (Z.to_nat (b' - a')) s.

(** [parts[i]] where the index is known to be in range. *)
Definition item (parts : list string) (i : nat) : string :=
  nth i parts EmptyString.

End PyStr.

(** ** bm_power_collector.py: the scrape parser *)

Module PowerParse.

Import Power PyStr.

Section Parser.

(** [float(s)]: [None] is [ValueError]. *)
Variable py_float : string -> option Q.

(** The loop over [labels_str.split(',')]. *)
Definition parse_label (labels : gmap string string) (label_pair : string)
    : gmap string string :=
  if contains equals label_pair then
    let '(key, val) := split_first equals label_pair in
    let key := strip key in
    let val := strip_by (Ascii.eqb quote) (strip val) in
    <[key := val]> labels
  else labels.

Definition parse_labels (labels_str : string) : gmap string string :=
  fold_left parse_label (split_on comma labels_str) ∅.

(** [labels.get(key, '')]. *)
Definition get_label (labels : gmap string string) (key : string) : string :=
  default EmptyString (labels !! key).

(** [if zone in metrics: metrics[zone].append(vm_info)]. *)
Definition append_zone (metrics : ZoneMetrics) (vm_info : VMInfo)
    : ZoneMetrics :=
  if String.eqb (zone vm_info) "core" then
    {| core := core metrics ++ [vm_info]; package := package metrics |}
  else if String.eqb (zone vm_info) "package" then
    {| core := core metrics; package := package metrics ++ [vm_info] |}
  else metrics.

(** The body of the loop of [_parse_vm_metrics] for one line; a
    [ValueError] of [float] skips the line. *)
Definition parse_metric_line (metrics : ZoneMetrics) (line : string)
    : ZoneMetrics :=
  if String.prefix "kepler_vm_cpu_watts{" line then
    let parts := split_on space line in
    if negb (length parts =? 2)%nat then metrics
    else
      let labels_part := item parts 0 in
      match py_float (item parts 1) with
      | None => metrics
      | Some value =>
          let labels_str :=
            py_slice labels_part (find lbrace labels_part + 1)
              (rfind rbrace labels_part) in
          let labels := parse_labels labels_str in
          let vm_info := {|
            vm_id := get_label labels "vm_id";
            vm_name := get_label labels "vm_name";
            hypervisor := get_label labels "hypervisor";
            node_name := get_label labels "node_name";
            zone := get_label labels "zone";
            watts := value;
            state := get_label labels "state"
          |} in
          append_zone metrics vm_info
      end
  else metrics.

Definition no_metrics : ZoneMetrics := {| core := []; package := [] |}.

Definition _parse_vm_metrics (kepler_response : string) : ZoneMetrics :=
  fold_left parse_metric_line (split_on newline kepler_response) no_metrics.

End Parser.

(** Zone by zone, the readings of [a] followed by those of [b]. *)
Definition zone_app (a b : ZoneMetrics) : ZoneMetrics :=
  {| core := core a ++ core b; package := package a ++ package b |}.

(** The text of a sample line after its single space. *)
Definition value_text (line : string) : string :=
  item (split_on space line) 1.

(** [float] on the two literals of the examples. *)
Definition example_float (s : string) : option Q :=
  if String.eqb s "0.5" then Some (5 # 10)
  else if String.eqb s "0.7" then Some (7 # 10)
  else None.

Definition quoted (s : string) : string :=
  String quote (s +:+ String quote EmptyString).

(** One sample line of a scrape. *)
Definition sample_line (name zone value : string) : string :=
  "kepler_vm_cpu_watts{hypervisor=" +:+ quoted "kvm"
  +:+ ",vm_id=" +:+ quoted "1"
  +:+ ",vm_name=" +:+ quoted name
  +:+ ",zone=" +:+ quoted zone +:+ "} " +:+ value.

(** A scrape with a comment line, two samples and a sample of another
    zone. *)
Definition example_scrape : string :=
  "# TYPE kepler_vm_cpu_watts gauge" +:+ String newline
    (sample_line "fedora40" "core" "0.5" +:+ String newline
       (sample_line "fedora40" "package" "0.7" +:+ String newline
          (sample_line "fedora40" "dram" "0.5"))).

End PowerParse.

(** ** vm_feature_collector.py: the parsers *)

Module FeatureParse.

Import Features PyStr.

Section Parsers.

(** [int(s)]: [None] is [ValueError]. *)
Variable py_int : string -> option Z.

(** [event_map], with [event in event_map] as [is_Some]. *)
Definition event_map (event : string) : option string :=
  if String.eqb event "cpu-cycles" then Some "cpu_cycles"
  else if String.eqb event "instructions" then Some "instructions"
  else if String.eqb event "cache-references" then Some "cache_references"
  else if String.eqb event "cache-misses" then Some "cache_misses"
  else if String.eqb event "branches" then Some "branches"
  else if String.eqb event "branch-misses" then Some "branch_misses"
  else if String.eqb event "page-faults" then Some "page_faults"
  else if String.eqb event "context-switches" then Some "context_switches"
  else None.

(** The body of the loop of [_parse_perf_output] for one line. *)
Definition parse_perf_line (metrics : gmap string Z) (line : string)
    : gmap string Z :=
  if contains comma line && negb (String.eqb (strip line) "") then
    let parts := split_on comma line in
    if (3 <=? length parts)%nat then
      let value_str := strip (item parts 0) in
      if String.eqb value_str "<not supported>" then metrics
      else
        match py_int (remove_char comma value_str) with
        | None => metrics
        | Some value =>
            let event := strip (item parts 2) in
            match event_map event with
            | Some name => <[name := value]> metrics
            | None => metrics
            end
        end
    else metrics
  else metrics.

Definition _parse_perf_output (stderr_output : string) : gmap string Z :=
  fold_left parse_perf_line (split_on newline stderr_output) ∅.

(** What [subprocess.run] gives: a completed process with its return
    code and standard error, a timeout, or another exception. *)
Inductive PerfResult :=
  | Completed (returncode : Z) (stderr : string)
  | TimeoutExpired
  | PerfException.

(** [collect_pmc_metrics]. *)
Definition collect_pmc_metrics (available_pmcs : list string)
    (result : PerfResult) : gmap string Z :=
  match available_pmcs with
  | [] => ∅
  | _ =>
      match result with
      | Completed returncode stderr =>
          if negb (returncode =? 0)%Z then ∅ else _parse_perf_output stderr
      | TimeoutExpired => ∅
      | PerfException => ∅
      end
  end.

(** The fields of the [cpu] line of /proc/stat. *)
Definition cpu_line_fields : list string :=
  ["user"; "nice"; "system"; "idle"; "iowait"; "irq"; "softirq"; "steal";
   "guest"; "guest_nice"].

(** [for i, field in enumerate(cpu_fields)]: a missing or unreadable
    field counts as 0. *)
Fixpoint cpu_values_loop (parts : list string) (i : nat)
    (fields : list string) (cpu_values : gmap string Z) : gmap string Z :=
  match fields with
  | [] => cpu_values
  | field :: rest =>
      let value :=
        if (i + 1 <? length parts)%nat then
          match py_int (item parts (i + 1)) with
          | Some v => v
          | None => 0%Z
          end
        else 0%Z in
      cpu_values_loop parts (S i) rest (<[field := value]> cpu_values)
  end.

(** [metrics[key] = value] for the five keys of the result. *)
Definition set_cpu (metrics : ProcStat) (v : gmap string Z) : ProcStat := {|
  ps_cpu := Some v;
  ps_context_switches := ps_context_switches metrics;
  ps_processes_created := ps_processes_created metrics;
  ps_procs_running := ps_procs_running metrics;
  ps_procs_blocked := ps_procs_blocked metrics
|}.

Definition set_context_switches (metrics : ProcStat) (v : Z) : ProcStat := {|
  ps_cpu := ps_cpu metrics;
  ps_context_switches := Some v;
  ps_processes_created := ps_processes_created metrics;
  ps_procs_running := ps_procs_running metrics;
  ps_procs_blocked := ps_procs_blocked metrics
|}.

Definition set_processes_created (metrics : ProcStat) (v : Z) : ProcStat := {|
  ps_cpu := ps_cpu metrics;
  ps_context_switches := ps_context_switches metrics;
  ps_processes_created := Some v;
  ps_procs_running := ps_procs_running metrics;
  ps_procs_blocked := ps_procs_blocked metrics
|}.

Definition set_procs_running (metrics : ProcStat) (v : Z) : ProcStat := {|
  ps_cpu := ps_cpu metrics;
  ps_context_switches := ps_context_switches metrics;
  ps_processes_created := ps_processes_created metrics;
  ps_procs_running := Some v;
  ps_procs_blocked := ps_procs_blocked metrics
|}.

Definition set_procs_blocked (metrics : ProcStat) (v : Z) : ProcStat := {|
  ps_cpu := ps_cpu metrics;
  ps_context_switches := ps_context_switches metrics;
  ps_processes_created := ps_processes_created metrics;
  ps_procs_running := ps_procs_running metrics;
  ps_procs_blocked := Some v
|}.

(** [try: metrics[key] = int(parts[1]) except ValueError: pass]. *)
Definition store_int (set : ProcStat -> Z -> ProcStat) (metrics : ProcStat)
    (parts : list string) : ProcStat :=
  match py_int (item parts 1) with
  | Some v => set metrics v
  | None => metrics
  end.

(** The body of the loop of [_read_proc_stat] for one line. *)
Definition read_stat_line (metrics : ProcStat) (line : string) : ProcStat :=
  let line := strip line in
  if String.eqb line "" then metrics
  else
    let parts := split_ws line in
    match parts with
    | [] => metrics
    | first :: _ =>
        if String.eqb first "cpu" then
          set_cpu metrics (cpu_values_loop parts 0 cpu_line_fields ∅)
        else if String.eqb first "ctxt" && (2 <=? length parts)%nat then
          store_int set_context_switches metrics parts
        else if String.eqb first "processes" && (2 <=? length parts)%nat then
          store_int set_processes_created metrics parts
        else if String.eqb first "procs_running" && (2 <=? length parts)%nat then
          store_int set_procs_running metrics parts
        else if String.eqb first "procs_blocked" && (2 <=? length parts)%nat then
          store_int set_procs_blocked metrics parts
        else metrics
    end.

(** The empty dictionary. *)
Definition empty_stat : ProcStat := {|
  ps_cpu := None; ps_context_switches := None; ps_processes_created := None;
  ps_procs_running := None; ps_procs_blocked := None
|}.

(** [_read_proc_stat]; the content is [None] when /proc/stat cannot be
    opened or read. *)
Definition _read_proc_stat (content : option string) : ProcStat :=
  match content with
  | None => empty_stat
  | Some content =>
      fold_left read_stat_line (split_on newline content) empty_stat
  end.

(** The first token of a line is [cpu]. *)
Definition is_cpu_line (line : string) : Prop :=
  head (split_ws (strip line)) = Some "cpu".

(** What the [cpu] entry holds for the field at position [k], read from
    the tokens that follow [cpu]. *)
Definition cpu_field_value (tokens : list string) (k : nat) : Z :=
  default 0%Z (tokens !! k ≫= py_int).

End Parsers.

(** [_check_pmc_availability]: the candidate events whose test run
    returns 0; [None] is a test run that raises. *)
Definition candidate_events : list string :=
  ["cpu-cycles"; "instructions"; "cache-references"; "cache-misses";
   "branches"; "branch-misses"; "page-faults"; "context-switches"].

Definition _check_pmc_availability (test_run : string -> option Z)
    : list string :=
  List.filter (fun event =>
                 match test_run event with
                 | Some returncode => (returncode =? 0)%Z
                 | None => false
                 end) candidate_events.

(** [perf] did not deliver: no event is available, or the run did not
    complete with return code 0. *)
Definition perf_failed (available_pmcs : list string) (result : PerfResult)
    : Prop :=
  available_pmcs = []
  \/ match result with
     | Completed returncode _ => returncode <> 0%Z
     | _ => True
     end.

(** The counters and ratios of a feature point. *)
Definition pmc_counters (p : VMFeaturePoint) : list Z :=
  [cpu_cycles p; instructions p; cache_references p; cache_misses p;
   branches p; branch_misses p].

Definition pmc_ratios (p : VMFeaturePoint) : list Q :=
  [instructions_per_cycle p; cache_miss_ratio p; branch_miss_ratio p].

(** [short_perf_cycle] with the counters [perf] delivered. *)
Definition cycle_with (pmc_data : gmap string Z) : CycleEnv := {|
  ce_t0 := ce_t0 short_perf_cycle;
  ce_proc_stat0 := ce_proc_stat0 short_perf_cycle;
  ce_os0 := ce_os0 short_perf_cycle;
  ce_pmc_data := pmc_data;
  ce_t_after_pmc := ce_t_after_pmc short_perf_cycle;
  ce_wake_delay := ce_wake_delay short_perf_cycle;
  ce_proc_stat1 := ce_proc_stat1 short_perf_cycle;
  ce_os1 := ce_os1 short_perf_cycle
|}.

(** The feature names a perf line can be stored under. *)
Definition pmc_names : list string :=
  ["cpu_cycles"; "instructions"; "cache_references"; "cache_misses";
   "branches"; "branch_misses"; "page_faults"; "context_switches"].

(** [int] on a non-empty run of ASCII digits, the only numerals of the
    examples. *)
Definition digit (c : ascii) : option Z :=
  let n := nat_of_ascii c in
  if ((48 <=? n) && (n <=? 57))%nat then Some (Z.of_nat (n - 48)) else None.

Fixpoint decimal_from (acc : Z) (s : string) : option Z :=
  match s with
  | EmptyString => Some acc
  | String c s' => d ← digit c; decimal_from (10 * acc + d)%Z s'
  end.

Definition decimal_int (s : string) : option Z :=
  match s with
  | EmptyString => None
  | _ => decimal_from 0%Z s
  end.

(** Two readings of /proc/stat, 300 user ticks and 100 idle ticks
    apart; the second lacks the trailing fields. *)
Definition stat_text0 : string :=
  "cpu  500 0 200 7000 10 0 5 0 0 0" +:+ String newline
    ("cpu0 500 0 200 7000 10 0 5 0 0 0" +:+ String newline
       ("ctxt 1000" +:+ String newline "procs_running 2")).

Definition stat_text1 : string :=
  "cpu  800 0 200 7100" +:+ String newline
    ("ctxt 1500" +:+ String newline "procs_running x").

(** Two lines of [perf stat -x ,] output, and a count printed with
    thousands separators. *)
Definition perf_cycles : string := "1200,,cpu-cycles,1000000,100.00".
Definition perf_instructions : string := "900,,instructions,1000000,100.00".
Definition perf_grouped : string := "1,200,,cpu-cycles,1000000,100.00".

(** The text of a line before its first comma. *)
Definition first_field (line : string) : string :=
  item (split_on comma line) 0.

(** The line reads as the count [value] of the feature [name]. *)
Definition reads (py_int : string -> option Z) (line name : string)
    (value : Z) : Prop :=
  py_int (strip (first_field line)) = Some value
  /\ event_map (strip (item (split_on comma line) 2)) = Some name.

End FeatureParse.

(** ** vm_feature_collector.py: the collection loop *)

Module FeatureLoop.

Import Features.

(** The variables of the [while] loop of [collect_vm_features]. *)
Record LoopState := {
  feature_data : list VMFeaturePoint;
  collection_count : Z;
  error_count : Z
}.

(** What happens at one pass: the flag and the clock read by the loop
    test, and the synchronized cycle [collect_feature_point] runs. *)
Record PassEnv := {
  pe_active : bool;
  pe_now_loop : Q;
  pe_cycle : CycleEnv
}.

Section Loop.

Variable jiffies_per_second : Z.
Variable self_collection_interval : Q.

(** One pass of the loop body; the sleep that ends it only moves the
    clock. *)
Definition pass (st : LoopState) (e : PassEnv) : LoopState :=
  match collect_feature_point jiffies_per_second self_collection_interval
          (pe_cycle e) with
  | Some point =>
      {| feature_data := feature_data st ++ [point];
         collection_count := (collection_count st + 1)%Z;
         error_count := error_count st |}
  | None =>
      {| feature_data := feature_data st;
         collection_count := collection_count st;
         error_count := (error_count st + 1)%Z |}
  end.

(** [while self.collection_active and (time.time() - start_time) < duration]. *)
Definition loop_test (start_time duration : Q) (e : PassEnv) : bool :=
  pe_active e && Qlt_bool (pe_now_loop e - start_time) duration.

Fixpoint run (start_time duration : Q) (st : LoopState)
    (envs : list PassEnv) : LoopState :=
  match envs with
  | [] => st
  | e :: rest =>
      if loop_test start_time duration e
      then run start_time duration (pass st e) rest
      else st
  end.

(** [collect_vm_features]: the final loop state, whose [feature_data] is
    the returned [self.feature_data]. *)
Definition collect_vm_features (self_feature_data : list VMFeaturePoint)
    (start_time duration : Q) (envs : list PassEnv) : LoopState :=
  run start_time duration
    {| feature_data := self_feature_data;
       collection_count := 0; error_count := 0 |}
    envs.

(** The passes that are executed: those before the first failing loop
    test. *)
Fixpoint executed (start_time duration : Q) (envs : list PassEnv)
    : list PassEnv :=
  match envs with
  | [] => []
  | e :: rest =>
      if loop_test start_time duration e
      then e :: executed start_time duration rest
      else []
  end.

End Loop.

(** Two passes of [short_perf_cycle], then the loop test fails. *)
Definition example_passes : list PassEnv := [
  {| pe_active := true; pe_now_loop := 50; pe_cycle := short_perf_cycle |};
  {| pe_active := true; pe_now_loop := 51; pe_cycle := short_perf_cycle |};
  {| pe_active := true; pe_now_loop := 53; pe_cycle := short_perf_cycle |}
].

End FeatureLoop.

(** ** Proof automation *)

(** Membership in a list of string literals, by computation. *)
Ltac in_list := apply (bool_decide_unpack _); by vm_compute.

(** A list of literals is in ascending order. *)
Ltac ascending :=
  repeat constructor; unfold Qle; simpl; lia.

(** * Properties *)

(** ** Facts about the arithmetic helpers *)

Lemma Qlt_bool_iff (a b : Q) : Qlt_bool a b = true <-> a < b.
Proof.
  unfold Qlt_bool. rewrite negb_true_iff.
  split.
  - intros H. apply Qnot_le_lt. intros Hle.
    apply Qle_bool_iff in Hle. congruence.
  - intros H. destruct (Qle_bool b a) eqn:E; [|reflexivity].
    apply Qle_bool_iff in E. exfalso. apply (Qlt_not_le _ _ H E).
Qed.

Lemma Qle_bool_false_iff (a b : Q) : Qle_bool a b = false <-> b < a.
Proof.
  rewrite <- Qlt_bool_iff. unfold Qlt_bool.
  destruct (Qle_bool a b); simpl; intuition congruence.
Qed.

Lemma py_maxQ_lower (a b : Q) : a <= py_maxQ a b.
Proof.
  unfold py_maxQ. destruct (Qlt_bool a b) eqn:E.
  - apply Qlt_bool_iff in E. lra.
  - lra.
Qed.

Lemma py_maxQ_upper (a b : Q) : b <= py_maxQ a b.
Proof.
  unfold py_maxQ. destruct (Qlt_bool a b) eqn:E.
  - lra.
  - unfold Qlt_bool in E. apply negb_false_iff, Qle_bool_iff in E. lra.
Qed.

(** Folding [min] (resp. [max]) a second time over the same elements does
    not move the result: it is already a lower (upper) bound of them. *)
Lemma list_minQ_le (x : Q) (l : list Q) :
  list_minQ x l <= x /\ Forall (fun y => list_minQ x l <= y) l.
Proof.
  unfold list_minQ. revert x. induction l as [|y l IH]; intros x; simpl.
  - split; [lra | constructor].
  - destruct (IH (py_minQ x y)) as [H1 H2].
    assert (Hm : py_minQ x y <= x /\ py_minQ x y <= y).
    { unfold py_minQ. destruct (Qlt_bool y x) eqn:E.
      - apply Qlt_bool_iff in E. lra.
      - unfold Qlt_bool in E. apply negb_false_iff, Qle_bool_iff in E. lra. }
    split; [lra|]. constructor; [lra | exact H2].
Qed.

Lemma list_maxQ_ge (x : Q) (l : list Q) :
  x <= list_maxQ x l /\ Forall (fun y => y <= list_maxQ x l) l.
Proof.
  unfold list_maxQ. revert x. induction l as [|y l IH]; intros x; simpl.
  - split; [lra | constructor].
  - destruct (IH (py_maxQ x y)) as [H1 H2].
    pose proof (py_maxQ_lower x y). pose proof (py_maxQ_upper x y).
    split; [lra|]. constructor; [lra | exact H2].
Qed.

Lemma list_minQ_absorb (m : Q) (l : list Q) :
  Forall (fun y => m <= y) l -> list_minQ m l = m.
Proof.
  unfold list_minQ. induction 1 as [|y l Hy _ IH]; simpl; [reflexivity|].
  unfold py_minQ at 2.
  destruct (Qlt_bool y m) eqn:E; [|exact IH].
  apply Qlt_bool_iff in E. lra.
Qed.

Lemma list_maxQ_absorb (m : Q) (l : list Q) :
  Forall (fun y => y <= m) l -> list_maxQ m l = m.
Proof.
  unfold list_maxQ. induction 1 as [|y l Hy _ IH]; simpl; [reflexivity|].
  unfold py_maxQ at 2.
  destruct (Qlt_bool m y) eqn:E; [|exact IH].
  apply Qlt_bool_iff in E. lra.
Qed.



(** ** merge_datasets.py *)

Section MergeFacts.

Import Merge.

Variable self : DatasetMerger.

Local Abbreviation within := (Merge.within self).
Local Abbreviation sound_record := (Merge.sound_record self).

(** Whatever the scan returns was either the candidate it started with or
    an element of the scanned suffix that lies within the tolerance, found
    at the returned index. *)
Lemma scan_found target rest i cp cd ci pp idx :
  scan self target rest i cp cd ci = (Some pp, idx) ->
  (cp = Some pp /\ idx = ci) \/
  (exists n : nat, rest !! n = Some pp /\ idx = (i + Z.of_nat n)%Z /\ within target pp).
Proof.
  revert i cp cd ci. induction rest as [|p rest IH]; intros i cp cd ci; simpl.
  - intros [= -> ->]. by left.
  - destruct (Qle_bool _ _ && _) eqn:Hacc.
    + intros H. apply IH in H as [[[= ->] ->] | (n & Hn & -> & Hw)].
      * right. exists 0%nat. apply andb_prop in Hacc as [Hle _].
        apply Qle_bool_iff in Hle. split_and!; [done | lia | done].
      * right. exists (S n). split_and!; [done | lia | done].
    + destruct (Qlt_bool _ _).
      * intros [= -> ->]. by left.
      * intros H. apply IH in H as [[-> ->] | (n & Hn & -> & Hw)]; [by left|].
        right. exists (S n). split_and!; [done | lia | done].
Qed.

(** With no candidate at the start and no label of the suffix within the
    tolerance, the scan finds nothing and returns the starting index. *)
Lemma scan_nothing target rest i ci :
  Forall (fun pp => ~ within target pp) rest ->
  scan self target rest i None None ci = (None, ci).
Proof.
  intros H. revert i. induction H as [|p rest Hp _ IH]; intros i; simpl; [done|].
  destruct (Qle_bool _ _) eqn:Hle.
  - apply Qle_bool_iff in Hle. by destruct Hp.
  - simpl. destruct (Qlt_bool _ _); [done | apply IH].
Qed.

Lemma find_closest_found target start pp idx :
  (0 <= start)%Z ->
  _find_closest_power_point self target start = (Some pp, idx) ->
  bm_data self !! Z.to_nat idx = Some pp /\ (start <= idx)%Z /\ within target pp.
Proof.
  intros Hs H. apply scan_found in H as [[[=] _] | (n & Hn & -> & Hw)].
  rewrite lookup_drop in Hn.
  replace (Z.to_nat (start + Z.of_nat n)) with (Z.to_nat start + n)%nat by lia.
  split_and!; [done | lia | done].
Qed.

Lemma find_closest_within target start pp idx :
  _find_closest_power_point self target start = (Some pp, idx) ->
  pp ∈ bm_data self /\ within target pp.
Proof.
  intros H. apply scan_found in H as [[[=] _] | (n & Hn & -> & Hw)].
  split; [|done]. rewrite lookup_drop in Hn.
  by eapply list_elem_of_lookup_2.
Qed.

Lemma find_closest_nothing target start :
  Forall (fun pp => ~ within target pp) (bm_data self) ->
  _find_closest_power_point self target start = (None, start).
Proof.
  intros H. apply scan_nothing.
  rewrite !list.Forall_forall in *. intros pp Hpp. apply H.
  apply list_elem_of_lookup in Hpp as [n Hn]. rewrite lookup_drop in Hn.
  by eapply list_elem_of_lookup_2.
Qed.

(** The loop body either appends one record built from a label within the
    tolerance whose value passes the filter, or leaves every loop variable
    as it was. *)
Lemma merge_step_cases st vm :
  (exists pp idx,
      _find_closest_power_point self (timestamp vm) (bm_search_start st) = (Some pp, idx)
      /\ Qle_bool (min_power_threshold self) (_get_power_label self pp) = true
      /\ step_outcome self st vm = Accepted
      /\ merge_step self st vm =
         {| ls_merged_data := ls_merged_data st
              ++ [make_merged_point self vm pp (_get_power_label self pp)];
            matched_count := (matched_count st + 1)%Z;
            time_diffs := time_diffs st
              ++ [Qabs (timestamp vm - pp_timestamp pp)];
            power_values := power_values st ++ [_get_power_label self pp];
            bm_search_start := Z.max 0 (idx - 1) |})
  \/ (step_outcome self st vm <> Accepted /\ merge_step self st vm = st).
Proof.
  unfold merge_step, step_outcome.
  destruct (_find_closest_power_point self (timestamp vm) (bm_search_start st))
    as [[pp|] idx] eqn:Hf; simpl.
  - destruct (Qle_bool _ _) eqn:Hthr.
    + left. exists pp, idx. by split_and!.
    + right. by split.
  - right. by split.
Qed.

Lemma make_merged_point_sound vm pp idx start :
  _find_closest_power_point self (timestamp vm) start = (Some pp, idx) ->
  sound_record (make_merged_point self vm pp (_get_power_label self pp)).
Proof.
  intros H. apply find_closest_within in H as [Hin Hw].
  unfold Merge.sound_record, Merge.within, make_merged_point in *.
  cbn [time_diff mp_vm bm_timestamp].
  split_and!; [by rewrite Qabs_Qminus | done | by exists pp].
Qed.

Lemma count_outcome_cons o x l :
  count_outcome o (x :: l)
  = ((if is_outcome o x then 1 else 0) + count_outcome o l)%Z.
Proof. unfold count_outcome. simpl. destruct (is_outcome o x); simpl; lia. Qed.

Lemma count_outcome_total l :
  (count_outcome Accepted l + count_outcome FilteredByValue l
   + count_outcome NoTemporalMatch l)%Z = Z.of_nat (length l).
Proof.
  induction l as [|x l IH]; [done|].
  rewrite !count_outcome_cons. destruct x; simpl length; simpl is_outcome; lia.
Qed.

Lemma outcomes_length st vms : length (outcomes self st vms) = length vms.
Proof.
  revert st. induction vms as [|vm vms IH]; intros st; simpl; [done|].
  by rewrite IH.
Qed.

(** What the whole loop does to the loop variables. *)
Lemma merge_loop_spec vms st :
  exists new,
    ls_merged_data (merge_loop self st vms) = ls_merged_data st ++ new
    /\ Forall sound_record new
    /\ matched_count (merge_loop self st vms)
       = (matched_count st + Z.of_nat (length new))%Z
    /\ Z.of_nat (length new) = count_outcome Accepted (outcomes self st vms)
    /\ time_diffs (merge_loop self st vms) = time_diffs st ++ map time_diff new
    /\ power_values (merge_loop self st vms)
       = power_values st ++ map power_watts new.
Proof.
  revert st. induction vms as [|vm vms IH]; intros st.
  - exists []. simpl. rewrite !app_nil_r. split_and!; (done || lia).
  - cbn [outcomes]. rewrite count_outcome_cons.
    change (merge_loop self st (vm :: vms))
      with (merge_loop self (merge_step self st vm) vms).
    destruct (IH (merge_step self st vm)) as (new & H1 & H2 & H3 & H4 & H5 & H6).
    rewrite H1, H3, H5, H6, <- H4. clear H1 H3 H4 H5 H6.
    destruct (merge_step_cases st vm)
      as [(pp & idx & Hf & Hthr & -> & ->) | [Ho ->]].
    + exists (make_merged_point self vm pp (_get_power_label self pp) :: new).
      cbn [ls_merged_data matched_count time_diffs power_values is_outcome
           length map time_diff power_watts make_merged_point].
      rewrite <- !app_assoc.
      split_and!; try done; try lia.
      constructor; [by eapply make_merged_point_sound | done].
    + exists new. split_and!; try done.
      destruct (step_outcome self st vm); simpl; [done | lia | lia].
Qed.

(** The records produced by a call are the ones its loop appends. *)
Lemma produced_spec :
  merged_data (fst (merge_datasets self)) = merged_data self ++ produced self
  /\ ((vm_data self = [] \/ bm_data self = []) -> produced self = [])
  /\ (vm_data self <> [] -> bm_data self <> [] ->
      ls_merged_data (merge_loop self (loop_start self) (vm_data self))
      = merged_data self ++ produced self).
Proof.
  unfold produced, merge_datasets.
  destruct (merge_loop_spec (vm_data self) (loop_start self)) as (new & H1 & _).
  simpl in H1.
  destruct (vm_data self) as [|v vs] eqn:Hv.
  - simpl. rewrite drop_all, app_nil_r. by split_and!.
  - destruct (bm_data self) as [|b bs] eqn:Hb.
    + simpl. rewrite drop_all, app_nil_r. by split_and!.
    + cbn [fst merged_data]. rewrite H1, drop_app_length.
      split_and!; try done. by intros [|].
Qed.

Lemma produced_sound : Forall sound_record (produced self).
Proof.
  destruct produced_spec as (_ & Hempty & Hloop).
  destruct (vm_data self) as [|v vs] eqn:Hv.
  { rewrite Hempty by (by left). constructor. }
  destruct (bm_data self) as [|b bs] eqn:Hb.
  { rewrite Hempty by (by right). constructor. }
  destruct (merge_loop_spec (vm_data self) (loop_start self)) as (new & H1 & H2 & _).
  rewrite Hv in H1. rewrite Hloop in H1 by done. simpl in H1.
  by apply app_inv_head in H1 as ->.
Qed.

End MergeFacts.

(** *** Running the merge a second time *)

Section MergeRerun.

Import Merge.

Lemma scan_ext a b target rest i cp cd ci :
  time_tolerance a = time_tolerance b ->
  scan a target rest i cp cd ci = scan b target rest i cp cd ci.
Proof.
  intros Ht. revert i cp cd ci.
  induction rest as [|p rest IH]; intros i cp cd ci; simpl; [done|].
  rewrite Ht, !IH. done.
Qed.

Lemma merge_step_ext a b st vm :
  same_config a b -> merge_step a st vm = merge_step b st vm.
Proof.
  intros (Ht & Hp & Hz & Hb).
  unfold merge_step, _find_closest_power_point, make_merged_point, _get_power_label.
  by rewrite (scan_ext a b) , Hb, Hp, Hz.
Qed.

Lemma merge_loop_ext a b vms st :
  same_config a b -> merge_loop a st vms = merge_loop b st vms.
Proof.
  intros H. revert st. induction vms as [|vm vms IH]; intros st; [done|].
  unfold merge_loop in *. simpl. by rewrite (merge_step_ext a b), IH.
Qed.

(** Records already present in front of the list do not influence the
    loop: they are carried along unchanged. *)
Lemma merge_step_prepend self pre st vm :
  merge_step self (prepend pre st) vm = prepend pre (merge_step self st vm).
Proof.
  unfold merge_step. cbn [prepend bm_search_start].
  destruct (_find_closest_power_point self (timestamp vm) (bm_search_start st))
    as [[pp|] idx]; [|done].
  destruct (Qle_bool _ _); [|done].
  unfold prepend. cbn [ls_merged_data matched_count time_diffs power_values
                       bm_search_start].
  by rewrite app_assoc.
Qed.

Lemma merge_loop_prepend self pre vms st :
  merge_loop self (prepend pre st) vms = prepend pre (merge_loop self st vms).
Proof.
  revert st. induction vms as [|vm vms IH]; intros st; [done|].
  unfold merge_loop in *. simpl. by rewrite merge_step_prepend, IH.
Qed.

Lemma loop_start_prepend self :
  loop_start self = prepend (merged_data self) loop_zero.
Proof. unfold loop_start, prepend, loop_zero. simpl. by rewrite app_nil_r. Qed.

(** Appending to a non-empty list elements it already holds changes
    neither its minimum nor its maximum. *)
Lemma range_absorb (d : Q * Q) (T B : list Q) :
  (forall x, x ∈ B -> x ∈ T) ->
  match T ++ B with
  | [] => d
  | t :: ts => (list_minQ t ts, list_maxQ t ts)
  end
  = match T with
    | [] => d
    | t :: ts => (list_minQ t ts, list_maxQ t ts)
    end.
Proof.
  intros Hsub. destruct T as [|t ts].
  - destruct B as [|x B]; [done|].
    specialize (Hsub x). rewrite elem_of_cons, elem_of_nil in Hsub.
    destruct Hsub. by left.
  - simpl. unfold list_minQ, list_maxQ. rewrite !fold_left_app.
    fold (list_minQ t ts) (list_maxQ t ts).
    fold (list_minQ (list_minQ t ts) B) (list_maxQ (list_maxQ t ts) B).
    destruct (list_minQ_le t ts) as [Hm1 Hm2].
    destruct (list_maxQ_ge t ts) as [HM1 HM2].
    rewrite list.Forall_forall in Hm2, HM2.
    rewrite list_minQ_absorb, list_maxQ_absorb; [done| |].
    + apply list.Forall_forall. intros x Hx. apply Hsub in Hx.
      apply elem_of_cons in Hx as [->|Hx]; [done | by apply HM2].
    + apply list.Forall_forall. intros x Hx. apply Hsub in Hx.
      apply elem_of_cons in Hx as [->|Hx]; [done | by apply Hm2].
Qed.

Lemma merge_datasets_loaded self :
  vm_data self <> [] -> bm_data self <> [] ->
  merge_datasets self
  = (merged_object self, Z.ltb 0 (matched_count (pure_loop self))).
Proof.
  intros Hv Hb. unfold merge_datasets, merged_object.
  destruct (vm_data self) as [|v vs] eqn:Ev; [done|].
  destruct (bm_data self) as [|b bs] eqn:Eb; [done|].
  rewrite <- Ev, loop_start_prepend, merge_loop_prepend.
  fold (pure_loop self). done.
Qed.

Lemma merge_datasets_unloaded self :
  vm_data self = [] \/ bm_data self = [] ->
  merge_datasets self = (self, false).
Proof.
  unfold merge_datasets. intros [-> | ->]; [done|].
  by destruct (vm_data self).
Qed.

Lemma pure_loop_merged_object self :
  pure_loop (merged_object self) = pure_loop self.
Proof. unfold pure_loop. cbn [merged_object vm_data]. by apply merge_loop_ext. Qed.

(** The statistics computed by a second run equal those of the first. *)
Lemma update_statistics_rerun self :
  update_statistics (merged_object self)
    (prepend (merged_data (merged_object self)) (pure_loop self))
  = update_statistics self (prepend (merged_data self) (pure_loop self)).
Proof.
  unfold update_statistics at 1.
  cbn [merged_object statistics merged_data vm_data bm_data prepend
       time_diffs power_values matched_count ls_merged_data].
  rewrite <- app_assoc, app_assoc, map_app.
  rewrite (range_absorb _ _ (map (fun p => timestamp (mp_vm p))
             (ls_merged_data (pure_loop self)))).
  2:{ intros x Hx. rewrite map_app. apply elem_of_app. by right. }
  unfold update_statistics.
  cbn [prepend time_diffs power_values matched_count ls_merged_data
       vm_feature_points bm_power_points time_range_vm time_range_bm
       time_range_merged power_range average_time_diff max_time_diff].
  destruct (time_diffs (pure_loop self)), (power_values (pure_loop self)),
    (map _ (merged_data self ++ ls_merged_data (pure_loop self))); done.
Qed.

Lemma produced_loaded self :
  vm_data self <> [] -> bm_data self <> [] ->
  produced self = ls_merged_data (pure_loop self).
Proof.
  intros Hv Hb. unfold produced. rewrite merge_datasets_loaded by done.
  cbn [fst merged_object merged_data]. by rewrite drop_app_length.
Qed.

Lemma produced_unloaded self :
  vm_data self = [] \/ bm_data self = [] -> produced self = [].
Proof.
  intros H. unfold produced. rewrite merge_datasets_unloaded by done.
  apply drop_all.
Qed.

(** The records a call produces depend only on the two input sequences
    and the configuration, not on what the object already holds. *)
Lemma produced_ext a b :
  same_config a b -> vm_data a = vm_data b -> produced a = produced b.
Proof.
  intros Hc Hv. pose proof Hc as (_ & _ & _ & Hb).
  destruct (vm_data a) as [|v vs] eqn:Ea.
  { rewrite !produced_unloaded; auto. }
  destruct (bm_data a) as [|p ps] eqn:Eb.
  { rewrite !produced_unloaded; auto. }
  rewrite !produced_loaded by congruence.
  unfold pure_loop. rewrite <- Hv, ?Ea. by rewrite (merge_loop_ext a b).
Qed.

End MergeRerun.

Section MergeClaims.

Import Merge.



(** C2 (as the code has it).  A feature whose temporal match is discarded
    by the noise floor leaves every loop variable untouched, so no record
    is appended for it; and the statistics have a single counter,
    [unmatched_vm_points], that holds the features filtered by value and
    the features without temporal match together. *)
Theorem C2_filtered_counted_with_unmatched (self : DatasetMerger) :
  vm_data self <> [] -> bm_data self <> [] ->
  let os := outcomes self (loop_start self) (vm_data self) in
  let stats := statistics (fst (merge_datasets self)) in
  (forall st vm, step_outcome self st vm = FilteredByValue ->
     merge_step self st vm = st)
  /\ Z.of_nat (length (produced self)) = count_outcome Accepted os
  /\ matched_points stats = count_outcome Accepted os
  /\ unmatched_vm_points stats
     = (count_outcome FilteredByValue os + count_outcome NoTemporalMatch os)%Z.
Proof.
  intros Hv Hb os stats.
  destruct (produced_spec self) as (_ & _ & Hloop). specialize (Hloop Hv Hb).
  destruct (merge_loop_spec self (vm_data self) (loop_start self))
    as (new & H1 & _ & H3 & H4 & _).
  rewrite Hloop in H1. cbn [loop_start ls_merged_data] in H1.
  apply app_inv_head in H1 as ->.
  assert (Hstats : matched_points stats = count_outcome Accepted os
                   /\ unmatched_vm_points stats
                      = (Z.of_nat (length (vm_data self)) - count_outcome Accepted os)%Z).
  { subst stats os. unfold merge_datasets.
    destruct (vm_data self) as [|v vs] eqn:Ev; [done|].
    destruct (bm_data self) as [|b bs] eqn:Eb; [done|].
    cbn [fst statistics]. unfold update_statistics.
    cbn [matched_points unmatched_vm_points vm_data].
    rewrite H3, <- H4, ?Ev. cbn [loop_start matched_count]. split; lia. }
  destruct Hstats as [Hm Hu]. split_and!; [|done|done|].
  - intros st vm Ho. destruct (merge_step_cases self st vm)
      as [(pp & idx & _ & _ & Ha & _) | [_ Hs]]; [congruence | done].
  - rewrite Hu. pose proof (count_outcome_total os) as Ht.
    subst os. rewrite outcomes_length in Ht. lia.
Qed.

Lemma C2_witness :
  produced (low_power (2 # 10)) = []
  /\ outcomes (low_power (2 # 10)) (loop_start (low_power (2 # 10)))
       (vm_data (low_power (2 # 10))) = [FilteredByValue]
  /\ unmatched_vm_points (statistics (fst (merge_datasets (low_power (2 # 10)))))
     = 1%Z.
Proof.
  destruct (C2_filtered_counted_with_unmatched (low_power (2 # 10)))
    as (_ & Hp & _ & Hu); [done | done |].
  split_and!.
  - apply length_zero_iff_nil. apply Nat2Z.inj. rewrite Hp. reflexivity.
  - reflexivity.
  - rewrite Hu. reflexivity.
Defined.

(** C2 as stated fails: with a 0.01 W noise floor and a 0.002 W label, the
    run in which the label is a temporal match discarded by value and the
    run in which it is no temporal match at all end with the same
    statistics. *)
Lemma C2_counterexample :
  outcomes (low_power (2 # 10)) (loop_start (low_power (2 # 10)))
    (vm_data (low_power (2 # 10))) = [FilteredByValue]
  /\ outcomes (low_power (5 # 100)) (loop_start (low_power (5 # 100)))
       (vm_data (low_power (5 # 100))) = [NoTemporalMatch]
  /\ statistics (fst (merge_datasets (low_power (2 # 10))))
     = statistics (fst (merge_datasets (low_power (5 # 100)))).
Proof. split_and!; reflexivity. Qed.

(** C3 (as the code has it).  The cursor for the next feature becomes
    [max(0, matched_index - 1)] when the feature yields a merged record;
    when the feature has no temporal match, or its match is discarded by
    the noise floor, the cursor keeps its value. *)
Theorem C3_cursor_update (self : DatasetMerger) (st : LoopState) (vm : VMPoint) :
  bm_search_start (merge_step self st vm)
  = match step_outcome self st vm with
    | Accepted =>
        Z.max 0
          (snd (_find_closest_power_point self (timestamp vm) (bm_search_start st)) - 1)
    | FilteredByValue | NoTemporalMatch => bm_search_start st
    end.
Proof.
  destruct (merge_step_cases self st vm)
    as [(pp & idx & Hf & _ & -> & ->) | [Ho ->]].
  - by rewrite Hf.
  - by destruct (step_outcome self st vm).
Qed.

(** C3 as stated fails: after the feature at 1 s the cursor is 1; the
    feature at 5 s has no label within 0.2 s, the search returns index 1,
    and the cursor stays 1 instead of becoming [max(0, 1 - 1) = 0]. *)
Lemma C3_counterexample :
  bm_search_start (merge_loop sparse (loop_start sparse) [feature 1]) = 1%Z
  /\ _find_closest_power_point sparse (timestamp (feature 5)) 1 = (None, 1%Z)
  /\ bm_search_start
       (merge_step sparse (merge_loop sparse (loop_start sparse) [feature 1])
          (feature 5)) = 1%Z
  /\ bm_search_start
       (merge_step sparse (merge_loop sparse (loop_start sparse) [feature 1])
          (feature 5))
     <> Z.max 0 (snd (_find_closest_power_point sparse (timestamp (feature 5)) 1) - 1).
Proof. split_and!; [reflexivity | reflexivity | reflexivity | by vm_compute]. Qed.

(** C10 (as the code has it).  When both inputs are loaded, a call of
    [merge_datasets] sets [unmatched_bm_points] to the number of loaded
    power points, whatever was matched. *)
Theorem C10_unmatched_bm_is_length (self : DatasetMerger) :
  vm_data self <> [] -> bm_data self <> [] ->
  unmatched_bm_points (statistics (fst (merge_datasets self)))
  = Z.of_nat (length (bm_data self)).
Proof.
  intros Hv Hb. unfold merge_datasets.
  destruct (vm_data self) as [|v vs]; [done|].
  destruct (bm_data self) as [|b bs] eqn:Eb; [done|].
  cbn [fst statistics]. unfold update_statistics.
  by rewrite Eb.
Qed.

Lemma C10_witness :
  unmatched_bm_points (statistics (fst (merge_datasets scenario))) = 3%Z
  /\ matched_points (statistics (fst (merge_datasets scenario))) = 2%Z.
Proof.
  split; [|reflexivity].
  by rewrite (C10_unmatched_bm_is_length scenario).
Defined.

(** C10 as stated fails: with power data loaded and no feature data, the
    call returns [False] at its first test and the field keeps its
    default 0 although one power point is loaded. *)
Lemma C10_counterexample :
  snd (merge_datasets no_features) = false
  /\ unmatched_bm_points (statistics (fst (merge_datasets no_features))) = 0%Z
  /\ Z.of_nat (length (bm_data no_features)) = 1%Z.
Proof. split_and!; reflexivity. Qed.

(** C9 (as the code has it).  Running [merge_datasets] again on the
    object the first run left gives the same statistics and the same
    return value, and produces the same records again, which are appended
    after the ones already in [merged_data]; and the records a run
    produces are the same for any object holding the same two input
    sequences, tolerance, noise floor and zone. *)
Theorem C9_rerun (self : DatasetMerger) :
  let first := merge_datasets self in
  let second := merge_datasets (fst first) in
  statistics (fst second) = statistics (fst first)
  /\ snd second = snd first
  /\ produced (fst first) = produced self
  /\ merged_data (fst second) = merged_data (fst first) ++ produced self
  /\ (forall other, same_config other self -> vm_data other = vm_data self ->
        produced other = produced self).
Proof.
  intros first second. subst first second.
  assert (Hfour :
    statistics (fst (merge_datasets (fst (merge_datasets self))))
    = statistics (fst (merge_datasets self))
    /\ snd (merge_datasets (fst (merge_datasets self))) = snd (merge_datasets self)
    /\ produced (fst (merge_datasets self)) = produced self
    /\ merged_data (fst (merge_datasets (fst (merge_datasets self))))
       = merged_data (fst (merge_datasets self)) ++ produced self).
  { assert (Hcase : (vm_data self = [] \/ bm_data self = [])
                    \/ (vm_data self <> [] /\ bm_data self <> [])).
    { destruct (vm_data self); [by left; left|].
      destruct (bm_data self); [by left; right | by right]. }
    destruct Hcase as [Hun | [Hv Hb]].
    { rewrite (merge_datasets_unloaded self Hun). cbn [fst snd].
      rewrite (merge_datasets_unloaded self Hun), (produced_unloaded self Hun),
        app_nil_r.
      by split_and!. }
    assert (Hv' : vm_data (merged_object self) <> []) by done.
    assert (Hb' : bm_data (merged_object self) <> []) by done.
    rewrite (merge_datasets_loaded self) by done. cbn [fst snd].
    rewrite (merge_datasets_loaded (merged_object self)) by done. cbn [fst snd].
    rewrite !produced_loaded by done.
    rewrite !pure_loop_merged_object. split_and!; try done.
    unfold merged_object at 1. cbn [statistics].
    rewrite pure_loop_merged_object. apply update_statistics_rerun. }
  destruct Hfour as (H1 & H2 & H3 & H4).
  split_and!; try done. intros other. apply produced_ext.
Qed.

Lemma C9_witness :
  produced (fst (merge_datasets scenario)) = produced scenario
  /\ length (produced scenario) = 2%nat.
Proof.
  split; [|reflexivity].
  destruct (C9_rerun scenario) as (_ & _ & _ & _ & H).
  by apply (H (fst (merge_datasets scenario))).
Defined.

(** C9 as stated fails on the record sequence: the second run on the same
    object leaves four records in [merged_data] where the first run left
    two. *)
Lemma C9_counterexample :
  length (merged_data (fst (merge_datasets scenario))) = 2%nat
  /\ length (merged_data (fst (merge_datasets (fst (merge_datasets scenario)))))
     = 4%nat
  /\ merged_data (fst (merge_datasets (fst (merge_datasets scenario))))
     <> merged_data (fst (merge_datasets scenario)).
Proof.
  split_and!; [reflexivity | reflexivity |].
  intros H. apply (f_equal length) in H. vm_compute in H. discriminate.
Qed.

End MergeClaims.

(** ** bm_power_collector.py *)

Section PowerFacts.

Import Power.

Variable parse : string -> ZoneMetrics.
Variable self : Collector.

(** A sample that comes back carries the requested timestamp as its
    absolute time, and that timestamp minus the collection start as its
    relative time. *)
Lemma attempts_timestamp responses target remaining attempt dp :
  attempts parse self responses target remaining attempt = Some dp ->
  timestamp_absolute dp = target
  /\ exists start, collection_start_time self = Some start
                   /\ timestamp dp = target - start.
Proof.
  revert attempt. induction remaining as [|n IH]; intros attempt; simpl; [done|].
  destruct (responses attempt); [| |done].
  - unfold build_data_point.
    destruct (collection_start_time self) as [start|]; simpl; [|done].
    intros [= <-]. simpl. split; [done|]. by exists start.
  - destruct (_ <? _)%nat; [apply IH | done].
Qed.

(** Every pass of the loop body adds exactly one to [collection_count],
    whether a sample came back or not. *)
Lemma cycle_count start st e :
  collection_count (cycle parse self start st e) = (collection_count st + 1)%Z.
Proof. unfold cycle. by destruct (collect_power_metrics_with_timestamp _ _ _ _). Qed.

Lemma cycle_power_data start st e (n : nat) :
  collection_count st = Z.of_nat n ->
  ls_power_data (cycle parse self start st e)
  = ls_power_data st ++ option_list (cycle_sample parse self start n e).
Proof.
  intros Hn. unfold cycle, cycle_sample, target_time. rewrite Hn.
  destruct (collect_power_metrics_with_timestamp _ _ _ _); simpl; [done|].
  by rewrite app_nil_r.
Qed.

Lemma run_spec start duration envs st (n : nat) :
  collection_count st = Z.of_nat n ->
  let cycles := executed start duration envs in
  collection_count (run parse self start duration st envs)
  = Z.of_nat (n + length cycles)
  /\ ls_power_data (run parse self start duration st envs)
     = ls_power_data st
       ++ omap id (imap (fun k => cycle_sample parse self start (n + k)) cycles).
Proof.
  revert st n. induction envs as [|e envs IH]; intros st n Hn; simpl.
  - rewrite app_nil_r. split; [lia | done].
  - destruct (loop_test start duration e); simpl.
    + destruct (IH (cycle parse self start st e) (S n)) as [H1 H2].
      { rewrite cycle_count. lia. }
      rewrite H1, H2, (cycle_power_data _ _ _ n) by done.
      split; [lia|]. rewrite <- app_assoc. f_equal.
      replace (n + 0)%nat with n by lia.
      destruct (cycle_sample parse self start n e); simpl; [f_equal|];
        f_equal; apply imap_ext; intros; simpl; f_equal; lia.
    + rewrite app_nil_r. split; [lia | done].
Qed.

Lemma executed_take start duration envs (k : nat) :
  (k <= length (executed start duration envs))%nat ->
  executed start duration (take k envs) = take k (executed start duration envs).
Proof.
  revert k. induction envs as [|e envs IH]; intros k Hk.
  - simpl. by rewrite !take_nil.
  - destruct k as [|k]; [done|]. simpl in *.
    destruct (loop_test start duration e); simpl in *; [|lia].
    rewrite IH by lia. done.
Qed.

End PowerFacts.

Section PowerClaims.

Import Power.

(** C4.  The [k]-th pass of the loop of [collect_power_data] computes the
    target time [start_time + k * collection_interval], whatever the
    clock read and whether or not earlier passes produced a sample; the
    samples returned are, in order, those the executed passes ask for at
    these target times; and each sample carries its target time as
    absolute timestamp and the target time minus the start as relative
    timestamp.  No clock reading enters the sample. *)
Theorem C4_schedule_anchored (parse : string -> ZoneMetrics)
    (self : Collector) (now duration : Q) (envs : list CycleEnv) :
  let start := _wait_for_sync_start self now in
  let self' := set_start self start in
  let interval := c_collection_interval self in
  let st0 := {| ls_power_data := power_data self;
                collection_count := 0; error_count := 0 |} in
  let cycles := executed start duration envs in
  (forall k : nat, (k <= length cycles)%nat ->
     target_time self' start (run parse self' start duration st0 (take k envs))
     = start + inject_Z (Z.of_nat k) * interval)
  /\ ls_power_data (collect_power_data parse self now duration envs)
     = power_data self ++ omap id (imap (cycle_sample parse self' start) cycles)
  /\ (forall (k : nat) e dp, cycles !! k = Some e ->
        cycle_sample parse self' start k e = Some dp ->
        timestamp_absolute dp = start + inject_Z (Z.of_nat k) * interval
        /\ timestamp dp = start + inject_Z (Z.of_nat k) * interval - start
        /\ timestamp dp == inject_Z (Z.of_nat k) * interval).
Proof.
  intros start self' interval st0 cycles. split_and!.
  - intros k Hk. unfold target_time.
    destruct (run_spec parse self' start duration (take k envs) st0 0
                eq_refl) as [H _].
    rewrite H, executed_take by done.
    fold cycles. rewrite length_take. do 3 f_equal. lia.
  - unfold collect_power_data. fold start self'.
    destruct (run_spec parse self' start duration envs
                {| ls_power_data := power_data self';
                   collection_count := 0; error_count := 0 |} 0 eq_refl)
      as [_ H].
    rewrite H. done.
  - intros k e dp _ Hdp. unfold cycle_sample in Hdp.
    apply attempts_timestamp in Hdp as (Ha & s & Hs & Hr).
    cbn in Hs. injection Hs as <-.
    fold interval in Ha, Hr. rewrite Ha, Hr. split_and!; try done.
    unfold Qminus. rewrite (Qplus_comm start), <- Qplus_assoc, Qplus_opp_r.
    apply Qplus_0_r.
Qed.

Lemma C4_witness :
  map timestamp_absolute
    (ls_power_data (collect_power_data example_parse example_collector
                      100 5 example_envs))
  = [100 + inject_Z 0 * (1 # 10); 100 + inject_Z 2 * (1 # 10)]
  /\ (forall dp,
        cycle_sample example_parse (set_start example_collector 100) 100 2
          {| ce_active := true; ce_now_loop := 1034 # 10;
             ce_now_cycle := 1034 # 10; ce_responses := fun _ => Ok "" |}
        = Some dp ->
        timestamp dp == inject_Z 2 * (1 # 10)).
Proof.
  destruct (C4_schedule_anchored example_parse example_collector 100 5
              example_envs) as (_ & Hdata & Hts).
  split.
  - rewrite Hdata. reflexivity.
  - intros dp Hdp. eapply (Hts 2%nat); [reflexivity | exact Hdp].
Defined.

End PowerClaims.

(** ** vm_feature_collector.py *)

Section FeatureFacts.

Import Features.

Lemma py_truediv_ok (a b : Q) : ~ b == 0 -> py_truediv a b = Some (a / b).
Proof.
  intros Hb. unfold py_truediv. destruct (Qeq_bool b 0) eqn:E; [|done].
  apply Qeq_bool_iff in E. contradiction.
Qed.

Lemma inject_Z_nonzero (z : Z) : z <> 0%Z -> ~ inject_Z z == 0.
Proof. intros Hz H. unfold Qeq in H. simpl in H. lia. Qed.

(** The guard of a derived ratio makes its division total. *)
Lemma guarded_ratio_spec (pmc_data : gmap string Z) (num den : string) :
  guarded_ratio pmc_data num den
  = Some (if (0 <? getZ pmc_data den)%Z
          then inject_Z (getZ pmc_data num) / inject_Z (getZ pmc_data den)
          else 0).
Proof.
  unfold guarded_ratio. destruct (0 <? getZ pmc_data den)%Z eqn:E; [|done].
  apply Z.ltb_lt in E. unfold getZ in *.
  destruct (pmc_data !! den) as [d|]; simpl in *; [|lia].
  apply py_truediv_ok, inject_Z_nonzero. lia.
Qed.

Lemma calculate_derived_features_spec (pmc_data : gmap string Z)
    (os_data : gmap string Q) :
  exists derived,
    calculate_derived_features pmc_data os_data = Some derived
    /\ derived !! "instructions_per_cycle"
       = guarded_ratio pmc_data "instructions" "cpu_cycles"
    /\ derived !! "cache_miss_ratio"
       = guarded_ratio pmc_data "cache_misses" "cache_references"
    /\ derived !! "branch_miss_ratio"
       = guarded_ratio pmc_data "branch_misses" "branches".
Proof.
  unfold calculate_derived_features.
  rewrite !guarded_ratio_spec. cbn [mbind option_bind].
  rewrite py_truediv_ok by done. cbn [mbind option_bind].
  eexists. split; [done|].
  split_and!; by simplify_map_eq.
Qed.

(** The clock read for T1 is at least one interval after T0, up to the
    amount by which the wake-up may come early. *)
Lemma t1_of_window (interval eps : Q) (e : CycleEnv) :
  - eps <= ce_wake_delay e ->
  interval - eps <= t1_of interval e - ce_t0 e.
Proof.
  intros Hd. unfold t1_of.
  destruct (Qlt_bool _ _) eqn:E.
  - lra.
  - unfold Qlt_bool in E. apply negb_false_iff, Qle_bool_iff in E. lra.
Qed.

(** *** Running a [try] block *)

Lemma bind_ok {A B} (m : Try A) (k : A -> Try B) d d' a :
  m d = (d', Some a) -> (m ≫= k) d = k a d'.
Proof. intros H. unfold mbind, try_bind. by rewrite H. Qed.

Lemma bind_fail {A B} (m : Try A) (k : A -> Try B) d d' :
  m d = (d', None) -> (m ≫= k) d = (d', None).
Proof. intros H. unfold mbind, try_bind. by rewrite H. Qed.

Section ProcStat.

Variable jps : Z.
Variables prev_cpu curr_cpu : gmap string Z.

Local Abbreviation seconds_of := (Features.seconds_of jps prev_cpu curr_cpu).
Local Abbreviation cpu_deltas_of := (Features.cpu_deltas_of jps prev_cpu curr_cpu).
Local Abbreviation total_of := (Features.total_of prev_cpu curr_cpu).
Local Abbreviation delta_jiffies := (Features.delta_jiffies prev_cpu curr_cpu).

Lemma delta_jiffies_nonneg f : (0 <= delta_jiffies f)%Z.
Proof. unfold Features.delta_jiffies. lia. Qed.

Lemma cpu_loop_ok fields cd td d :
  jps <> 0%Z ->
  cpu_loop jps prev_cpu curr_cpu fields cd td d
  = (d, Some (cpu_deltas_of fields cd, total_of fields td)).
Proof.
  intros Hj. revert cd td. induction fields as [|f fields IH]; intros cd td.
  - done.
  - cbn [cpu_loop]. erewrite bind_ok.
    2:{ unfold must. rewrite py_truediv_ok by by apply inject_Z_nonzero. done. }
    apply IH.
Qed.

Lemma cpu_loop_fail f fields cd td d :
  jps = 0%Z ->
  cpu_loop jps prev_cpu curr_cpu (f :: fields) cd td d = (d, None).
Proof. intros ->. cbn [cpu_loop]. by erewrite bind_fail. Qed.

Lemma cpu_deltas_of_notin fields cd f :
  f ∉ fields -> cpu_deltas_of fields cd !! f = cd !! f.
Proof.
  revert cd. induction fields as [|g fields IH]; intros cd Hf; [done|].
  apply not_elem_of_cons in Hf as [Hne Hf].
  unfold Features.cpu_deltas_of in *. simpl. rewrite IH by done.
  by apply lookup_insert_ne.
Qed.

Lemma cpu_deltas_of_lookup fields cd f :
  f ∈ fields -> cpu_deltas_of fields cd !! f = Some (seconds_of f).
Proof.
  revert cd. induction fields as [|g fields IH]; intros cd Hf.
  - by apply elem_of_nil in Hf.
  - destruct (decide (f ∈ fields)) as [Hin|Hout].
    + unfold Features.cpu_deltas_of in *. simpl. by apply IH.
    + apply elem_of_cons in Hf as [->|?]; [|done].
      change (cpu_deltas_of (g :: fields) cd)
        with (cpu_deltas_of fields (<[g := seconds_of g]> cd)).
      rewrite cpu_deltas_of_notin by done. apply lookup_insert_eq.
Qed.

Lemma total_of_mono fields td : (td <= total_of fields td)%Z.
Proof.
  revert td. induction fields as [|g fields IH]; intros td; [done|].
  unfold Features.total_of in *. simpl.
  etrans; [|apply IH]. pose proof (delta_jiffies_nonneg g). lia.
Qed.

Lemma total_of_bound fields td f :
  f ∈ fields -> (0 <= td)%Z -> (delta_jiffies f <= total_of fields td)%Z.
Proof.
  revert td. induction fields as [|g fields IH]; intros td Hf Htd.
  - by apply elem_of_nil in Hf.
  - change (total_of (g :: fields) td)
      with (total_of fields (td + delta_jiffies g)).
    pose proof (delta_jiffies_nonneg g).
    apply elem_of_cons in Hf as [->|Hf].
    + etrans; [|apply total_of_mono]. lia.
    + apply IH; [done | lia].
Qed.

Lemma percent_loop_ok cd total fields d :
  total <> 0%Z ->
  (forall f, f ∈ fields -> is_Some (cd !! f)) ->
  exists d',
    percent_loop jps cd total fields d = (d', Some tt)
    /\ forall key,
         (forall f, f ∈ fields -> "sys_cpu_" +:+ f +:+ "_percent" <> key) ->
         d' !! key = d !! key.
Proof.
  intros Ht. revert d. induction fields as [|f fields IH]; intros d Hcd.
  - exists d. by split.
  - destruct (Hcd f) as [x Hx]; [by left|].
    destruct (IH (<["sys_cpu_" +:+ f +:+ "_percent"
                    := x * inject_Z jps / inject_Z total * 100]> d))
      as (d' & Hrun & Hkeep).
    { intros g Hg. apply Hcd. by right. }
    exists d'. split.
    + cbn [percent_loop]. erewrite bind_ok; [|unfold must; by rewrite Hx].
      erewrite bind_ok.
      2:{ unfold must. rewrite py_truediv_ok by by apply inject_Z_nonzero. done. }
      erewrite bind_ok; [|done]. exact Hrun.
    + intros key Hkey. rewrite Hkeep.
      * apply lookup_insert_ne. apply Hkey. by left.
      * intros g Hg. apply Hkey. by right.
Qed.

Lemma cpu_field_keys (key : string) :
  key ∈ ["sys_cpu_utilization"; "sys_cpu_user_seconds";
         "sys_cpu_system_seconds"; "sys_cpu_total_seconds"] ->
  forall f, f ∈ cpu_fields -> "sys_cpu_" +:+ f +:+ "_percent" <> key.
Proof.
  intros Hkey f Hf. unfold cpu_fields in Hf.
  repeat (apply elem_of_cons in Hkey as [->|Hkey]);
    try (by apply elem_of_nil in Hkey);
    repeat (apply elem_of_cons in Hf as [->|Hf]);
    try (by apply elem_of_nil in Hf); done.
Qed.

Lemma cpu_fields_lookup cd f :
  f ∈ cpu_fields -> cpu_deltas_of cpu_fields cd !! f = Some (seconds_of f).
Proof. apply cpu_deltas_of_lookup. Qed.

(** With a non-zero tick rate the CPU block runs to its end and leaves the
    utilization and the CPU-time deltas in the dictionary. *)
Lemma cpu_block_ok d :
  jps <> 0%Z ->
  exists d',
    cpu_block jps prev_cpu curr_cpu d = (d', Some tt)
    /\ d' !! "sys_cpu_utilization"
       = Some (Features.utilization_of jps prev_cpu curr_cpu)
    /\ d' !! "sys_cpu_user_seconds" = Some (seconds_of "user")
    /\ d' !! "sys_cpu_system_seconds" = Some (seconds_of "system").
Proof.
  intros Hj. unfold cpu_block, Features.utilization_of.
  erewrite bind_ok; [|by apply cpu_loop_ok]. cbv beta iota.
  do 8 (erewrite bind_ok;
          [|first [done
                  |unfold must; rewrite cpu_fields_lookup; [done|set_solver]]]).
  destruct (0 <? total_of cpu_fields 0)%Z eqn:Ht.
  - apply Z.ltb_lt in Ht.
    erewrite bind_ok.
    2:{ erewrite bind_ok;
          [|unfold must; rewrite cpu_fields_lookup; [done|set_solver]].
        erewrite bind_ok.
        2:{ unfold must. rewrite py_truediv_ok; [done|].
            apply inject_Z_nonzero. lia. }
        done. }
    match goal with |- context [percent_loop _ _ _ _ ?d0] =>
      destruct (percent_loop_ok (cpu_deltas_of cpu_fields ∅)
                  (total_of cpu_fields 0) cpu_fields d0)
        as (d' & Hrun & Hkeep) end.
    { lia. }
    { intros f Hf. rewrite cpu_fields_lookup by done. by eexists. }
    exists d'. split; [exact Hrun|].
    split_and!; (rewrite Hkeep; [by simplify_map_eq | apply cpu_field_keys; set_solver]).
  - erewrite bind_ok; [|done]. eexists. split; [done|].
    split_and!; by simplify_map_eq.
Qed.

Lemma cpu_block_fail d :
  jps = 0%Z -> cpu_block jps prev_cpu curr_cpu d = (d, None).
Proof.
  intros Hj. unfold cpu_block, cpu_fields.
  erewrite bind_fail; [done|]. by apply cpu_loop_fail.
Qed.

(** The utilization lies between 0 and 100, and is 0 when no tick
    elapsed. *)
Lemma utilization_of_range :
  jps <> 0%Z ->
  0 <= Features.utilization_of jps prev_cpu curr_cpu <= 100
  /\ (total_of cpu_fields 0 = 0%Z ->
      Features.utilization_of jps prev_cpu curr_cpu = 0).
Proof.
  intros Hj. unfold Features.utilization_of.
  pose proof (total_of_bound cpu_fields 0 "idle") as Hidle.
  pose proof (delta_jiffies_nonneg "idle") as Hnn.
  destruct (0 <? total_of cpu_fields 0)%Z eqn:Ht.
  - apply Z.ltb_lt in Ht. split; [|lia].
    set (T := total_of cpu_fields 0) in *.
    set (I := delta_jiffies "idle") in *.
    assert (HI : (I <= T)%Z) by (apply Hidle; [set_solver | lia]).
    assert (Hsec : seconds_of "idle" * inject_Z jps == inject_Z I).
    { unfold Features.seconds_of. fold I. field. by apply inject_Z_nonzero. }
    assert (HT : 0 < inject_Z T) by (rewrite <- (Zlt_Qlt 0); lia).
    assert (HI0 : 0 <= inject_Z I) by (rewrite <- (Zle_Qle 0); lia).
    assert (HIT : inject_Z I <= inject_Z T) by (by rewrite <- Zle_Qle).
    rewrite Hsec.
    assert (Hq : 0 <= (inject_Z T - inject_Z I) / inject_Z T <= 1).
    { split.
      - apply Qle_shift_div_l; [done|]. lra.
      - apply Qle_shift_div_r; [done|]. lra. }
    lra.
  - split; [lra | done].
Qed.

End ProcStat.

(** *** The /proc/stat deltas *)

Section ProcStatDeltas.

Variable jps : Z.
Variables prev_stat curr_stat : ProcStat.
Variable time_delta : Q.

Local Abbreviation prev_cpu := (default ∅ (ps_cpu prev_stat)).
Local Abbreviation curr_cpu := (default ∅ (ps_cpu curr_stat)).
Local Abbreviation deltas :=
  (_compute_proc_stat_deltas jps prev_stat curr_stat time_delta).

Hypothesis Hprev : stat_nonempty prev_stat = true.
Hypothesis Hcurr : stat_nonempty curr_stat = true.

Lemma proc_stat_deltas_unfold :
  deltas = run_try (proc_stat_body jps prev_stat curr_stat).
Proof. unfold _compute_proc_stat_deltas. by rewrite Hprev, Hcurr. Qed.

(** When the CPU block is skipped, or runs with a non-zero tick rate, the
    counters that follow it are stored. *)
Lemma proc_stat_deltas_counters :
  jps <> 0%Z \/ nonempty prev_cpu && nonempty curr_cpu = false ->
  deltas !! "sys_context_switches"
  = Some (inject_Z (Z.max 0 (default 0%Z (ps_context_switches curr_stat)
                             - default 0%Z (ps_context_switches prev_stat))))
  /\ deltas !! "sys_processes_created"
     = Some (inject_Z (Z.max 0 (default 0%Z (ps_processes_created curr_stat)
                                - default 0%Z (ps_processes_created prev_stat)))).
Proof.
  intros Hok. rewrite proc_stat_deltas_unfold.
  unfold run_try, proc_stat_body.
  destruct (nonempty prev_cpu && nonempty curr_cpu) eqn:Hne.
  - destruct Hok as [Hj|]; [|done].
    destruct (cpu_block_ok jps prev_cpu curr_cpu ∅ Hj) as (d' & Hrun & _).
    erewrite bind_ok; [|exact Hrun].
    do 3 (erewrite bind_ok; [|done]). unfold store. cbn [fst].
    split; by simplify_map_eq.
  - erewrite bind_ok; [|done].
    do 3 (erewrite bind_ok; [|done]). unfold store. cbn [fst].
    split; by simplify_map_eq.
Qed.

(** When both [cpu] lines are present and the tick rate is non-zero, the
    utilization and the CPU-time deltas are stored. *)
Lemma proc_stat_deltas_cpu :
  jps <> 0%Z -> nonempty prev_cpu && nonempty curr_cpu = true ->
  deltas !! "sys_cpu_utilization" = Some (utilization_of jps prev_cpu curr_cpu)
  /\ deltas !! "sys_cpu_user_seconds"
     = Some (seconds_of jps prev_cpu curr_cpu "user")
  /\ deltas !! "sys_cpu_system_seconds"
     = Some (seconds_of jps prev_cpu curr_cpu "system").
Proof.
  intros Hj Hne. rewrite proc_stat_deltas_unfold.
  unfold run_try, proc_stat_body. rewrite Hne.
  destruct (cpu_block_ok jps prev_cpu curr_cpu ∅ Hj) as (d' & Hrun & H1 & H2 & H3).
  erewrite bind_ok; [|exact Hrun].
  do 3 (erewrite bind_ok; [|done]). unfold store. cbn [fst].
  split_and!; by simplify_map_eq.
Qed.

End ProcStatDeltas.

(** Whenever [sys_cpu_utilization] is present in the result, it is the
    closed-form utilization and the tick rate is non-zero. *)
Lemma proc_stat_utilization_inv jps prev_stat curr_stat time_delta u :
  _compute_proc_stat_deltas jps prev_stat curr_stat time_delta
    !! "sys_cpu_utilization" = Some u ->
  jps <> 0%Z
  /\ u = utilization_of jps (default ∅ (ps_cpu prev_stat))
           (default ∅ (ps_cpu curr_stat)).
Proof.
  unfold _compute_proc_stat_deltas.
  destruct (stat_nonempty prev_stat) eqn:Hp; [|done].
  destruct (stat_nonempty curr_stat) eqn:Hc; [|done].
  cbn [negb orb].
  destruct (nonempty (default ∅ (ps_cpu prev_stat))
            && nonempty (default ∅ (ps_cpu curr_stat))) eqn:Hne.
  - destruct (decide (jps = 0%Z)) as [Hj|Hj].
    + unfold run_try, proc_stat_body. rewrite Hne.
      erewrite bind_fail; [|by apply cpu_block_fail]. done.
    + destruct (proc_stat_deltas_cpu jps prev_stat curr_stat time_delta
                  Hp Hc Hj Hne) as (H & _).
      unfold _compute_proc_stat_deltas in H. rewrite Hp, Hc in H.
      cbn [negb orb] in H. rewrite H. by intros [= <-].
  - unfold run_try, proc_stat_body. rewrite Hne.
    erewrite bind_ok; [|done].
    do 3 (erewrite bind_ok; [|done]). unfold store. cbn [fst].
    by simplify_map_eq.
Qed.

(** *** The OS snapshot metrics *)

Lemma first_nonzero_nonzero (a b : Q) : ~ first_nonzero a b 1 == 0.
Proof.
  unfold first_nonzero.
  destruct (Qeq_bool a 0) eqn:Ea; simpl.
  - destruct (Qeq_bool b 0) eqn:Eb; simpl; [done|].
    apply Qeq_bool_neq in Eb. exact Eb.
  - apply Qeq_bool_neq in Ea. exact Ea.
Qed.

Lemma os_delta_nonneg t0 t1 k : 0 <= os_delta t0 t1 k.
Proof. apply py_maxQ_lower. Qed.

Lemma os_percent_loop_ok t0 t1 total keys d :
  ~ total == 0 ->
  os_percent_loop t0 t1 total keys d
  = (os_percents t0 t1 total keys d, Some tt).
Proof.
  intros Ht. revert d. induction keys as [|k keys IH]; intros d; [done|].
  cbn [os_percent_loop].
  erewrite bind_ok; [|unfold must; by rewrite py_truediv_ok].
  erewrite bind_ok; [|done]. apply IH.
Qed.

Lemma os_percents_idle t0 t1 total d :
  getQ (os_percents t0 t1 total cpu_fields d) "cpu_idle"
  = os_delta t0 t1 "idle" / total * 100.
Proof.
  unfold os_percents, cpu_fields, getQ. cbn [fold_left].
  change (metrics_map "user") with "cpu_user_time".
  change (metrics_map "nice") with "cpu_nice_time".
  change (metrics_map "system") with "cpu_system_time".
  change (metrics_map "idle") with "cpu_idle".
  change (metrics_map "iowait") with "cpu_iowait".
  change (metrics_map "irq") with "cpu_irq".
  change (metrics_map "softirq") with "cpu_softirq".
  change (metrics_map "steal") with "cpu_steal".
  by simplify_map_eq.
Qed.

(** The block never raises; the keys it stores after the percentages. *)
Lemma os_metrics_lookup snap0 snap1 time_delta :
  let metrics := _compute_os_metrics_from_snapshots snap0 snap1 time_delta in
  let t0 := default ∅ (cpu_times snap0) in
  let t1 := default ∅ (cpu_times snap1) in
  let d0 := default ∅ (disk_io snap0) in
  let d1 := default ∅ (disk_io snap1) in
  let n0 := default ∅ (net_io snap0) in
  let n1 := default ∅ (net_io snap1) in
  snd (os_metrics_body snap0 snap1 time_delta ∅) = Some tt
  /\ metrics !! "cpu_utilization" = Some (os_utilization_of t0 t1 time_delta)
  /\ metrics !! "disk_io_read_mb"
     = Some (inject_Z (Z.max 0 (getZ d1 "read_bytes" - getZ d0 "read_bytes")) / mib)
  /\ metrics !! "disk_io_write_mb"
     = Some (inject_Z (Z.max 0 (getZ d1 "write_bytes" - getZ d0 "write_bytes")) / mib)
  /\ metrics !! "network_bytes_sent"
     = Some (inject_Z (Z.max 0 (getZ n1 "bytes_sent" - getZ n0 "bytes_sent")))
  /\ metrics !! "network_bytes_recv"
     = Some (inject_Z (Z.max 0 (getZ n1 "bytes_recv" - getZ n0 "bytes_recv"))).
Proof.
  intros metrics t0 t1 d0 d1 n0 n1. subst metrics.
  unfold _compute_os_metrics_from_snapshots, run_try, os_metrics_body.
  fold t0 t1 d0 d1 n0 n1.
  erewrite bind_ok;
    [|apply os_percent_loop_ok, first_nonzero_nonzero].
  cbv zeta.
  erewrite bind_ok; [|unfold load_key; reflexivity].
  rewrite os_percents_idle. fold (os_utilization_of t0 t1 time_delta).
  erewrite bind_ok; [|done].
  assert (Hmib : ~ mib == 0) by (by apply inject_Z_nonzero).
  erewrite bind_ok; [|unfold must; by rewrite py_truediv_ok].
  erewrite bind_ok; [|unfold must; by rewrite py_truediv_ok].
  do 9 (erewrite bind_ok; [|done]).
  unfold store. cbn [fst snd].
  split_and!; by simplify_map_eq.
Qed.

Lemma os_percents_lookup t0 t1 total d k :
  k ∈ cpu_fields ->
  os_percents t0 t1 total cpu_fields d !! metrics_map k
  = Some (os_delta t0 t1 k / total * 100).
Proof.
  intros Hk. unfold cpu_fields in Hk.
  unfold os_percents, cpu_fields. cbn [fold_left].
  repeat (apply elem_of_cons in Hk as [-> | Hk]);
    try (by apply elem_of_nil in Hk);
    change (metrics_map "user") with "cpu_user_time";
    change (metrics_map "nice") with "cpu_nice_time";
    change (metrics_map "system") with "cpu_system_time";
    change (metrics_map "idle") with "cpu_idle";
    change (metrics_map "iowait") with "cpu_iowait";
    change (metrics_map "irq") with "cpu_irq";
    change (metrics_map "softirq") with "cpu_softirq";
    change (metrics_map "steal") with "cpu_steal";
    by simplify_map_eq.
Qed.

Lemma metrics_map_other key k :
  key ∈ ["cpu_utilization"; "disk_io_read_mb"; "disk_io_write_mb";
         "network_bytes_sent"; "network_bytes_recv"; "memory_usage_percent";
         "memory_available_gb"; "process_count"; "load_average_1min";
         "load_average_5min"; "load_average_15min"] ->
  k ∈ cpu_fields -> key <> metrics_map k.
Proof.
  unfold cpu_fields. intros Hkey Hk.
  repeat (apply elem_of_cons in Hkey as [-> | Hkey]);
    try (by apply elem_of_nil in Hkey);
    repeat (apply elem_of_cons in Hk as [-> | Hk]);
    try (by apply elem_of_nil in Hk);
    (intros H; vm_compute in H; discriminate).
Qed.

(** The percentages survive the rest of the block: under the key of each
    CPU state the result holds the clamped CPU-time delta of that state,
    divided by [total] and multiplied by 100. *)
Lemma os_metrics_percent snap0 snap1 time_delta k :
  k ∈ cpu_fields ->
  _compute_os_metrics_from_snapshots snap0 snap1 time_delta !! metrics_map k
  = Some (os_delta (default ∅ (cpu_times snap0)) (default ∅ (cpu_times snap1)) k
          / os_total (default ∅ (cpu_times snap0))
              (default ∅ (cpu_times snap1)) time_delta
          * 100).
Proof.
  intros Hk.
  unfold _compute_os_metrics_from_snapshots, run_try, os_metrics_body.
  erewrite bind_ok;
    [|apply os_percent_loop_ok, first_nonzero_nonzero].
  cbv zeta.
  erewrite bind_ok; [|unfold load_key; reflexivity].
  erewrite bind_ok; [|done].
  assert (Hmib : ~ mib == 0) by (by apply inject_Z_nonzero).
  erewrite bind_ok; [|unfold must; by rewrite py_truediv_ok].
  erewrite bind_ok; [|unfold must; by rewrite py_truediv_ok].
  do 9 (erewrite bind_ok; [|done]).
  unfold store. cbn [fst].
  rewrite !lookup_insert_ne
    by (apply metrics_map_other;
        [apply (bool_decide_unpack _); by vm_compute | done]).
  by apply os_percents_lookup.
Qed.

Lemma sumQ_bound (l : list Q) (acc : Q) :
  Forall (fun x => 0 <= x) l ->
  acc <= fold_left Qplus l acc
  /\ Forall (fun x => x <= fold_left Qplus l acc - acc) l.
Proof.
  intros H. revert acc. induction H as [|x l Hx _ IH]; intros acc; simpl.
  - split; [lra | constructor].
  - destruct (IH (acc + x)) as [H1 H2]. split; [lra|].
    constructor; [lra|].
    eapply Forall_impl; [exact H2|]. simpl. intros y Hy. lra.
Qed.

(** The OS-snapshot utilization lies between 0 and 100; it is 100 when no
    CPU time elapsed between the snapshots. *)
Lemma os_utilization_of_range t0 t1 time_delta :
  0 <= os_utilization_of t0 t1 time_delta <= 100
  /\ (sumQ (map (os_delta t0 t1) cpu_fields) == 0 ->
      os_utilization_of t0 t1 time_delta == 100).
Proof.
  unfold os_utilization_of, os_total.
  set (S := sumQ (map (os_delta t0 t1) cpu_fields)).
  set (I := os_delta t0 t1 "idle").
  assert (HI0 : 0 <= I) by apply os_delta_nonneg.
  assert (HIS : I <= S /\ 0 <= S).
  { destruct (sumQ_bound (map (os_delta t0 t1) cpu_fields) 0) as [H1 H2].
    { apply list.Forall_forall. intros x Hx.
      apply list_elem_of_fmap in Hx as (k & -> & _). apply os_delta_nonneg. }
    fold (sumQ (map (os_delta t0 t1) cpu_fields)) in H1, H2. fold S in H1, H2.
    split; [|done]. rewrite list.Forall_forall in H2.
    assert (Hin : I ∈ map (os_delta t0 t1) cpu_fields).
    { apply list_elem_of_fmap. exists "idle". split; [done | set_solver]. }
    specialize (H2 I Hin). lra. }
  destruct HIS as [HIS HS0].
  unfold first_nonzero. destruct (Qeq_bool S 0) eqn:ES; simpl.
  - apply Qeq_bool_iff in ES.
    assert (HIz : I == 0) by lra.
    assert (Hz : forall t, I / t * 100 == 0).
    { intros t. rewrite HIz. unfold Qdiv. lra. }
    destruct (Qeq_bool time_delta 0); simpl; rewrite Hz; split; (lra || (intros; lra)).
  - apply Qeq_bool_neq in ES. assert (HSpos : 0 < S) by lra.
    assert (Hq : 0 <= I / S <= 1).
    { split.
      - apply Qle_shift_div_l; [done|]. lra.
      - apply Qle_shift_div_r; [done|]. lra. }
    split; [lra|]. intros Hc. lra.
Qed.

(** *** One synchronized cycle *)

Lemma counter_delta_max (prev curr : Z) :
  Z.max 0 (curr - prev) = counter_delta prev curr.
Proof. unfold counter_delta. destruct (Z.leb_spec prev curr); lia. Qed.

(** A synchronized cycle always emits a point, whose fields are read from
    the three computed dictionaries. *)
Lemma collect_feature_point_spec jps interval e :
  exists point,
    collect_feature_point jps interval e = Some point
    /\ timestamp point = t1_of interval e
    /\ time_delta_seconds point
       = py_maxQ (1 # 1000000) (t1_of interval e - ce_t0 e)
    /\ cpu_utilization point
       = os_utilization_of (default ∅ (cpu_times (ce_os0 e)))
           (default ∅ (cpu_times (ce_os1 e))) (time_delta_seconds point)
    /\ cpu_cycles point = getZ (ce_pmc_data e) "cpu_cycles"
    /\ instructions point = getZ (ce_pmc_data e) "instructions"
    /\ cache_references point = getZ (ce_pmc_data e) "cache_references"
    /\ cache_misses point = getZ (ce_pmc_data e) "cache_misses"
    /\ branches point = getZ (ce_pmc_data e) "branches"
    /\ branch_misses point = getZ (ce_pmc_data e) "branch_misses"
    /\ Some (instructions_per_cycle point)
       = guarded_ratio (ce_pmc_data e) "instructions" "cpu_cycles"
    /\ Some (cache_miss_ratio point)
       = guarded_ratio (ce_pmc_data e) "cache_misses" "cache_references"
    /\ Some (branch_miss_ratio point)
       = guarded_ratio (ce_pmc_data e) "branch_misses" "branches".
Proof.
  unfold collect_feature_point.
  set (td := py_maxQ (1 # 1000000) (t1_of interval e - ce_t0 e)).
  set (aligned := _compute_os_metrics_from_snapshots (ce_os0 e) (ce_os1 e) td).
  destruct (calculate_derived_features_spec (ce_pmc_data e) aligned)
    as (derived & -> & H1 & H2 & H3).
  cbn [mbind option_bind]. eexists. split; [reflexivity|].
  cbn [timestamp time_delta_seconds cpu_utilization cpu_cycles instructions
       cache_references cache_misses branches branch_misses
       instructions_per_cycle cache_miss_ratio branch_miss_ratio].
  destruct (os_metrics_lookup (ce_os0 e) (ce_os1 e) td) as (_ & Hu & _).
  fold aligned in Hu.
  rewrite <- H1, <- H2, <- H3. unfold getQ at 1. rewrite Hu. cbn [default].
  rewrite !guarded_ratio_spec in *. unfold getQ. rewrite H1, H2, H3.
  by split_and!.
Qed.

End FeatureFacts.

Section FeatureClaims.

Import Features.

(** C5.  A synchronized cycle emits a point whose window, from the T0
    reading to the T1 reading that becomes its timestamp, is at least the
    collection interval minus the scheduling slack [eps]: the clock is
    read for T1 no earlier than [eps] before the end of the forced wait
    (or before the reading taken after the measurement, when that already
    exceeds the interval).  The recorded [time_delta_seconds] has the same
    lower bound. *)
Theorem C5_window_at_least_interval (jps : Z) (interval eps : Q)
    (e : CycleEnv) :
  - eps <= ce_wake_delay e ->
  exists point,
    collect_feature_point jps interval e = Some point
    /\ interval - eps <= timestamp point - ce_t0 e
    /\ interval - eps <= time_delta_seconds point.
Proof.
  intros Hd.
  destruct (collect_feature_point_spec jps interval e)
    as (point & Hp & Ht & Htd & _).
  exists point. rewrite Ht, Htd.
  pose proof (t1_of_window interval eps e Hd) as Hw.
  pose proof (py_maxQ_upper (1 # 1000000) (t1_of interval e - ce_t0 e)).
  split_and!; [done | done | lra].
Qed.

Lemma C5_witness :
  exists point,
    collect_feature_point 100 1 short_perf_cycle = Some point
    /\ 1 - 0 <= timestamp point - 50
    /\ 1 - 0 <= time_delta_seconds point.
Proof.
  apply (C5_window_at_least_interval 100 1 0 short_perf_cycle).
  vm_compute. discriminate.
Defined.

(** C6.  Each delta of the two delta-sampling functions is the difference
    of the two readings when the counter did not go back and zero
    otherwise, and is never negative: the per-field tick deltas and the
    context-switch and process-creation deltas of
    [_compute_proc_stat_deltas], and the CPU-time, disk and network deltas
    of [_compute_os_metrics_from_snapshots].  These deltas are what the
    two functions store: the user and system seconds are the tick deltas
    divided by the tick rate, the utilization is formed from the sum of
    the eight tick deltas and the idle one, and each OS percentage is the
    CPU-time delta of its state divided by the total. *)
Theorem C6_deltas_clamped :
  (forall prev_cpu curr_cpu field,
     delta_jiffies prev_cpu curr_cpu field
     = counter_delta (getZ prev_cpu field) (getZ curr_cpu field)
     /\ (0 <= delta_jiffies prev_cpu curr_cpu field)%Z)
  /\ (forall prev curr, (prev <= curr)%Z -> counter_delta prev curr = (curr - prev)%Z)
  /\ (forall prev curr, (curr < prev)%Z -> counter_delta prev curr = 0%Z)
  /\ (forall t0 t1 k,
        (getQ t0 k <= getQ t1 k -> os_delta t0 t1 k == getQ t1 k - getQ t0 k)
        /\ (getQ t1 k < getQ t0 k -> os_delta t0 t1 k = 0)
        /\ 0 <= os_delta t0 t1 k)
  /\ (forall jps prev_stat curr_stat time_delta,
        stat_nonempty prev_stat = true -> stat_nonempty curr_stat = true ->
        jps <> 0%Z ->
        let deltas := _compute_proc_stat_deltas jps prev_stat curr_stat time_delta in
        deltas !! "sys_context_switches"
        = Some (inject_Z (counter_delta
                            (default 0%Z (ps_context_switches prev_stat))
                            (default 0%Z (ps_context_switches curr_stat))))
        /\ deltas !! "sys_processes_created"
           = Some (inject_Z (counter_delta
                               (default 0%Z (ps_processes_created prev_stat))
                               (default 0%Z (ps_processes_created curr_stat)))))
  /\ (forall snap0 snap1 time_delta,
        let metrics := _compute_os_metrics_from_snapshots snap0 snap1 time_delta in
        let d0 := default ∅ (disk_io snap0) in
        let d1 := default ∅ (disk_io snap1) in
        let n0 := default ∅ (net_io snap0) in
        let n1 := default ∅ (net_io snap1) in
        metrics !! "disk_io_read_mb"
        = Some (inject_Z (counter_delta (getZ d0 "read_bytes") (getZ d1 "read_bytes")) / mib)
        /\ metrics !! "disk_io_write_mb"
           = Some (inject_Z (counter_delta (getZ d0 "write_bytes") (getZ d1 "write_bytes")) / mib)
        /\ metrics !! "network_bytes_sent"
           = Some (inject_Z (counter_delta (getZ n0 "bytes_sent") (getZ n1 "bytes_sent")))
        /\ metrics !! "network_bytes_recv"
           = Some (inject_Z (counter_delta (getZ n0 "bytes_recv") (getZ n1 "bytes_recv"))))
  /\ (forall jps prev_stat curr_stat time_delta,
        stat_nonempty prev_stat = true -> stat_nonempty curr_stat = true ->
        jps <> 0%Z ->
        let prev_cpu := default ∅ (ps_cpu prev_stat) in
        let curr_cpu := default ∅ (ps_cpu curr_stat) in
        nonempty prev_cpu && nonempty curr_cpu = true ->
        let deltas := _compute_proc_stat_deltas jps prev_stat curr_stat time_delta in
        let ticks := fun field =>
          counter_delta (getZ prev_cpu field) (getZ curr_cpu field) in
        let total_delta :=
          fold_left (fun total field => (total + ticks field)%Z) cpu_fields 0%Z in
        deltas !! "sys_cpu_user_seconds"
        = Some (inject_Z (ticks "user") / inject_Z jps)
        /\ deltas !! "sys_cpu_system_seconds"
           = Some (inject_Z (ticks "system") / inject_Z jps)
        /\ deltas !! "sys_cpu_utilization"
           = Some (if (0 <? total_delta)%Z then
                     (inject_Z total_delta
                      - inject_Z (ticks "idle") / inject_Z jps * inject_Z jps)
                     / inject_Z total_delta * 100
                   else 0))
  /\ (forall snap0 snap1 time_delta k,
        k ∈ cpu_fields ->
        let t0 := default ∅ (cpu_times snap0) in
        let t1 := default ∅ (cpu_times snap1) in
        _compute_os_metrics_from_snapshots snap0 snap1 time_delta
          !! metrics_map k
        = Some (os_delta t0 t1 k / os_total t0 t1 time_delta * 100)).
Proof.
  split_and!.
  - intros prev_cpu curr_cpu field. unfold delta_jiffies.
    rewrite counter_delta_max. split; [done|].
    unfold counter_delta. destruct (Z.leb_spec (getZ prev_cpu field) (getZ curr_cpu field)); lia.
  - intros prev curr H. unfold counter_delta.
    destruct (Z.leb_spec prev curr); lia.
  - intros prev curr H. unfold counter_delta.
    destruct (Z.leb_spec prev curr); lia.
  - intros t0 t1 k. unfold os_delta, py_maxQ.
    destruct (Qlt_bool 0 (getQ t1 k - getQ t0 k)) eqn:E.
    + apply Qlt_bool_iff in E. split_and!; [done | intros; lra | lra].
    + unfold Qlt_bool in E. apply negb_false_iff, Qle_bool_iff in E.
      split_and!; [intros; lra | done | lra].
  - intros jps prev_stat curr_stat time_delta Hp Hc Hj deltas. subst deltas.
    rewrite <- !counter_delta_max.
    apply proc_stat_deltas_counters; auto.
  - intros snap0 snap1 time_delta metrics d0 d1 n0 n1.
    rewrite <- !counter_delta_max.
    destruct (os_metrics_lookup snap0 snap1 time_delta)
      as (_ & _ & H1 & H2 & H3 & H4).
    by split_and!.
  - intros jps prev_stat curr_stat time_delta Hp Hc Hj prev_cpu curr_cpu Hne
      deltas ticks total_delta.
    destruct (proc_stat_deltas_cpu jps prev_stat curr_stat time_delta
                Hp Hc Hj Hne) as (Hu & Hus & Hsy).
    fold deltas prev_cpu curr_cpu in Hu, Hus, Hsy.
    assert (Hticks : forall field,
              delta_jiffies prev_cpu curr_cpu field = ticks field).
    { intros field. unfold delta_jiffies. apply counter_delta_max. }
    assert (Htotal : total_of prev_cpu curr_cpu cpu_fields 0 = total_delta).
    { subst total_delta. unfold total_of, cpu_fields. cbn [fold_left].
      by rewrite !Hticks. }
    rewrite Hu, Hus, Hsy. unfold utilization_of, seconds_of.
    by rewrite Htotal, !Hticks.
  - intros snap0 snap1 time_delta k Hk t0 t1. by apply os_metrics_percent.
Qed.

Lemma C6_witness :
  _compute_proc_stat_deltas 100 stat_a stat_b 1 !! "sys_context_switches"
  = Some (inject_Z 0)
  /\ _compute_proc_stat_deltas 100 stat_a stat_b 1 !! "sys_processes_created"
     = Some (inject_Z 2)
  /\ delta_jiffies (default ∅ (ps_cpu stat_a)) (default ∅ (ps_cpu stat_b)) "user"
     = 3%Z
  /\ _compute_proc_stat_deltas 100 stat_a stat_b 1 !! "sys_cpu_user_seconds"
     = Some (inject_Z 3 / inject_Z 100)
  /\ _compute_os_metrics_from_snapshots still_snapshot still_snapshot 1
       !! "cpu_idle"
     = Some (os_delta (default ∅ (cpu_times still_snapshot))
               (default ∅ (cpu_times still_snapshot)) "idle"
             / os_total (default ∅ (cpu_times still_snapshot))
                 (default ∅ (cpu_times still_snapshot)) 1
             * 100).
Proof.
  destruct C6_deltas_clamped as (Hj & _ & _ & _ & Hproc & _ & Hcpu & Hos).
  destruct (Hproc 100%Z stat_a stat_b 1) as [H1 H2]; [done | done | done |].
  destruct (Hcpu 100%Z stat_a stat_b 1) as (H3 & _);
    [done | done | done | by vm_compute |].
  split_and!.
  - rewrite H1. reflexivity.
  - rewrite H2. reflexivity.
  - destruct (Hj (default ∅ (ps_cpu stat_a)) (default ∅ (ps_cpu stat_b)) "user")
      as [-> _].
    reflexivity.
  - rewrite H3. reflexivity.
  - apply (Hos still_snapshot still_snapshot 1 "idle").
    apply (bool_decide_unpack _). by vm_compute.
Defined.

(** Utilization bounds (what holds of claim C7): both utilizations lie in
    [0, 100], and the /proc/stat one is 0 when no tick elapsed. *)
Lemma utilization_ranges jps prev_stat curr_stat snap0 snap1 time_delta :
  (forall u,
     _compute_proc_stat_deltas jps prev_stat curr_stat time_delta
       !! "sys_cpu_utilization" = Some u ->
     0 <= u <= 100
     /\ (total_of (default ∅ (ps_cpu prev_stat)) (default ∅ (ps_cpu curr_stat))
           cpu_fields 0 = 0%Z -> u = 0))
  /\ (exists u,
        _compute_os_metrics_from_snapshots snap0 snap1 time_delta
          !! "cpu_utilization" = Some u
        /\ 0 <= u <= 100).
Proof.
  split.
  - intros u Hu. apply proc_stat_utilization_inv in Hu as [Hj ->].
    by apply utilization_of_range.
  - destruct (os_metrics_lookup snap0 snap1 time_delta) as (_ & Hu & _).
    eexists. split; [exact Hu|]. apply os_utilization_of_range.
Qed.

(** C7, where the code departs from the claim.  Two snapshots with the
    same CPU times (no time elapsed in any state, as also when both
    snapshots failed and are empty) give [cpu_utilization] 100, not 0,
    in the result of [_compute_os_metrics_from_snapshots] and in the
    emitted feature point, while the /proc/stat path gives 0 for two
    identical readings.  Values are compared in lowest terms. *)
Theorem C7_os_utilization_without_ticks :
  Qred <$> (_compute_os_metrics_from_snapshots still_snapshot still_snapshot 1
              !! "cpu_utilization") = Some 100
  /\ Qred <$> (_compute_os_metrics_from_snapshots failed_snapshot failed_snapshot 1
                 !! "cpu_utilization") = Some 100
  /\ Qred <$> (cpu_utilization <$> collect_feature_point 100 1 short_perf_cycle)
     = Some 100
  /\ Qred <$> (_compute_proc_stat_deltas 100 stat_a stat_a 1
                 !! "sys_cpu_utilization") = Some 0.
Proof. split_and!; vm_compute; reflexivity. Qed.

(** C8.  [calculate_derived_features] never raises: each of the three
    ratios is the quotient of the two counters when the divisor counter is
    positive and 0 otherwise, in particular 0 when the divisor is 0; the
    same holds of the ratio fields of every emitted feature point. *)
Theorem C8_guarded_ratios (pmc_data : gmap string Z) (os_data : gmap string Q) :
  (exists derived,
     calculate_derived_features pmc_data os_data = Some derived
     /\ derived !! "instructions_per_cycle"
        = Some (if (0 <? getZ pmc_data "cpu_cycles")%Z
                then inject_Z (getZ pmc_data "instructions")
                     / inject_Z (getZ pmc_data "cpu_cycles")
                else 0)
     /\ derived !! "cache_miss_ratio"
        = Some (if (0 <? getZ pmc_data "cache_references")%Z
                then inject_Z (getZ pmc_data "cache_misses")
                     / inject_Z (getZ pmc_data "cache_references")
                else 0)
     /\ derived !! "branch_miss_ratio"
        = Some (if (0 <? getZ pmc_data "branches")%Z
                then inject_Z (getZ pmc_data "branch_misses")
                     / inject_Z (getZ pmc_data "branches")
                else 0)
     /\ (getZ pmc_data "cpu_cycles" = 0%Z ->
         derived !! "instructions_per_cycle" = Some 0)
     /\ (getZ pmc_data "cache_references" = 0%Z ->
         derived !! "cache_miss_ratio" = Some 0)
     /\ (getZ pmc_data "branches" = 0%Z ->
         derived !! "branch_miss_ratio" = Some 0))
  /\ (forall jps interval e point,
        collect_feature_point jps interval e = Some point ->
        (cpu_cycles point = 0%Z -> instructions_per_cycle point = 0)
        /\ (cache_references point = 0%Z -> cache_miss_ratio point = 0)
        /\ (branches point = 0%Z -> branch_miss_ratio point = 0)).
Proof.
  split.
  - destruct (calculate_derived_features_spec pmc_data os_data)
      as (derived & Hd & H1 & H2 & H3).
    rewrite guarded_ratio_spec in H1, H2, H3.
    exists derived. split_and!; try done.
    + intros Hz. rewrite H1, Hz. done.
    + intros Hz. rewrite H2, Hz. done.
    + intros Hz. rewrite H3, Hz. done.
  - intros jps interval e point Hp.
    destruct (collect_feature_point_spec jps interval e)
      as (point' & Hp' & _ & _ & _ & Hc & _ & Hr & _ & Hb & _ & H1 & H2 & H3).
    rewrite Hp in Hp'. injection Hp' as <-.
    rewrite guarded_ratio_spec in H1, H2, H3.
    rewrite <- Hc in H1. rewrite <- Hr in H2. rewrite <- Hb in H3.
    split_and!; intros Hz; rewrite Hz in *;
      change (0 <? 0)%Z with false in *; congruence.
Qed.

Lemma C8_witness :
  (instructions_per_cycle <$> collect_feature_point 100 1 short_perf_cycle)
  = Some 0
  /\ (cpu_cycles <$> collect_feature_point 100 1 short_perf_cycle) = Some 0%Z.
Proof.
  destruct (collect_feature_point 100 1 short_perf_cycle) as [point|] eqn:Hp;
    [|vm_compute in Hp; discriminate].
  destruct (C8_guarded_ratios (ce_pmc_data short_perf_cycle) ∅) as [_ H].
  destruct (H 100%Z 1 short_perf_cycle point Hp) as (H1 & _).
  assert (Hc : cpu_cycles point = 0%Z).
  { vm_compute in Hp. injection Hp as <-. reflexivity. }
  simpl. by rewrite (H1 Hc), Hc.
Defined.

End FeatureClaims.

(** * Further properties *)

(** ** Python string operations *)

Section PyStrFacts.

Import PyStr.

Lemma split_on_nonempty sep s : split_on sep s <> [].
Proof.
  destruct s as [|a s]; cbn [split_on]; [done|].
  destruct (Ascii.eqb a sep); [done|]. by destruct (split_on sep s).
Qed.

(** No part of a split holds the separator. *)
Lemma split_on_no_sep sep s :
  Forall (fun part => contains sep part = false) (split_on sep s).
Proof.
  induction s as [|a s IH]; cbn [split_on].
  - by constructor.
  - destruct (Ascii.eqb a sep) eqn:E.
    + by constructor.
    + destruct (split_on sep s) as [|part parts].
      * constructor; [|done]. cbn [contains]. by rewrite E.
      * apply Forall_cons in IH as [H1 H2].
        constructor; [|done]. cbn [contains]. by rewrite E, H1.
Qed.

Lemma item_no_sep sep s i : contains sep (item (split_on sep s) i) = false.
Proof.
  unfold item. pose proof (split_on_no_sep sep s) as H.
  rewrite list.Forall_forall in H.
  destruct (nth_in_or_default i (split_on sep s) EmptyString) as [Hin | ->];
    [|done].
  apply H. by apply list_elem_of_In.
Qed.

Lemma split_on_app sep a b :
  split_on sep (a +:+ String sep b) = split_on sep a ++ split_on sep b.
Proof.
  induction a as [|c a IH]; simpl.
  - by rewrite Ascii.eqb_refl.
  - rewrite IH. destruct (Ascii.eqb c sep); [done|].
    pose proof (split_on_nonempty sep a).
    by destruct (split_on sep a).
Qed.

(** A part without separator is a part of its own. *)
Lemma split_on_absent sep a :
  contains sep a = false -> split_on sep a = [a].
Proof.
  induction a as [|c a IH]; cbn [contains split_on]; [done|].
  intros H. apply orb_false_iff in H as [-> H]. by rewrite IH.
Qed.

Lemma remove_char_absent c s : contains c s = false -> remove_char c s = s.
Proof.
  induction s as [|a s IH]; cbn [contains remove_char]; [done|].
  intros H. apply orb_false_iff in H as [-> H]. by rewrite IH.
Qed.

Lemma contains_lstrip_by drop c s :
  contains c s = false -> contains c (lstrip_by drop s) = false.
Proof.
  induction s as [|a s IH]; cbn [lstrip_by]; [done|].
  intros H. destruct (drop a); [|done].
  cbn [contains] in H. apply orb_false_iff in H as [_ H]. by apply IH.
Qed.

Lemma contains_rstrip_by drop c s :
  contains c s = false -> contains c (rstrip_by drop s) = false.
Proof.
  induction s as [|a s IH]; cbn [rstrip_by]; [done|].
  intros H. cbn [contains] in H. apply orb_false_iff in H as [Ha H].
  specialize (IH H). destruct (rstrip_by drop s) as [|b r].
  - destruct (drop a); [done|]. cbn [contains]. by rewrite Ha.
  - cbn [contains] in *. by rewrite Ha, IH.
Qed.

Lemma contains_strip c s : contains c s = false -> contains c (strip s) = false.
Proof.
  intros H. unfold strip, strip_by.
  by apply contains_rstrip_by, contains_lstrip_by.
Qed.

(** Stripping keeps every character that is not dropped. *)
Lemma lstrip_by_keeps drop c s :
  drop c = false -> contains c s = true -> contains c (lstrip_by drop s) = true.
Proof.
  intros Hc. induction s as [|a s IH]; cbn [lstrip_by contains]; [done|].
  intros H. destruct (drop a) eqn:Ea; [|done].
  apply orb_true_iff in H as [H | H]; [|by apply IH].
  apply Ascii.eqb_eq in H. congruence.
Qed.

Lemma rstrip_by_keeps drop c s :
  drop c = false -> contains c s = true -> contains c (rstrip_by drop s) = true.
Proof.
  intros Hc. induction s as [|a s IH]; cbn [rstrip_by contains]; [done|].
  intros H. apply orb_true_iff in H as [H | H].
  - apply Ascii.eqb_eq in H as ->.
    destruct (rstrip_by drop s); [rewrite Hc|];
      cbn [contains]; by rewrite Ascii.eqb_refl.
  - specialize (IH H). destruct (rstrip_by drop s) as [|b r]; [done|].
    cbn [contains] in *. rewrite IH. by rewrite orb_true_r.
Qed.

Lemma strip_keeps c s :
  isspace c = false -> contains c s = true -> strip s <> EmptyString.
Proof.
  intros Hc H. unfold strip, strip_by.
  pose proof (rstrip_by_keeps isspace c _ Hc (lstrip_by_keeps isspace c s Hc H))
    as Hk.
  intros Hnil. by rewrite Hnil in Hk.
Qed.

End PyStrFacts.

(** ** merge_datasets.py: the closest-point search *)

Section ClosestPoint.

Import Merge MergeIO.

Variable self : DatasetMerger.

Local Abbreviation tol := (time_tolerance self).
Local Abbreviation candidate_ok := (MergeIO.candidate_ok self).

Lemma sorted_labels_cons p rest :
  sorted_labels (p :: rest) ->
  sorted_labels rest
  /\ Forall (fun q => pp_timestamp p <= pp_timestamp q) rest.
Proof. intros H. apply StronglySorted_inv in H. tauto. Qed.

Lemma beyond_tolerance target p q :
  target + tol < pp_timestamp p -> pp_timestamp p <= pp_timestamp q ->
  tol < dist target q.
Proof.
  intros H1 H2. unfold dist.
  pose proof (Qle_Qabs (pp_timestamp q - target)). lra.
Qed.

(** What the scan of a sorted suffix returns. *)
Lemma scan_optimal target rest i cp cd ci :
  sorted_labels rest -> candidate_ok target cp cd ->
  match scan self target rest i cp cd ci with
  | (None, idx) =>
      cp = None /\ idx = ci /\ Forall (fun q => tol < dist target q) rest
  | (Some pp, idx) =>
      dist target pp <= tol
      /\ Forall (fun q => dist target pp <= dist target q) rest
      /\ ((cp = Some pp /\ idx = ci)
          \/ exists n : nat,
               rest !! n = Some pp /\ idx = (i + Z.of_nat n)%Z
               /\ (forall p, cp = Some p -> dist target pp < dist target p)
               /\ forall (m : nat) q, (m < n)%nat -> rest !! m = Some q ->
                    dist target pp < dist target q)
  end.
Proof.
  intros Hs. revert i cp cd ci.
  induction rest as [|p rest IH]; intros i cp cd ci Hc.
  - simpl. destruct Hc as [[-> ->] | (p & -> & -> & Hp)].
    + by split_and!.
    + split_and!; [done | constructor | by left].
  - apply sorted_labels_cons in Hs as [Hs Hp]. specialize (IH Hs).
    cbn [scan]. fold (dist target p).
    destruct (Qle_bool (dist target p) tol) eqn:Hle; cbn [andb].
    + apply Qle_bool_iff in Hle.
      destruct (below_closest (dist target p) cd) eqn:Hb.
      * (* the candidate is replaced *)
        specialize (IH (i + 1)%Z (Some p) (Some (dist target p)) i).
        destruct (scan self target rest (i + 1) (Some p) (Some (dist target p)) i)
          as [[pp|] idx].
        2:{ destruct IH as [[=] _]. right. by exists p. }
        destruct IH as (Hw & Hall & Hsel); [right; by exists p|].
        assert (Hold : forall p0, cp = Some p0 -> dist target p < dist target p0).
        { intros p0 ->. destruct Hc as [[[=] _] | (p1 & [= <-] & -> & _)].
          simpl in Hb. by apply Qlt_bool_iff in Hb. }
        destruct Hsel as [[[= <-] ->] | (n & Hn & -> & Hlt & Hbefore)].
        -- split_and!; [done | constructor; [lra | done] |].
           right. exists 0%nat. split_and!; [done | lia | done |].
           intros m q Hm. lia.
        -- pose proof (Hlt p eq_refl) as Hpp.
           split_and!; [done | constructor; [lra | done] |].
           right. exists (S n). split_and!; [done | lia | |].
           ++ intros p0 Hp0. specialize (Hold p0 Hp0). lra.
           ++ intros [|m] q Hm Hq; simpl in Hq.
              ** injection Hq as <-. done.
              ** apply (Hbefore m); [lia | done].
      * (* within the tolerance but not closer: the candidate stays *)
        assert (Hcand : exists p0, cp = Some p0 /\ cd = Some (dist target p0)
                                   /\ dist target p0 <= dist target p).
        { destruct Hc as [[-> ->] | (p0 & -> & -> & _)]; [done|].
          exists p0. split_and!; [done | done |].
          simpl in Hb. unfold Qlt_bool in Hb.
          by apply negb_false_iff, Qle_bool_iff in Hb. }
        destruct Hcand as (p0 & -> & -> & Hp0).
        destruct (Qlt_bool (target + tol) (pp_timestamp p)) eqn:Hfar.
        { apply Qlt_bool_iff in Hfar.
          pose proof (beyond_tolerance target p p Hfar ltac:(lra)). lra. }
        specialize (IH (i + 1)%Z (Some p0) (Some (dist target p0)) ci Hc).
        destruct (scan self target rest (i + 1) (Some p0) (Some (dist target p0)) ci)
          as [[pp|] idx].
        2:{ by destruct IH as [[=] _]. }
        destruct IH as (Hw & Hall & Hsel).
        destruct Hsel as [[[= <-] ->] | (n & Hn & -> & Hlt & Hbefore)].
        -- split_and!; [done | constructor; [lra | done] | by left].
        -- pose proof (Hlt p0 eq_refl) as Hpp.
           split_and!; [done | constructor; [lra | done] |].
           right. exists (S n). split_and!; [done | lia | done |].
           intros [|m] q Hm Hq; simpl in Hq.
           ++ injection Hq as <-. lra.
           ++ apply (Hbefore m); [lia | done].
    + (* outside the tolerance *)
      apply Qle_bool_false_iff in Hle.
      destruct (Qlt_bool (target + tol) (pp_timestamp p)) eqn:Hfar.
      * apply Qlt_bool_iff in Hfar.
        assert (Hrest : Forall (fun q => tol < dist target q) (p :: rest)).
        { constructor; [done|]. eapply Forall_impl; [exact Hp|].
          intros q Hq. simpl in Hq. by eapply beyond_tolerance. }
        destruct Hc as [[-> ->] | (p0 & -> & -> & Hp0)].
        -- by split_and!.
        -- split_and!; [done | | by left].
           eapply Forall_impl; [exact Hrest|]. intros q Hq. simpl in Hq. lra.
      * specialize (IH (i + 1)%Z cp cd ci Hc).
        destruct (scan self target rest (i + 1) cp cd ci) as [[pp|] idx].
        -- destruct IH as (Hw & Hall & Hsel).
           split_and!; [done | constructor; [lra | done] |].
           destruct Hsel as [? | (n & Hn & -> & Hlt & Hbefore)]; [by left|].
           right. exists (S n). split_and!; [done | lia | done |].
           intros [|m] q Hm Hq; simpl in Hq.
           ++ injection Hq as <-. lra.
           ++ apply (Hbefore m); [lia | done].
        -- destruct IH as (-> & -> & Hall). split_and!; [done | done |].
           by constructor.
Qed.

Lemma sorted_labels_drop (l : list PowerPoint) n :
  sorted_labels l -> sorted_labels (drop n l).
Proof.
  intros H. unfold sorted_labels in *.
  rewrite <- (take_drop n l) in H. by apply StronglySorted_app in H as (_ & _ & H).
Qed.

Lemma sorted_labels_lookup (l : list PowerPoint) (i j : nat) a b :
  sorted_labels l -> (i <= j)%nat -> l !! i = Some a -> l !! j = Some b ->
  pp_timestamp a <= pp_timestamp b.
Proof.
  intros Hs. revert i j. induction Hs as [|x l Hs IH Hx]; intros i j Hij Ha Hb.
  - done.
  - destruct i as [|i], j as [|j]; simpl in *; try lia.
    + injection Ha as <-. injection Hb as <-. lra.
    + injection Ha as <-. rewrite list.Forall_forall in Hx.
      apply Hx. by eapply list_elem_of_lookup_2.
    + eapply (IH i j); [lia | done | done].
Qed.

(** A label further to the left of a target is further away. *)
Lemma dist_left (target : Q) (a b : PowerPoint) :
  pp_timestamp a <= pp_timestamp b -> pp_timestamp b <= target ->
  dist target b <= dist target a.
Proof.
  intros H1 H2. unfold dist.
  rewrite (Qabs_neg (pp_timestamp b - target)) by lra.
  rewrite (Qabs_neg (pp_timestamp a - target)) by lra. lra.
Qed.

(** The search on labels in ascending order. *)
Lemma find_closest_sorted (target : Q) (start : Z) :
  (0 <= start)%Z -> sorted_labels (bm_data self) ->
  match _find_closest_power_point self target start with
  | (Some pp, idx) =>
      (start <= idx)%Z
      /\ bm_data self !! Z.to_nat idx = Some pp
      /\ dist target pp <= tol
      /\ (forall (j : nat) q, (Z.to_nat start <= j)%nat ->
            bm_data self !! j = Some q -> dist target pp <= dist target q)
      /\ (forall (j : nat) q, (Z.to_nat start <= j < Z.to_nat idx)%nat ->
            bm_data self !! j = Some q -> dist target pp < dist target q)
  | (None, idx) =>
      idx = start
      /\ forall (j : nat) q, (Z.to_nat start <= j)%nat ->
           bm_data self !! j = Some q -> tol < dist target q
  end.
Proof.
  intros Hstart Hs. unfold _find_closest_power_point.
  pose proof (scan_optimal target (drop (Z.to_nat start) (bm_data self))
                start None None start
                (sorted_labels_drop _ _ Hs) (or_introl (conj eq_refl eq_refl)))
    as H.
  destruct (scan self target (drop (Z.to_nat start) (bm_data self))
              start None None start) as [[pp|] idx].
  - destruct H as (Hw & Hall & [[[=] _] | (n & Hn & -> & _ & Hbefore)]).
    rewrite lookup_drop in Hn. rewrite list.Forall_forall in Hall.
    replace (Z.to_nat (start + Z.of_nat n)) with (Z.to_nat start + n)%nat by lia.
    split_and!; [lia | done | done | |].
    + intros j q Hj Hq. apply Hall.
      apply list_elem_of_lookup. exists (j - Z.to_nat start)%nat.
      rewrite lookup_drop. by replace (Z.to_nat start + (j - Z.to_nat start))%nat
        with j by lia.
    + intros j q Hj Hq. apply (Hbefore (j - Z.to_nat start)%nat); [lia|].
      rewrite lookup_drop. by replace (Z.to_nat start + (j - Z.to_nat start))%nat
        with j by lia.
  - destruct H as (_ & -> & Hall). split; [done|].
    rewrite list.Forall_forall in Hall.
    intros j q Hj Hq. apply Hall.
    apply list_elem_of_lookup. exists (j - Z.to_nat start)%nat.
    rewrite lookup_drop. by replace (Z.to_nat start + (j - Z.to_nat start))%nat
      with j by lia.
Qed.

(** X1.  On labels in ascending order the search returns, among the labels
    from the start index on, one at the smallest distance from the target,
    and the first such one; it finds a label exactly when some label from
    the start index on is within the tolerance, and otherwise returns the
    start index unchanged. *)
Theorem find_closest_is_closest (target : Q) (start : Z) :
  (0 <= start)%Z -> sorted_labels (bm_data self) ->
  (forall pp idx,
     _find_closest_power_point self target start = (Some pp, idx) ->
     (start <= idx)%Z
     /\ bm_data self !! Z.to_nat idx = Some pp
     /\ dist target pp <= tol
     /\ (forall (j : nat) q, (Z.to_nat start <= j)%nat ->
           bm_data self !! j = Some q -> dist target pp <= dist target q)
     /\ (forall (j : nat) q, (Z.to_nat start <= j < Z.to_nat idx)%nat ->
           bm_data self !! j = Some q -> dist target pp < dist target q))
  /\ (is_Some (fst (_find_closest_power_point self target start))
      <-> exists (j : nat) q, (Z.to_nat start <= j)%nat
                              /\ bm_data self !! j = Some q
                              /\ dist target q <= tol)
  /\ (fst (_find_closest_power_point self target start) = None ->
      snd (_find_closest_power_point self target start) = start).
Proof.
  intros Hstart Hs.
  pose proof (find_closest_sorted target start Hstart Hs) as H.
  destruct (_find_closest_power_point self target start) as [[pp|] idx].
  - destruct H as (H1 & H2 & H3 & H4 & H5). split_and!.
    + intros pp' idx' [= <- <-]. by split_and!.
    + split; [|by eexists]. intros _.
      exists (Z.to_nat idx), pp. split_and!; [lia | done | done].
    + done.
  - destruct H as [-> Hfar]. split_and!.
    + intros pp' idx' [=].
    + cbn [fst]. split; [by intros [? [=]]|].
      intros (j & q & Hj & Hq & Hd). specialize (Hfar j q Hj Hq). lra.
    + done.
Qed.

(** With the cursor invariant, what the search finds from the cursor is
    the closest label of the whole sequence. *)
Lemma find_closest_global (vm : VMPoint) (c : Z) :
  sorted_labels (bm_data self) -> cursor_ok self c [vm] ->
  match _find_closest_power_point self (timestamp vm) c with
  | (Some pp, idx) =>
      forall q, q ∈ bm_data self ->
        dist (timestamp vm) pp <= dist (timestamp vm) q
  | (None, idx) =>
      forall q, q ∈ bm_data self -> tol < dist (timestamp vm) q
  end.
Proof.
  intros Hs [Hc0 Hc].
  pose proof (find_closest_sorted (timestamp vm) c Hc0 Hs) as H.
  assert (Hleft : forall (j : nat) q, (j < Z.to_nat c)%nat ->
            bm_data self !! j = Some q ->
            exists qc, bm_data self !! Z.to_nat c = Some qc
                       /\ dist (timestamp vm) qc <= dist (timestamp vm) q).
  { intros j q Hj Hq. destruct Hc as [-> | (qc & Hqc & Hvm)]; [simpl in Hj; lia|].
    exists qc. split; [done|]. apply Forall_inv in Hvm.
    apply dist_left; [|done].
    eapply (sorted_labels_lookup _ j (Z.to_nat c)); [done | lia | done | done]. }
  destruct (_find_closest_power_point self (timestamp vm) c) as [[pp|] idx].
  - destruct H as (_ & _ & _ & Hright & _).
    intros q Hq. apply list_elem_of_lookup in Hq as [j Hq].
    destruct (decide (Z.to_nat c <= j)%nat) as [Hj|Hj]; [by eapply Hright|].
    destruct (Hleft j q ltac:(lia) Hq) as (qc & Hqc & Hd).
    specialize (Hright (Z.to_nat c) qc ltac:(lia) Hqc). lra.
  - destruct H as (_ & Hright).
    intros q Hq. apply list_elem_of_lookup in Hq as [j Hq].
    destruct (decide (Z.to_nat c <= j)%nat) as [Hj|Hj]; [by eapply Hright|].
    destruct (Hleft j q ltac:(lia) Hq) as (qc & Hqc & Hd).
    specialize (Hright (Z.to_nat c) qc ltac:(lia) Hqc). lra.
Qed.

(** The loop body re-establishes the cursor invariant for the features
    that follow. *)
Lemma merge_step_cursor_ok st vm vms :
  sorted_labels (bm_data self) -> sorted_features (vm :: vms) ->
  cursor_ok self (bm_search_start st) (vm :: vms) ->
  cursor_ok self (bm_search_start (merge_step self st vm)) vms.
Proof.
  intros Hs Hv Hc.
  assert (Hkeep : cursor_ok self (bm_search_start st) vms).
  { destruct Hc as [H0 Hc]. split; [done|].
    destruct Hc as [?|(q & Hq & Hall)]; [by left|].
    right. exists q. split; [done|]. by apply Forall_inv_tail in Hall. }
  apply StronglySorted_inv in Hv as [_ Hlater].
  destruct (merge_step_cases self st vm)
    as [(pp & idx & Hf & _ & _ & ->) | [_ ->]]; [|done].
  cbn [bm_search_start].
  destruct Hc as [Hc0 Hc].
  pose proof (find_closest_sorted (timestamp vm) (bm_search_start st) Hc0 Hs)
    as H.
  rewrite Hf in H. destruct H as (Hidx & Hpp & _ & _ & Hbefore).
  split; [lia|].
  destruct (decide (idx - 1 <= 0)%Z) as [Hz|Hz]; [left; lia|].
  right. rewrite Z.max_r by lia.
  assert (Hlt : (Z.to_nat (idx - 1) < length (bm_data self))%nat).
  { apply lookup_lt_Some in Hpp. lia. }
  destruct (lookup_lt_is_Some_2 _ _ Hlt) as [q Hq].
  exists q. split; [done|].
  assert (Hqvm : pp_timestamp q <= timestamp vm).
  { destruct (decide (bm_search_start st <= idx - 1)%Z) as [Hin|Hout].
    - (* the label before the match was scanned and lost to the match *)
      specialize (Hbefore (Z.to_nat (idx - 1)) q ltac:(lia) Hq).
      apply Qnot_lt_le. intros Hgt.
      assert (Hle : pp_timestamp q <= pp_timestamp pp).
      { eapply (sorted_labels_lookup _ (Z.to_nat (idx - 1)) (Z.to_nat idx));
          [done | lia | done | done]. }
      unfold dist in Hbefore.
      rewrite (Qabs_pos (pp_timestamp pp - timestamp vm)) in Hbefore by lra.
      rewrite (Qabs_pos (pp_timestamp q - timestamp vm)) in Hbefore by lra.
      lra.
    - (* the match is the label under the cursor *)
      destruct Hc as [Hc|(qc & Hqc & Hall)]; [lia|].
      apply Forall_inv in Hall.
      assert (Hle : pp_timestamp q <= pp_timestamp qc).
      { eapply (sorted_labels_lookup _ (Z.to_nat (idx - 1))
                  (Z.to_nat (bm_search_start st))); [done | lia | done | done]. }
      lra. }
  eapply Forall_impl; [exact Hlater|]. simpl. intros vm' Hvm'. lra.
Qed.

(** The whole loop on inputs in ascending order: every record it appends
    is at the smallest distance any label has from its feature, and a
    feature is left without temporal match only when every label is
    beyond the tolerance. *)
Lemma merge_loop_global vms st :
  sorted_labels (bm_data self) -> sorted_features vms ->
  cursor_ok self (bm_search_start st) vms ->
  exists new,
    ls_merged_data (merge_loop self st vms) = ls_merged_data st ++ new
    /\ Forall (fun m => forall q, q ∈ bm_data self ->
                 time_diff m <= dist (timestamp (mp_vm m)) q) new
    /\ Forall2 (fun vm o => o = NoTemporalMatch ->
                  forall q, q ∈ bm_data self -> tol < dist (timestamp vm) q)
         vms (outcomes self st vms).
Proof.
  intros Hs. revert st. induction vms as [|vm vms IH]; intros st Hv Hc.
  - exists []. rewrite app_nil_r. split_and!; [done | constructor | constructor].
  - change (merge_loop self st (vm :: vms))
      with (merge_loop self (merge_step self st vm) vms).
    cbn [outcomes].
    pose proof (merge_step_cursor_ok st vm vms Hs Hv Hc) as Hc'.
    pose proof Hv as Hv'. apply StronglySorted_inv in Hv' as [Hv' _].
    destruct (IH (merge_step self st vm) Hv' Hc') as (new & H1 & H2 & H3).
    assert (Hone : cursor_ok self (bm_search_start st) [vm]).
    { destruct Hc as [H0 Hc]. split; [done|].
      destruct Hc as [?|(q & Hq & Hall)]; [by left|].
      right. exists q. split; [done|]. apply Forall_inv in Hall. by constructor. }
    pose proof (find_closest_global vm (bm_search_start st) Hs Hone) as Hg.
    rewrite H1.
    destruct (merge_step_cases self st vm)
      as [(pp & idx & Hf & _ & Ho & Hstep) | [Ho Hstep]].
    + rewrite Hf in Hg. rewrite Hstep in *. cbn [ls_merged_data].
      exists (make_merged_point self vm pp (_get_power_label self pp) :: new).
      rewrite <- app_assoc. split_and!; [done | |].
      * constructor; [|done]. intros q Hq.
        cbn [make_merged_point time_diff mp_vm].
        rewrite Qabs_Qminus. by apply Hg.
      * constructor; [|done]. by rewrite Ho.
    + rewrite Hstep in *. exists new. split_and!; [done | done |].
      constructor; [|done]. intros Hno. unfold step_outcome in Hno.
      destruct (_find_closest_power_point self (timestamp vm) (bm_search_start st))
        as [[pp|] idx]; [|done].
      simpl in Hno. by destruct (Qle_bool _ _).
Qed.

(** The cursor never goes below 0, never reaches the end of a non-empty
    label sequence, and a step takes it back by at most one. *)
Lemma merge_step_cursor_bounds st vm :
  (0 <= bm_search_start st)%Z ->
  (bm_search_start st <= Z.max 0 (Z.of_nat (length (bm_data self)) - 1))%Z ->
  (0 <= bm_search_start (merge_step self st vm))%Z
  /\ (bm_search_start (merge_step self st vm)
      <= Z.max 0 (Z.of_nat (length (bm_data self)) - 1))%Z
  /\ (bm_search_start st - 1 <= bm_search_start (merge_step self st vm))%Z.
Proof.
  intros H0 Hlen.
  destruct (merge_step_cases self st vm)
    as [(pp & idx & Hf & _ & _ & ->) | [_ ->]]; [|lia].
  cbn [bm_search_start].
  apply find_closest_found in Hf as (Hpp & Hidx & _); [|done].
  apply lookup_lt_Some in Hpp. lia.
Qed.

End ClosestPoint.

Section ClosestPointExamples.

Import Merge MergeIO.

Lemma scenario_sorted :
  sorted_features (vm_data scenario) /\ sorted_labels (bm_data scenario).
Proof. split; [unfold sorted_features | unfold sorted_labels]; ascending. Qed.

Lemma find_closest_is_closest_witness :
  fst (_find_closest_power_point scenario 1 0) = Some (label (95 # 100) 1)
  /\ forall (j : nat) q, bm_data scenario !! j = Some q ->
       dist 1 (label (95 # 100) 1) <= dist 1 q.
Proof.
  destruct (find_closest_is_closest scenario 1 0 ltac:(lia)
              (proj2 scenario_sorted)) as (H & _).
  destruct (H (label (95 # 100) 1) 1%Z eq_refl) as (_ & _ & _ & Hmin & _).
  split; [reflexivity|].
  intros j q Hq. apply (Hmin j q); [simpl; lia | exact Hq].
Defined.

End ClosestPointExamples.

Section MergeRun.

Import Merge MergeIO.

(** On sorted inputs the record of a feature carries the closest label
    of the whole sequence. *)
Lemma produced_closest (self : DatasetMerger) :
  sorted_features (vm_data self) -> sorted_labels (bm_data self) ->
  forall m, m ∈ produced self ->
    forall q, q ∈ bm_data self ->
      time_diff m <= Qabs (pp_timestamp q - timestamp (mp_vm m)).
Proof.
  intros Hv Hb.
  destruct (merge_loop_global self (vm_data self) (loop_start self) Hb Hv)
    as (new & H1 & H2 & H3).
  { split; [done | by left]. }
  destruct (produced_spec self) as (_ & Hempty & Hloop).
  destruct (vm_data self) as [|v vs] eqn:Ev.
  { rewrite Hempty by (by left). intros m Hm. by apply elem_of_nil in Hm. }
  destruct (bm_data self) as [|b bs] eqn:Eb.
  { rewrite Hempty by (by right). intros m Hm. by apply elem_of_nil in Hm. }
  rewrite Hloop in H1 by done. cbn [loop_start ls_merged_data] in H1.
  apply app_inv_head in H1 as <-.
  rewrite list.Forall_forall in H2. exact H2.
Qed.

(** X2.  On feature and label sequences in ascending order, the forward
    cursor loses nothing: every record produced by [merge_datasets] pairs
    its feature with a label at the smallest distance any loaded label has
    from it, and a feature ends without temporal match only when every
    loaded label is further than the tolerance from it. *)
Theorem merge_matches_globally_closest (self : DatasetMerger) :
  sorted_features (vm_data self) -> sorted_labels (bm_data self) ->
  (forall m, m ∈ produced self ->
     forall q, q ∈ bm_data self ->
       time_diff m <= Qabs (pp_timestamp q - timestamp (mp_vm m)))
  /\ Forall2 (fun vm o => o = NoTemporalMatch ->
                forall q, q ∈ bm_data self ->
                  time_tolerance self < Qabs (pp_timestamp q - timestamp vm))
       (vm_data self) (outcomes self (loop_start self) (vm_data self)).
Proof.
  intros Hv Hb. split; [by apply produced_closest|].
  destruct (merge_loop_global self (vm_data self) (loop_start self) Hb Hv)
    as (new & _ & _ & H3); [|exact H3].
  split; [done | by left].
Qed.

Lemma merge_loop_records self vms st :
  exists new,
    ls_merged_data (merge_loop self st vms) = ls_merged_data st ++ new
    /\ map mp_vm new `sublist_of` vms
    /\ Forall (labelled_record self) new.
Proof.
  revert st. induction vms as [|vm vms IH]; intros st.
  - exists []. rewrite app_nil_r. split_and!; [done | done | constructor].
  - change (merge_loop self st (vm :: vms))
      with (merge_loop self (merge_step self st vm) vms).
    destruct (IH (merge_step self st vm)) as (new & -> & H2 & H3).
    destruct (merge_step_cases self st vm)
      as [(pp & idx & Hf & Hthr & _ & ->) | [_ ->]].
    + exists (make_merged_point self vm pp (_get_power_label self pp) :: new).
      cbn [ls_merged_data]. rewrite <- app_assoc.
      split_and!; [done | by apply sublist_skip |].
      constructor; [|done].
      apply find_closest_within in Hf as [Hin _].
      apply Qle_bool_iff in Hthr.
      split_and!; [done | done |]. by exists pp.
    + exists new. split_and!; [done | by apply sublist_cons | done].
Qed.

Lemma produced_of_loop self new :
  vm_data self <> [] -> bm_data self <> [] ->
  ls_merged_data (merge_loop self (loop_start self) (vm_data self))
  = merged_data self ++ new ->
  produced self = new.
Proof.
  intros Hv Hb H. destruct (produced_spec self) as (_ & _ & Hloop).
  rewrite Hloop in H by done. by apply app_inv_head in H.
Qed.

Lemma loaded_or_not (self : DatasetMerger) :
  (vm_data self = [] \/ bm_data self = [])
  \/ (vm_data self <> [] /\ bm_data self <> []).
Proof.
  destruct (vm_data self); [by left; left|].
  destruct (bm_data self); [by left; right | by right].
Qed.

Lemma produced_records (self : DatasetMerger) :
  map mp_vm (produced self) `sublist_of` vm_data self
  /\ Forall (labelled_record self) (produced self).
Proof.
  destruct (loaded_or_not self) as [Hun | [Hv Hb]].
  - rewrite (produced_unloaded self Hun). split; [apply sublist_nil_l|].
    constructor.
  - destruct (merge_loop_records self (vm_data self) (loop_start self))
      as (new & H1 & H2 & H3).
    by rewrite (produced_of_loop self new Hv Hb H1).
Qed.

(** X3.  The records produced follow the order of the features, at most
    one per feature (so never more records than features), and each
    carries a label value that passes the noise floor and is read, in the
    configured zone, from a loaded power point. *)
Theorem produced_records_ordered_and_labelled (self : DatasetMerger) :
  map mp_vm (produced self) `sublist_of` vm_data self
  /\ (length (produced self) <= length (vm_data self))%nat
  /\ forall m, m ∈ produced self ->
       min_power_threshold self <= power_watts m
       /\ mp_power_zone m = power_zone self
       /\ exists pp, pp ∈ bm_data self
                     /\ power_watts m = _get_power_label self pp
                     /\ bm_timestamp m = pp_timestamp pp
                     /\ vm_count m = default 1%Z (pp_vm_count pp).
Proof.
  destruct (produced_records self) as [Hsub Hlab].
  split_and!.
  - exact Hsub.
  - apply sublist_length in Hsub. by rewrite length_map in Hsub.
  - intros m Hm. rewrite list.Forall_forall in Hlab.
    destruct (Hlab m Hm) as (H1 & H2 & pp & H3 & H4 & H5 & H6).
    split_and!; [done | done |]. by exists pp.
Qed.

(** The loop variables in terms of the records produced. *)
Lemma loop_variables self :
  vm_data self <> [] -> bm_data self <> [] ->
  let st := merge_loop self (loop_start self) (vm_data self) in
  matched_count st = Z.of_nat (length (produced self))
  /\ time_diffs st = map time_diff (produced self)
  /\ power_values st = map power_watts (produced self).
Proof.
  intros Hv Hb st. subst st.
  destruct (merge_loop_spec self (vm_data self) (loop_start self))
    as (new & H1 & _ & H3 & _ & H5 & H6).
  rewrite (produced_of_loop self new Hv Hb H1).
  rewrite H3, H5, H6. cbn [loop_start matched_count time_diffs power_values].
  split_and!; [lia | done | done].
Qed.

Lemma statistics_of_loop self :
  vm_data self <> [] -> bm_data self <> [] ->
  statistics (fst (merge_datasets self))
  = update_statistics self (merge_loop self (loop_start self) (vm_data self))
  /\ snd (merge_datasets self)
     = Z.ltb 0 (matched_count (merge_loop self (loop_start self) (vm_data self))).
Proof.
  intros Hv Hb. unfold merge_datasets.
  destruct (vm_data self) as [|v vs] eqn:Ev; [done|].
  destruct (bm_data self) as [|b bs] eqn:Eb; [done|].
  by rewrite <- Ev.
Qed.

(** The counters after a merge of two loaded sequences. *)
Lemma merge_counts (self : DatasetMerger) :
  vm_data self <> [] -> bm_data self <> [] ->
  let s := statistics (fst (merge_datasets self)) in
  matched_points s = Z.of_nat (length (produced self))
  /\ (matched_points s + unmatched_vm_points s)%Z
     = Z.of_nat (length (vm_data self))
  /\ (0 <= unmatched_vm_points s)%Z.
Proof.
  intros Hv Hb s. subst s.
  destruct (statistics_of_loop self Hv Hb) as [-> _].
  destruct (loop_variables self Hv Hb) as [Hm _].
  unfold update_statistics. cbn [matched_points unmatched_vm_points].
  rewrite Hm.
  destruct (produced_records self) as [Hsub _].
  apply sublist_length in Hsub. rewrite length_map in Hsub.
  split_and!; lia.
Qed.

(** X4.  After a merge of two loaded sequences every feature is counted
    exactly once, as matched or as unmatched; the matched count is the
    number of records produced; and the call returns [True] exactly when
    it produced a record. *)
Theorem merge_accounting (self : DatasetMerger) :
  (snd (merge_datasets self) = true <-> produced self <> [])
  /\ (vm_data self <> [] -> bm_data self <> [] ->
      let s := statistics (fst (merge_datasets self)) in
      matched_points s = Z.of_nat (length (produced self))
      /\ (matched_points s + unmatched_vm_points s)%Z
         = Z.of_nat (length (vm_data self))
      /\ (0 <= unmatched_vm_points s)%Z).
Proof.
  split.
  - destruct (loaded_or_not self) as [Hun | [Hv Hb]].
    + rewrite (merge_datasets_unloaded self Hun), (produced_unloaded self Hun).
      split; done.
    + destruct (statistics_of_loop self Hv Hb) as [_ ->].
      destruct (loop_variables self Hv Hb) as [-> _].
      rewrite Z.ltb_lt. destruct (produced self); simpl; split; (done || lia).
  - intros Hv Hb. by apply merge_counts.
Qed.

(** *** Aggregates of a list of floats *)

Lemma list_maxQ_elem (x : Q) (l : list Q) : list_maxQ x l ∈ x :: l.
Proof.
  unfold list_maxQ. revert x. induction l as [|y l IH]; intros x; simpl.
  - by left.
  - specialize (IH (py_maxQ x y)). unfold py_maxQ in *.
    destruct (Qlt_bool x y); apply elem_of_cons in IH as [-> | IH].
    + right. by left.
    + right. by right.
    + by left.
    + right. by right.
Qed.

Lemma list_minQ_elem (x : Q) (l : list Q) : list_minQ x l ∈ x :: l.
Proof.
  unfold list_minQ. revert x. induction l as [|y l IH]; intros x; simpl.
  - by left.
  - specialize (IH (py_minQ x y)). unfold py_minQ in *.
    destruct (Qlt_bool y x); apply elem_of_cons in IH as [-> | IH].
    + right. by left.
    + right. by right.
    + by left.
    + right. by right.
Qed.

(** The mean of a non-empty list of non-negative numbers is not
    negative. *)
Lemma mean_nonneg (x : Q) (l : list Q) :
  Forall (fun y => 0 <= y) (x :: l) ->
  0 <= sumQ (x :: l) / inject_Z (Z.of_nat (length (x :: l))).
Proof.
  intros H. destruct (sumQ_bound (x :: l) 0 H) as [H1 _].
  fold (sumQ (x :: l)) in H1.
  assert (Hn : 0 < inject_Z (Z.of_nat (length (x :: l)))).
  { rewrite <- (Zlt_Qlt 0). simpl. lia. }
  apply Qle_shift_div_l; [done|]. lra.
Qed.

(** X5.  When a merge produces at least one record: the recorded average
    time difference is not negative; the recorded maximum is the time
    difference of one of the records, bounds every record's time
    difference and is at most the tolerance; and the recorded power range
    consists of the smallest and the largest label value of the records,
    so it bounds every label value and starts at or above the noise
    floor. *)
Theorem merge_statistics_bounds (self : DatasetMerger) :
  produced self <> [] ->
  let s := statistics (fst (merge_datasets self)) in
  0 <= average_time_diff s
  /\ max_time_diff s ∈ map time_diff (produced self)
  /\ (forall m, m ∈ produced self ->
        0 <= time_diff m <= max_time_diff s)
  /\ max_time_diff s <= time_tolerance self
  /\ fst (power_range s) ∈ map power_watts (produced self)
  /\ snd (power_range s) ∈ map power_watts (produced self)
  /\ (forall m, m ∈ produced self ->
        fst (power_range s) <= power_watts m <= snd (power_range s))
  /\ min_power_threshold self <= fst (power_range s).
Proof.
  intros Hne s. subst s.
  destruct (loaded_or_not self) as [Hun | [Hv Hb]].
  { by rewrite (produced_unloaded self Hun) in Hne. }
  destruct (statistics_of_loop self Hv Hb) as [-> _].
  destruct (loop_variables self Hv Hb) as (_ & Htd & Hpv).
  unfold update_statistics.
  cbn [average_time_diff max_time_diff power_range].
  rewrite Htd, Hpv.
  pose proof (produced_sound self) as Hsound.
  rewrite list.Forall_forall in Hsound.
  destruct (produced_records self) as [_ Hlab].
  rewrite list.Forall_forall in Hlab.
  destruct (produced self) as [|m ms] eqn:Ep; [done|].
  cbn [map fst snd].
  assert (Hdiffs : forall r, r ∈ m :: ms ->
            0 <= time_diff r <= time_tolerance self).
  { intros r Hr. destruct (Hsound r Hr) as (H1 & H2 & _). split; [|done].
    rewrite H2. apply Qabs_nonneg. }
  pose proof (list_maxQ_elem (time_diff m) (map time_diff ms)) as Hmax.
  pose proof (list_maxQ_ge (time_diff m) (map time_diff ms)) as [Hge1 Hge2].
  pose proof (list_minQ_elem (power_watts m) (map power_watts ms)) as Hmin.
  pose proof (list_maxQ_elem (power_watts m) (map power_watts ms)) as Hpmax.
  pose proof (list_minQ_le (power_watts m) (map power_watts ms)) as [Hle1 Hle2].
  pose proof (list_maxQ_ge (power_watts m) (map power_watts ms)) as [Hpg1 Hpg2].
  rewrite list.Forall_forall in Hge2, Hle2, Hpg2.
  split_and!.
  - apply mean_nonneg. change (time_diff m :: map time_diff ms)
      with (map time_diff (m :: ms)).
    apply list.Forall_forall. intros d Hd.
    apply list_elem_of_fmap in Hd as (r & -> & Hr). by apply Hdiffs.
  - exact Hmax.
  - intros r Hr. split; [by apply Hdiffs|].
    apply elem_of_cons in Hr as [-> | Hr]; [done|].
    apply Hge2, list_elem_of_fmap. by exists r.
  - change (time_diff m :: map time_diff ms)
      with (map time_diff (m :: ms)) in Hmax.
    apply list_elem_of_fmap in Hmax as (r & -> & Hr). by apply Hdiffs.
  - exact Hmin.
  - exact Hpmax.
  - intros r Hr. apply elem_of_cons in Hr as [-> | Hr]; [done|].
    split; [apply Hle2 | apply Hpg2]; apply list_elem_of_fmap; by exists r.
  - change (power_watts m :: map power_watts ms)
      with (map power_watts (m :: ms)) in Hmin.
    apply list_elem_of_fmap in Hmin as (r & -> & Hr).
    by destruct (Hlab r Hr) as [H _].
Qed.

End MergeRun.

Section MergeRunExamples.

Import Merge MergeIO.

Lemma merge_matches_globally_closest_witness :
  (forall q, q ∈ bm_data scenario ->
     time_diff scenario_first
     <= Qabs (pp_timestamp q - timestamp (mp_vm scenario_first)))
  /\ Forall2 (fun vm o => o = NoTemporalMatch ->
                forall q, q ∈ bm_data scenario ->
                  time_tolerance scenario < Qabs (pp_timestamp q - timestamp vm))
       (vm_data scenario) (outcomes scenario (loop_start scenario) (vm_data scenario)).
Proof.
  destruct (merge_matches_globally_closest scenario
              (proj1 scenario_sorted) (proj2 scenario_sorted)) as [H1 H2].
  split; [|exact H2].
  apply H1. vm_compute. left.
Defined.

Lemma produced_records_ordered_and_labelled_witness :
  map mp_vm (produced scenario) `sublist_of` vm_data scenario
  /\ min_power_threshold scenario <= power_watts scenario_first
  /\ mp_power_zone scenario_first = power_zone scenario.
Proof.
  destruct (produced_records_ordered_and_labelled scenario) as (H1 & _ & H2).
  split; [exact H1|].
  destruct (H2 scenario_first) as (H3 & H4 & _); [vm_compute; left|].
  by split.
Defined.

Lemma merge_accounting_witness :
  snd (merge_datasets scenario) = true
  /\ matched_points (statistics (fst (merge_datasets scenario))) = 2%Z
  /\ unmatched_vm_points (statistics (fst (merge_datasets scenario))) = 2%Z.
Proof.
  destruct (merge_accounting scenario) as [H1 H2].
  assert (Hp : produced scenario <> []) by (vm_compute; discriminate).
  split; [by apply H1|].
  destruct H2 as (H3 & H4 & _); [done | done |].
  change (length (produced scenario)) with 2%nat in H3.
  change (length (vm_data scenario)) with 4%nat in H4.
  split; [exact H3 | lia].
Defined.

Lemma merge_statistics_bounds_witness :
  0 <= average_time_diff (statistics (fst (merge_datasets scenario)))
  /\ max_time_diff (statistics (fst (merge_datasets scenario)))
     <= time_tolerance scenario
  /\ min_power_threshold scenario
     <= fst (power_range (statistics (fst (merge_datasets scenario)))).
Proof.
  assert (Hp : produced scenario <> []) by (vm_compute; discriminate).
  destruct (merge_statistics_bounds scenario Hp)
    as (H1 & _ & _ & H3 & _ & _ & _ & H5).
  by split_and!.
Defined.

End MergeRunExamples.

(** ** merge_datasets.py: loading *)

Section Sorting.

Import Merge MergeIO.

Context {A : Type} (key : A -> Q).

Local Abbreviation sorted := (StronglySorted (fun a b => key a <= key b)).

Lemma insert_by_perm x l : insert_by key x l ≡ₚ x :: l.
Proof.
  induction l as [|y l IH]; simpl; [done|].
  destruct (Qlt_bool (key x) (key y)); [done|].
  rewrite IH. apply Permutation_swap.
Qed.

Lemma insert_by_sorted x l : sorted l -> sorted (insert_by key x l).
Proof.
  induction 1 as [|y l Hs IH Hy]; simpl.
  - repeat constructor.
  - destruct (Qlt_bool (key x) (key y)) eqn:E.
    + apply Qlt_bool_iff in E. constructor; [by constructor|].
      constructor; [lra|]. eapply Forall_impl; [exact Hy|]. simpl. intros; lra.
    + unfold Qlt_bool in E. apply negb_false_iff, Qle_bool_iff in E.
      constructor; [done|].
      rewrite (insert_by_perm x l). by constructor.
Qed.

Lemma sort_by_snoc l x : sort_by key (l ++ [x]) = insert_by key x (sort_by key l).
Proof. unfold sort_by. by rewrite fold_left_app. Qed.

Lemma sort_by_perm l : sort_by key l ≡ₚ l.
Proof.
  induction l as [|x l IH] using rev_ind; [done|].
  rewrite sort_by_snoc, insert_by_perm, IH.
  by rewrite Permutation_cons_append.
Qed.

Lemma sort_by_sorted l : sorted (sort_by key l).
Proof.
  induction l as [|x l IH] using rev_ind; [constructor|].
  rewrite sort_by_snoc. by apply insert_by_sorted.
Qed.

(** Stability: the elements with a given key come out in the order in
    which they went in. *)
Lemma insert_by_stable (k : Q) x l :
  sorted l ->
  List.filter (fun y => Qeq_bool (key y) k) (insert_by key x l)
  = List.filter (fun y => Qeq_bool (key y) k) l
    ++ List.filter (fun y => Qeq_bool (key y) k) [x].
Proof.
  induction 1 as [|y l Hs IH Hy].
  - simpl. by destruct (Qeq_bool (key x) k).
  - cbn [insert_by]. destruct (Qlt_bool (key x) (key y)) eqn:E.
    + apply Qlt_bool_iff in E.
      set (F := List.filter (fun z => Qeq_bool (key z) k) (y :: l)).
      cbn [List.filter]. destruct (Qeq_bool (key x) k) eqn:Ex.
      * apply Qeq_bool_iff in Ex.
        assert (Hy' : Forall (fun z => Qeq_bool (key z) k = false) (y :: l)).
        { constructor.
          - apply not_true_iff_false. intros Hz. apply Qeq_bool_iff in Hz. lra.
          - eapply Forall_impl; [exact Hy|]. simpl. intros z Hz.
            apply not_true_iff_false. intros Hk. apply Qeq_bool_iff in Hk. lra. }
        assert (Hnone : F = []).
        { subst F. clear -Hy'. induction Hy' as [|z l' Hz _ IH]; [done|].
          cbn [List.filter]. by rewrite Hz. }
        rewrite Hnone. subst F. cbn [List.filter] in Hnone. by rewrite Hnone.
      * by rewrite app_nil_r.
    + cbn [List.filter]. rewrite IH.
      destruct (Qeq_bool (key y) k); [|done]. done.
Qed.

Lemma sort_by_stable (k : Q) l :
  List.filter (fun y => Qeq_bool (key y) k) (sort_by key l)
  = List.filter (fun y => Qeq_bool (key y) k) l.
Proof.
  induction l as [|x l IH] using rev_ind; [done|].
  rewrite sort_by_snoc, insert_by_stable by apply sort_by_sorted.
  by rewrite IH, List.filter_app.
Qed.

(** The first and last keys of a sorted list bound all its keys. *)
Lemma time_range_of_sorted l :
  l <> [] -> sorted l ->
  Forall (fun x => fst (time_range_of (map key l)) <= key x
                   <= snd (time_range_of (map key l))) l.
Proof.
  intros Hne Hs. unfold time_range_of. cbn [fst snd].
  apply list.Forall_forall. intros x Hx.
  apply list_elem_of_lookup in Hx as [i Hi].
  destruct l as [|a l]; [done|]. cbn [map hd].
  assert (Hlast : exists z, (a :: l) !! length l = Some z
                            /\ List.last (key a :: map key l) 0 = key z).
  { destruct (lookup_lt_is_Some_2 (a :: l) (length l)) as [z Hz];
      [simpl; lia|].
    exists z. split; [done|].
    clear -Hz. revert a Hz. induction l as [|b l IH]; intros a Hz.
    - simpl in *. by injection Hz as <-.
    - simpl in Hz. specialize (IH b Hz).
      change (map key (b :: l)) with (key b :: map key l).
      by rewrite <- IH. }
  destruct Hlast as (z & Hz & ->).
  assert (Hmono : forall (i j : nat) u v, (i <= j)%nat ->
            (a :: l) !! i = Some u -> (a :: l) !! j = Some v -> key u <= key v).
  { clear -Hs. induction Hs as [|y l' Hs IH Hy]; intros i j u v Hij Hu Hv;
      [done|].
    destruct i as [|i], j as [|j]; simpl in *; try lia.
    - injection Hu as <-. injection Hv as <-. lra.
    - injection Hu as <-. rewrite list.Forall_forall in Hy.
      apply Hy. by eapply list_elem_of_lookup_2.
    - eapply (IH i j); [lia | done | done]. }
  split.
  - eapply (Hmono 0%nat i); [lia | done | done].
  - apply lookup_lt_Some in Hi as Hlt. simpl in Hlt.
    eapply (Hmono i (length l)); [lia | done | done].
Qed.

End Sorting.

Section Loading.

Import Merge MergeIO.

Lemma sort_by_nonempty {A} (key : A -> Q) (data : list A) :
  data <> [] -> sort_by key data <> [].
Proof.
  intros Hne Hnil. pose proof (sort_by_perm key data) as Hp.
  rewrite Hnil in Hp. by apply Permutation_nil_l in Hp.
Qed.

Lemma load_vm_features_sorted (self : DatasetMerger) (vms : list VMPoint) :
  vms <> [] ->
  let rv := load_vm_features self (Some vms) in
  snd rv = true
  /\ vm_data (fst rv) = sort_by timestamp vms
  /\ vm_feature_points (statistics (fst rv)) = Z.of_nat (length vms)
  /\ time_range_vm (statistics (fst rv))
     = time_range_of (map timestamp (sort_by timestamp vms))
  /\ bm_data (fst rv) = bm_data self
  /\ merged_data (fst rv) = merged_data self.
Proof.
  intros Hv rv. subst rv. destruct vms as [|v vs]; [done|].
  cbn [load_vm_features fst snd set_vm_data vm_data bm_data merged_data
       statistics with_vm_range vm_feature_points time_range_vm].
  split_and!; try done.
  by rewrite (sort_by_perm timestamp (v :: vs)).
Qed.

Lemma load_bm_power_sorted (self : DatasetMerger) (bms : list PowerPoint) :
  bms <> [] ->
  let rb := load_bm_power self (Some bms) in
  snd rb = true
  /\ bm_data (fst rb) = sort_by pp_timestamp bms
  /\ bm_power_points (statistics (fst rb)) = Z.of_nat (length bms)
  /\ time_range_bm (statistics (fst rb))
     = time_range_of (map pp_timestamp (sort_by pp_timestamp bms))
  /\ vm_data (fst rb) = vm_data self
  /\ merged_data (fst rb) = merged_data self
  /\ vm_feature_points (statistics (fst rb))
     = vm_feature_points (statistics self).
Proof.
  intros Hb rb. subst rb. destruct bms as [|b bs]; [done|].
  cbn [load_bm_power fst snd set_bm_data vm_data bm_data merged_data
       statistics with_bm_range bm_power_points time_range_bm
       vm_feature_points].
  split_and!; try done.
  by rewrite (sort_by_perm pp_timestamp (b :: bs)).
Qed.

(** X6.  Loading non-empty inputs succeeds and stores them in ascending
    timestamp order, as a rearrangement of the input in which points with
    equal timestamps keep their input order; the recorded count is the
    input length and the recorded time range bounds every timestamp.
    Each loader leaves the other sequence untouched. *)
Theorem loaders_sort_stably (self : DatasetMerger)
    (vms : list VMPoint) (bms : list PowerPoint) :
  vms <> [] -> bms <> [] ->
  let rv := load_vm_features self (Some vms) in
  let rb := load_bm_power self (Some bms) in
  (snd rv = true
   /\ vm_data (fst rv) ≡ₚ vms
   /\ sorted_features (vm_data (fst rv))
   /\ (forall k, List.filter (fun p => Qeq_bool (timestamp p) k) (vm_data (fst rv))
                 = List.filter (fun p => Qeq_bool (timestamp p) k) vms)
   /\ vm_feature_points (statistics (fst rv)) = Z.of_nat (length vms)
   /\ (forall p, p ∈ vms ->
         fst (time_range_vm (statistics (fst rv))) <= timestamp p
         <= snd (time_range_vm (statistics (fst rv))))
   /\ bm_data (fst rv) = bm_data self)
  /\ (snd rb = true
      /\ bm_data (fst rb) ≡ₚ bms
      /\ sorted_labels (bm_data (fst rb))
      /\ (forall k, List.filter (fun p => Qeq_bool (pp_timestamp p) k) (bm_data (fst rb))
                    = List.filter (fun p => Qeq_bool (pp_timestamp p) k) bms)
      /\ bm_power_points (statistics (fst rb)) = Z.of_nat (length bms)
      /\ (forall p, p ∈ bms ->
            fst (time_range_bm (statistics (fst rb))) <= pp_timestamp p
            <= snd (time_range_bm (statistics (fst rb))))
      /\ vm_data (fst rb) = vm_data self).
Proof.
  intros Hv Hb rv rb. subst rv rb. split.
  - destruct (load_vm_features_sorted self vms Hv)
      as (H1 & H2 & H3 & H4 & H5 & _).
    rewrite H2, H4. split_and!; try done.
    + apply sort_by_perm.
    + apply sort_by_sorted.
    + intros k. apply sort_by_stable.
    + intros p Hp.
      pose proof (time_range_of_sorted timestamp _
                    (sort_by_nonempty timestamp vms Hv)
                    (sort_by_sorted timestamp vms)) as Hr.
      rewrite list.Forall_forall in Hr. apply Hr.
      by rewrite (sort_by_perm timestamp vms).
  - destruct (load_bm_power_sorted self bms Hb)
      as (H1 & H2 & H3 & H4 & H5 & _).
    rewrite H2, H4. split_and!; try done.
    + apply sort_by_perm.
    + apply sort_by_sorted.
    + intros k. apply sort_by_stable.
    + intros p Hp.
      pose proof (time_range_of_sorted pp_timestamp _
                    (sort_by_nonempty pp_timestamp bms Hb)
                    (sort_by_sorted pp_timestamp bms)) as Hr.
      rewrite list.Forall_forall in Hr. apply Hr.
      by rewrite (sort_by_perm pp_timestamp bms).
Qed.

(** X7.  The command-line run on two non-empty inputs in any order:
    every record pairs an input feature with a label at the smallest
    distance any input label has from it; the statistics count every
    input feature once; the match rate lies between 0 and 100; and
    whenever the match rate of a run with matches is below 80, the
    synchronization hint is among the recommendations. *)
Theorem run_merge_end_to_end (tol thr : Q) (zone : string)
    (vms : list VMPoint) (bms : list PowerPoint) :
  vms <> [] -> bms <> [] ->
  let loaded :=
    fst (load_bm_power (fst (load_vm_features (init tol thr zone) (Some vms)))
           (Some bms)) in
  let result := fst (run_merge tol thr zone vms bms) in
  let s := statistics result in
  merged_data result = produced loaded
  /\ (forall m, m ∈ merged_data result ->
        mp_vm m ∈ vms
        /\ forall q, q ∈ bms ->
             time_diff m <= Qabs (pp_timestamp q - timestamp (mp_vm m)))
  /\ vm_feature_points s = (matched_points s + unmatched_vm_points s)%Z
  /\ 0 <= data_quality s <= 100
  /\ ((0 < matched_points s)%Z -> data_quality s < 80 ->
      CheckSynchronization ∈ recommendations result).
Proof.
  intros Hv Hb loaded result s.
  destruct (load_vm_features_sorted (init tol thr zone) vms Hv)
    as (_ & Hvd & Hvn & _ & _ & Hvmd).
  set (m1 := fst (load_vm_features (init tol thr zone) (Some vms))) in *.
  destruct (load_bm_power_sorted m1 bms Hb)
    as (_ & Hbd & _ & _ & Hkeep & Hbmd & Hbn).
  fold loaded in Hbd, Hkeep, Hbmd, Hbn.
  assert (Hbp : bm_data loaded ≡ₚ bms).
  { rewrite Hbd. apply sort_by_perm. }
  assert (Hbs : sorted_labels (bm_data loaded)).
  { rewrite Hbd. apply sort_by_sorted. }
  assert (Hvm : vm_data loaded ≡ₚ vms).
  { rewrite Hkeep, Hvd. apply sort_by_perm. }
  assert (Hvsorted : sorted_features (vm_data loaded)).
  { rewrite Hkeep, Hvd. apply sort_by_sorted. }
  assert (Hvne : vm_data loaded <> []).
  { intros Hnil. rewrite Hnil in Hvm. by apply Permutation_nil_l in Hvm. }
  assert (Hbne : bm_data loaded <> []).
  { intros Hnil. rewrite Hnil in Hbp. by apply Permutation_nil_l in Hbp. }
  assert (Hmd : merged_data loaded = []) by (by rewrite Hbmd, Hvmd).
  assert (Hvfp : vm_feature_points (statistics loaded) = Z.of_nat (length vms)).
  { by rewrite Hbn. }
  assert (Hres : result = fst (merge_datasets loaded)) by done.
  destruct (produced_spec loaded) as (Hprod & _).
  rewrite Hmd in Hprod. cbn [app] in Hprod. rewrite <- Hres in Hprod.
  pose proof (produced_closest loaded Hvsorted Hbs) as Hclosest.
  destruct (produced_records loaded) as [Hsub _].
  destruct (merge_counts loaded Hvne Hbne) as (Hm & Hsum & Hun).
  rewrite <- Hres in Hm, Hsum, Hun.
  fold s in Hm, Hsum, Hun.
  assert (Hs_vfp : vm_feature_points s = Z.of_nat (length vms)).
  { subst s. rewrite Hres.
    destruct (statistics_of_loop loaded Hvne Hbne) as [-> _].
    unfold update_statistics. cbn [vm_feature_points]. exact Hvfp. }
  assert (Hlen : length (vm_data loaded) = length vms) by (by rewrite Hvm).
  assert (Hpos : (0 < Z.of_nat (length vms))%Z).
  { destruct vms; [done|]. simpl. lia. }
  assert (Hmatched : (0 <= matched_points s)%Z) by lia.
  assert (Hquality : data_quality s
            == inject_Z (matched_points s) / inject_Z (Z.of_nat (length vms)) * 100).
  { unfold data_quality. rewrite Hs_vfp. by rewrite Z.max_r by lia. }
  assert (HN : 0 < inject_Z (Z.of_nat (length vms))).
  { by rewrite <- (Zlt_Qlt 0). }
  assert (HM : 0 <= inject_Z (matched_points s)).
  { by rewrite <- (Zle_Qle 0). }
  assert (HMN : inject_Z (matched_points s) + inject_Z (unmatched_vm_points s)
                == inject_Z (Z.of_nat (length vms))).
  { rewrite <- inject_Z_plus. by rewrite Hsum, Hlen. }
  assert (HU : 0 <= inject_Z (unmatched_vm_points s)).
  { by rewrite <- (Zle_Qle 0). }
  assert (Hratio : 0 <= inject_Z (matched_points s)
                          / inject_Z (Z.of_nat (length vms)) <= 1).
  { split.
    - apply Qle_shift_div_l; [done|]. lra.
    - apply Qle_shift_div_r; [done|]. lra. }
  split_and!.
  - done.
  - intros m Hm'. rewrite Hprod in Hm'. split.
    + rewrite <- Hvm. eapply elem_of_sublist; [|exact Hsub].
      apply list_elem_of_fmap. by exists m.
    + intros q Hq. apply Hclosest; [done|]. by rewrite Hbp.
  - rewrite Hs_vfp. lia.
  - rewrite Hquality. lra.
  - rewrite Hquality. lra.
  - intros Hmpos Hlow. unfold recommendations. fold s.
    assert (Hm1 : (0 <? matched_points s)%Z = true) by (by apply Z.ltb_lt).
    assert (Hq80 : Qlt_bool (data_quality s) 80 = true) by (by apply Qlt_bool_iff).
    rewrite Hm1, Hq80. cbn [andb].
    assert (Hsync : Qlt_bool (inject_Z (matched_points s) * (2 # 10))
                      (inject_Z (unmatched_vm_points s)) = true).
    { apply Qlt_bool_iff. rewrite Hquality in Hlow.
      assert (Hlt : inject_Z (matched_points s)
                    < (8 # 10) * inject_Z (Z.of_nat (length vms))).
      { apply Qnot_le_lt. intros Hge.
        assert (8 # 10 <= inject_Z (matched_points s)
                           / inject_Z (Z.of_nat (length vms))).
        { apply Qle_shift_div_l; [done|]. lra. }
        lra. }
      assert (HMpos : 0 < inject_Z (matched_points s)).
      { by rewrite <- (Zlt_Qlt 0). }
      lra. }
    rewrite Hsync. apply elem_of_app. right. apply elem_of_app. left. by left.
Qed.

End Loading.

Section LoadingExamples.

Import Merge MergeIO.

Lemma loaders_sort_stably_witness :
  vm_data (fst (load_vm_features (init (2 # 10) 0 "core") (Some shuffled_features)))
  = vm_data scenario
  /\ sorted_labels
       (bm_data (fst (load_bm_power (init (2 # 10) 0 "core") (Some shuffled_labels))))
  /\ bm_data (fst (load_bm_power (init (2 # 10) 0 "core") (Some shuffled_labels)))
     ≡ₚ shuffled_labels.
Proof.
  destruct (loaders_sort_stably (init (2 # 10) 0 "core")
              shuffled_features shuffled_labels)
    as [_ (_ & Hperm & Hsorted & _)]; [done | done |].
  split; [reflexivity|]. by split.
Defined.

Lemma run_merge_end_to_end_witness :
  length (merged_data (fst (run_merge (2 # 10) 0 "core"
                              shuffled_features shuffled_labels))) = 2%nat
  /\ (forall m, m ∈ merged_data (fst (run_merge (2 # 10) 0 "core"
                                        shuffled_features shuffled_labels)) ->
        forall q, q ∈ shuffled_labels ->
          time_diff m <= Qabs (pp_timestamp q - timestamp (mp_vm m)))
  /\ CheckSynchronization
     ∈ recommendations (fst (run_merge (2 # 10) 0 "core"
                               shuffled_features shuffled_labels)).
Proof.
  destruct (run_merge_end_to_end (2 # 10) 0 "core"
              shuffled_features shuffled_labels)
    as (_ & Hclosest & _ & _ & Hrec); [done | done |].
  split_and!.
  - reflexivity.
  - intros m Hm. by apply Hclosest.
  - apply Hrec; by vm_compute.
Defined.

End LoadingExamples.

(** ** merge_datasets.py: the column order of the CSV export *)

Section CsvExport.

Import Merge MergeIO.

Lemma filter_elem_of {A} (P : A -> bool) (l : list A) x :
  x ∈ List.filter P l <-> x ∈ l /\ P x = true.
Proof. rewrite !list_elem_of_In. apply List.filter_In. Qed.

Lemma filter_all {A} (P : A -> bool) (l : list A) :
  (forall x, x ∈ l -> P x = true) -> List.filter P l = l.
Proof.
  induction l as [|y l IH]; intros H; [done|]. simpl.
  rewrite (H y) by by left. f_equal. apply IH. intros x Hx. apply H. by right.
Qed.

Lemma mem_true col cols : mem col cols = true <-> col ∈ cols.
Proof. unfold mem. apply bool_decide_eq_true. Qed.

Lemma important_not_feature col :
  col ∈ important_cols -> is_feature_col col = false.
Proof.
  unfold important_cols. intros H.
  repeat (apply elem_of_cons in H as [-> | H]; [reflexivity|]).
  by apply elem_of_nil in H.
Qed.

(** X8.  The column order written by [_save_as_csv] keeps every column of
    the frame exactly once: first the important columns that are present,
    in their fixed order, then the feature columns and then the remaining
    columns, each group in the order of the frame. *)
Theorem ordered_cols_rearranges (columns : list string) :
  NoDup columns ->
  ordered_cols columns ≡ₚ columns
  /\ ordered_cols columns
     = List.filter (fun col => mem col columns) important_cols
       ++ List.filter is_feature_col columns
       ++ List.filter (fun col => negb (mem col important_cols)
                                  && negb (is_feature_col col)) columns.
Proof.
  intros Hnd.
  assert (Hform : ordered_cols columns
     = List.filter (fun col => mem col columns) important_cols
       ++ List.filter is_feature_col columns
       ++ List.filter (fun col => negb (mem col important_cols)
                                  && negb (is_feature_col col)) columns).
  { unfold ordered_cols. rewrite !List.filter_app. f_equal. f_equal.
    - apply filter_all. intros x Hx. apply mem_true.
      by apply filter_elem_of in Hx as [Hx _].
    - rewrite filter_all.
      2:{ intros x Hx. apply mem_true. by apply filter_elem_of in Hx as [Hx _]. }
      apply List.filter_ext_in. intros x Hx. apply list_elem_of_In in Hx.
      destruct (mem x (important_cols ++ List.filter is_feature_col columns))
        eqn:Hall;
        destruct (mem x important_cols) eqn:Hi;
        destruct (is_feature_col x) eqn:Hf; try reflexivity; exfalso.
      + apply mem_true in Hall. apply elem_of_app in Hall as [Hall | Hall].
        * apply mem_true in Hall. congruence.
        * apply filter_elem_of in Hall as [_ Hall]. congruence.
      + apply not_true_iff_false in Hall. apply Hall, mem_true.
        apply elem_of_app. left. by apply mem_true.
      + apply not_true_iff_false in Hall. apply Hall, mem_true.
        apply elem_of_app. left. by apply mem_true.
      + apply not_true_iff_false in Hall. apply Hall, mem_true.
        apply elem_of_app. right. by apply filter_elem_of. }
  split; [|exact Hform]. rewrite Hform.
  apply NoDup_Permutation; [|done|].
  - apply NoDup_app. split_and!.
    + apply NoDup_ListNoDup, List.NoDup_filter, NoDup_ListNoDup.
      apply (bool_decide_unpack _). by vm_compute.
    + intros x Hx Hx'. apply filter_elem_of in Hx as [Himp _].
      apply elem_of_app in Hx' as [Hx' | Hx'];
        apply filter_elem_of in Hx' as [_ Hx'].
      * by rewrite (important_not_feature x Himp) in Hx'.
      * apply andb_prop in Hx' as [Hx' _]. apply negb_true_iff in Hx'.
        apply mem_true in Himp. congruence.
    + apply NoDup_app. split_and!.
      * by apply NoDup_ListNoDup, List.NoDup_filter, NoDup_ListNoDup.
      * intros x Hx Hx'. apply filter_elem_of in Hx as [_ Hf].
        apply filter_elem_of in Hx' as [_ Hx'].
        apply andb_prop in Hx' as [_ Hx']. apply negb_true_iff in Hx'. congruence.
      * by apply NoDup_ListNoDup, List.NoDup_filter, NoDup_ListNoDup.
  - intros x. rewrite !elem_of_app, !filter_elem_of. split.
    + intros [[_ H] | [[H _] | [H _]]]; [by apply mem_true in H | done | done].
    + intros Hx. destruct (mem x important_cols) eqn:Hi.
      * left. split; [by apply mem_true in Hi | by apply mem_true].
      * destruct (is_feature_col x) eqn:Hf; [right; left; by split|].
        right. right. by split.
Qed.

End CsvExport.

Section CsvExportExamples.

Import MergeIO.

Lemma ordered_cols_rearranges_witness :
  ordered_cols example_columns ≡ₚ example_columns
  /\ ordered_cols example_columns
     = ["timestamp"; "power_watts"; "cpu_cycles"; "sys_procs_running";
        "vm_hostname"].
Proof.
  destruct (ordered_cols_rearranges example_columns) as [H1 H2].
  { apply (bool_decide_unpack _). by vm_compute. }
  split; [exact H1|]. rewrite H2. reflexivity.
Defined.

End CsvExportExamples.

(** ** merge_datasets.py: the cursor *)

Section Cursor.

Import Merge MergeIO.

Lemma merge_loop_snoc self st vms vm :
  merge_loop self st (vms ++ [vm]) = merge_step self (merge_loop self st vms) vm.
Proof. unfold merge_loop. by rewrite fold_left_app. Qed.

(** X9.  At every point of the loop the cursor is a valid start for the
    search: it is never negative and never beyond the last label; and
    one feature moves it back by at most one position. *)
Theorem cursor_stays_in_range (self : DatasetMerger) (k : nat) :
  let st := merge_loop self (loop_start self) (take k (vm_data self)) in
  (0 <= bm_search_start st)%Z
  /\ (bm_search_start st <= Z.max 0 (Z.of_nat (length (bm_data self)) - 1))%Z
  /\ forall vm, (bm_search_start st - 1
                 <= bm_search_start (merge_step self st vm))%Z.
Proof.
  induction k as [|k IH].
  - rewrite take_0. cbn [merge_loop fold_left loop_start bm_search_start].
    split_and!; [lia | lia |].
    intros vm. apply (merge_step_cursor_bounds self (loop_start self) vm);
      cbn [loop_start bm_search_start]; lia.
  - destruct (vm_data self !! k) as [vm|] eqn:Hk.
    + rewrite (take_S_r _ _ _ Hk), merge_loop_snoc.
      destruct IH as (H0 & Hlen & _).
      set (st := merge_loop self (loop_start self) (take k (vm_data self))) in *.
      destruct (merge_step_cursor_bounds self st vm H0 Hlen) as (H1 & H2 & _).
      split_and!; [done | done |].
      intros vm'. by apply (merge_step_cursor_bounds self (merge_step self st vm) vm').
    + apply lookup_ge_None in Hk.
      rewrite take_ge by lia. rewrite take_ge in IH by lia. exact IH.
Qed.

End Cursor.

(** ** bm_power_collector.py *)

Section PowerMore.

Import Power PowerProbe.

Variable parse : string -> ZoneMetrics.

(** X10.  Filtering keeps the order of the readings, does nothing when
    neither names nor pattern are configured, gives the same result when
    applied twice, and keeps a reading whenever its name or id is a
    configured target or its non-empty name matches the configured
    pattern. *)
Theorem filter_vms_properties (self : Collector) (vm_list : list VMInfo) :
  _filter_vms self vm_list `sublist_of` vm_list
  /\ _filter_vms self (_filter_vms self vm_list) = _filter_vms self vm_list
  /\ (target_vms self = None -> vm_pattern self = None ->
      _filter_vms self vm_list = vm_list)
  /\ (forall names vm, target_vms self = Some names -> vm ∈ vm_list ->
        vm_name vm ∈ names \/ vm_id vm ∈ names ->
        vm ∈ _filter_vms self vm_list)
  /\ (forall search vm, vm_pattern self = Some search -> vm ∈ vm_list ->
        vm_name vm <> "" -> search (vm_name vm) = true ->
        vm ∈ _filter_vms self vm_list).
Proof.
  unfold _filter_vms, has_targets.
  set (keep := fun vm : VMInfo => _) .
  assert (Hidem : List.filter keep (List.filter keep vm_list)
                  = List.filter keep vm_list).
  { apply filter_all. intros x Hx. by apply filter_elem_of in Hx as [_ Hx]. }
  assert (Hsub : List.filter keep vm_list `sublist_of` vm_list).
  { clear. induction vm_list as [|x l IH]; [done|]. simpl.
    destruct (keep x); [by apply sublist_skip | by apply sublist_cons]. }
  split_and!.
  - by destruct (_ && _).
  - by destruct (_ && _).
  - intros -> ->. done.
  - intros names vm Hn Hvm Hin. rewrite Hn.
    assert (Hne : negb (bool_decide (names = ∅)) = true).
    { apply negb_true_iff, bool_decide_eq_false. intros ->.
      destruct Hin as [H|H]; by apply not_elem_of_empty in H. }
    rewrite Hne. cbn [negb andb].
    apply filter_elem_of. split; [done|]. subst keep. cbn beta.
    rewrite Hn, Hne. cbn [andb]. apply orb_true_iff. left.
    apply orb_true_iff. destruct Hin; [left | right]; by apply bool_decide_eq_true.
  - intros search vm Hp Hvm Hname Hs. rewrite Hp.
    replace (bool_decide (is_Some (Some search))) with true
      by (symmetry; by apply bool_decide_eq_true).
    rewrite andb_false_r.
    apply filter_elem_of. split; [done|]. subst keep. cbn beta.
    rewrite Hp. apply orb_true_iff. right.
    cbn [List.filter]. unfold nonempty_string at 1.
    replace (String.eqb (vm_name vm) "") with false
      by (symmetry; by apply String.eqb_neq).
    cbn [negb]. destruct (nonempty_string (vm_id vm)); cbn [existsb];
      by rewrite Hs.
Qed.

Lemma attempts_skip (self : Collector) responses target (k remaining attempt : nat) :
  (forall a, (attempt <= a < attempt + k)%nat -> responses a = RequestException) ->
  (attempt + k < max_retries self)%nat ->
  attempts parse self responses target (k + remaining) attempt
  = attempts parse self responses target remaining (attempt + k).
Proof.
  revert attempt. induction k as [|k IH]; intros attempt Hreq Hlt.
  - by rewrite Nat.add_0_r.
  - cbn [Nat.add attempts]. rewrite (Hreq attempt) by lia.
    replace (attempt <? max_retries self - 1)%nat with true
      by (symmetry; apply Nat.ltb_lt; lia).
    rewrite IH; [f_equal; lia | intros a Ha; apply Hreq; lia | lia].
Qed.

Lemma attempts_exhausted (self : Collector) responses target (remaining attempt : nat) :
  (forall a, (attempt <= a < attempt + remaining)%nat ->
     responses a = RequestException) ->
  attempts parse self responses target remaining attempt = None.
Proof.
  revert attempt. induction remaining as [|r IH]; intros attempt Hreq; [done|].
  cbn [attempts]. rewrite (Hreq attempt) by lia.
  destruct (_ <? _)%nat; [|done]. apply IH. intros a Ha. apply Hreq. lia.
Qed.

(** X11.  A scrape is attempted at most [max_retries] times.  Connection
    failures are retried; the first response that is not a connection
    failure decides the result: a body yields the data point built from
    it, any other exception yields nothing; and when every attempt fails
    to connect the result is nothing. *)
Theorem retry_policy (self : Collector) (responses : nat -> Response)
    (target : Q) :
  (forall (k : nat) text, (k < max_retries self)%nat ->
     (forall a, (a < k)%nat -> responses a = RequestException) ->
     responses k = Ok text ->
     collect_power_metrics_with_timestamp parse self responses target
     = build_data_point parse self target text)
  /\ (forall k : nat, (k < max_retries self)%nat ->
        (forall a, (a < k)%nat -> responses a = RequestException) ->
        responses k = OtherException ->
        collect_power_metrics_with_timestamp parse self responses target = None)
  /\ ((forall a, (a < max_retries self)%nat -> responses a = RequestException) ->
      collect_power_metrics_with_timestamp parse self responses target = None)
  /\ (forall responses',
        (forall a, (a < max_retries self)%nat -> responses' a = responses a) ->
        collect_power_metrics_with_timestamp parse self responses' target
        = collect_power_metrics_with_timestamp parse self responses target).
Proof.
  unfold collect_power_metrics_with_timestamp. split_and!.
  - intros k text Hk Hreq Hok.
    replace (max_retries self) with (k + (max_retries self - k))%nat at 1 by lia.
    rewrite attempts_skip; [|intros a Ha; apply Hreq; lia | lia].
    destruct (max_retries self - k)%nat as [|r] eqn:Hr; [lia|].
    cbn [attempts Nat.add]. by rewrite Hok.
  - intros k Hk Hreq Hother.
    replace (max_retries self) with (k + (max_retries self - k))%nat at 1 by lia.
    rewrite attempts_skip; [|intros a Ha; apply Hreq; lia | lia].
    destruct (max_retries self - k)%nat as [|r] eqn:Hr; [lia|].
    cbn [attempts Nat.add]. by rewrite Hother.
  - intros Hreq. apply attempts_exhausted. intros a Ha. apply Hreq. lia.
  - intros responses' Hsame.
    assert (Hgen : forall remaining attempt,
              (attempt + remaining <= max_retries self)%nat ->
              attempts parse self responses' target remaining attempt
              = attempts parse self responses target remaining attempt).
    { induction remaining as [|r IH]; intros attempt Hle; [done|].
      cbn [attempts]. rewrite Hsame by lia.
      destruct (responses attempt); [done | | done].
      destruct (_ <? _)%nat; [|done]. apply IH. lia. }
    apply Hgen. lia.
Qed.

(** What the loop does to its counters. *)
Lemma run_counters (self : Collector) start duration envs st :
  let final := run parse self start duration st envs in
  let passes := Z.of_nat (length (executed start duration envs)) in
  let samples := (Z.of_nat (length (ls_power_data final))
                  - Z.of_nat (length (ls_power_data st)))%Z in
  collection_count final = (collection_count st + passes)%Z
  /\ error_count final = (error_count st + 2 * (passes - samples))%Z
  /\ (0 <= samples <= passes)%Z.
Proof.
  revert st. induction envs as [|e envs IH]; intros st; cbn zeta.
  - cbn [run executed length]. lia.
  - cbn [run executed]. destruct (loop_test start duration e).
    + specialize (IH (cycle parse self start st e)). cbn zeta in IH.
      destruct IH as (H1 & H2 & H3). rewrite H1, H2. cbn [length].
      unfold cycle in *.
      destruct (collect_power_metrics_with_timestamp parse self (ce_responses e)
                  (target_time self start st));
        cbn [collection_count error_count ls_power_data] in *;
        rewrite ?length_app in *; cbn [length] in *; lia.
    + cbn [length]. lia.
Qed.

(** X12.  When [collect_power_data] returns, the pass counter equals the
    number of passes executed, every pass either added one sample or was
    counted as two errors, and the samples never outnumber the passes. *)
Theorem collection_accounting (self : Collector) (now duration : Q)
    (envs : list CycleEnv) :
  let final := collect_power_data parse self now duration envs in
  let passes :=
    Z.of_nat (length (executed (_wait_for_sync_start self now) duration envs)) in
  let samples := (Z.of_nat (length (ls_power_data final))
                  - Z.of_nat (length (power_data self)))%Z in
  collection_count final = passes
  /\ error_count final = (2 * (passes - samples))%Z
  /\ (0 <= samples <= passes)%Z.
Proof.
  cbn zeta. unfold collect_power_data.
  pose proof (run_counters (set_start self (_wait_for_sync_start self now))
                (_wait_for_sync_start self now) duration envs
                {| ls_power_data := power_data (set_start self (_wait_for_sync_start self now));
                   collection_count := 0; error_count := 0 |}) as H.
  cbn zeta in H. cbn [collection_count error_count ls_power_data] in H.
  cbn [set_start power_data] in *. lia.
Qed.

Lemma relative_time_lt (self : Collector) start (m m' : nat) :
  0 < c_collection_interval self -> (m < m')%nat ->
  relative_time self start m < relative_time self start m'.
Proof.
  intros Hi Hm. unfold relative_time.
  assert (inject_Z (Z.of_nat m) * c_collection_interval self
          < inject_Z (Z.of_nat m') * c_collection_interval self).
  { apply Qmult_lt_compat_r; [done|]. rewrite <- Zlt_Qlt. lia. }
  lra.
Qed.

Lemma relative_time_nonneg (self : Collector) start (m : nat) :
  0 < c_collection_interval self -> 0 <= relative_time self start m.
Proof.
  intros Hi. unfold relative_time.
  assert (0 <= inject_Z (Z.of_nat m) * c_collection_interval self).
  { apply Qmult_le_0_compat; [|lra]. rewrite <- (Zle_Qle 0). lia. }
  lra.
Qed.

Lemma cycle_sample_time (self : Collector) start (k : nat) e dp :
  collection_start_time self = Some start ->
  cycle_sample parse self start k e = Some dp ->
  timestamp dp = relative_time self start k.
Proof.
  intros Hs Hdp. unfold cycle_sample in Hdp.
  apply attempts_timestamp in Hdp as (_ & s & Hs' & ->).
  rewrite Hs in Hs'. by injection Hs' as <-.
Qed.

Lemma imap_shift {A B} (F : nat -> A -> B) (n : nat) x l :
  imap (fun k => F (n + k)%nat) (x :: l)
  = F n x :: imap (fun k => F (S n + k)%nat) l.
Proof.
  rewrite imap_cons. f_equal; [f_equal; lia|].
  apply imap_ext. intros i y _. simpl. f_equal. lia.
Qed.

Lemma samples_sorted (self : Collector) start cycles (n : nat) :
  collection_start_time self = Some start ->
  0 < c_collection_interval self ->
  let samples :=
    omap id (imap (fun k => cycle_sample parse self start (n + k)) cycles) in
  Forall (fun dp => exists m : nat, (n <= m)%nat
                      /\ timestamp dp = relative_time self start m) samples
  /\ StronglySorted (fun a b => timestamp a < timestamp b) samples.
Proof.
  intros Hs Hi. revert n. induction cycles as [|e cycles IH]; intros n; cbn zeta.
  - split; constructor.
  - rewrite (imap_shift (cycle_sample parse self start)). cbn [omap].
    destruct (IH (S n)) as [H1 H2].
    assert (H1' : Forall (fun dp => exists m : nat, (n <= m)%nat
                     /\ timestamp dp = relative_time self start m)
               (omap id (imap (fun k => cycle_sample parse self start (S n + k)) cycles))).
    { eapply Forall_impl; [exact H1|]. simpl. intros dp (m & Hm & Ht).
      exists m. split; [lia | done]. }
    destruct (cycle_sample parse self start n e) as [dp|] eqn:Hdp; cbn [id].
    + apply (cycle_sample_time self start n e dp Hs) in Hdp.
      split.
      * constructor; [|done]. exists n. split; [lia | done].
      * constructor; [done|].
        eapply Forall_impl; [exact H1|]. simpl. intros dp' (m & Hm & Ht).
        rewrite Hdp, Ht. apply relative_time_lt; [done | lia].
    + split; done.
Qed.

(** X13.  Started with no earlier samples and a positive interval,
    [collect_power_data] returns its samples in strictly increasing order
    of their relative timestamps, none of them negative: the sequence is
    ready for the merge without reordering. *)
Theorem samples_in_time_order (self : Collector) (now duration : Q)
    (envs : list CycleEnv) :
  power_data self = [] -> 0 < c_collection_interval self ->
  let samples := ls_power_data (collect_power_data parse self now duration envs) in
  StronglySorted (fun a b => timestamp a < timestamp b) samples
  /\ Forall (fun dp => 0 <= timestamp dp) samples.
Proof.
  intros Hempty Hi samples. subst samples. unfold collect_power_data.
  set (start := _wait_for_sync_start self now).
  destruct (run_spec parse (set_start self start) start duration envs
              {| ls_power_data := power_data (set_start self start);
                 collection_count := 0; error_count := 0 |} 0 eq_refl)
    as [_ H].
  rewrite H. cbn [ls_power_data set_start power_data]. rewrite Hempty.
  cbn [app].
  destruct (samples_sorted (set_start self start) start
              (executed start duration envs) 0 eq_refl Hi) as [H1 H2].
  split; [exact H2|].
  eapply Forall_impl; [exact H1|]. simpl. intros dp (m & _ & ->).
  by apply relative_time_nonneg.
Qed.

Lemma probe_attempts_start (self : Collector) responses nowp remaining attempt :
  let r := probe_attempts parse self responses nowp remaining attempt in
  (fst r = self
   /\ forall dp, snd r = Some dp ->
        exists a s, collection_start_time self = Some s
                    /\ timestamp dp = nowp a - s
                    /\ timestamp_absolute dp = nowp a)
  \/ (exists a, collection_start_time self = None
                /\ fst r = set_start self (nowp a)
                /\ forall dp, snd r = Some dp ->
                     timestamp dp = nowp a - nowp a
                     /\ timestamp_absolute dp = nowp a).
Proof.
  revert attempt. induction remaining as [|n IH]; intros attempt; cbn zeta.
  - left. by split.
  - cbn [probe_attempts]. destruct (responses attempt).
    + unfold probe_point, build_data_point.
      destruct (collection_start_time self) as [s|] eqn:Hs.
      * left. cbn [fst snd]. split; [done|]. rewrite Hs. cbn [mbind option_bind].
        intros dp [= <-]. exists attempt, s. by split_and!.
      * right. exists attempt. cbn [fst snd set_start collection_start_time].
        split_and!; [done | done |]. cbn [mbind option_bind].
        intros dp [= <-]. by split.
    + destruct (_ <? _)%nat; [apply IH|]. left. by split.
    + left. by split.
Qed.

(** X14.  The connectivity probe made before a collection does not move
    the schedule: [collect_power_data] re-anchors the collection start,
    so it returns the same result with or without the probe.  On a fresh
    collector a successful probe fixes the collection start at its own
    clock reading and reports relative time 0. *)
Theorem probe_then_collect (self : Collector) (responses : nat -> Response)
    (nowp : nat -> Q) (now duration : Q) (envs : list CycleEnv) :
  let r := collect_power_metrics parse self responses nowp in
  collect_power_data parse (fst r) now duration envs
  = collect_power_data parse self now duration envs
  /\ (forall dp, snd r = Some dp -> collection_start_time self = None ->
        timestamp dp == 0
        /\ collection_start_time (fst r) = Some (timestamp_absolute dp)).
Proof.
  cbn zeta. unfold collect_power_metrics.
  destruct (probe_attempts_start self responses nowp (max_retries self) 0)
    as [[Hf Hdp] | (a & Hs & Hf & Hdp)].
  - rewrite Hf. split; [done|]. intros dp Hsome Hnone.
    destruct (Hdp dp Hsome) as (a & s & Hs & _). congruence.
  - rewrite Hf. split; [done|]. intros dp Hsome _.
    destruct (Hdp dp Hsome) as [-> ->]. split; [lra | done].
Qed.

Lemma filter_set_zone (z z' : string) (l : list VMInfo) :
  List.filter (fun vm => String.eqb (zone vm) z) (map (set_zone z') l)
  = if String.eqb z' z then map (set_zone z') l else [].
Proof.
  induction l as [|vm l IH]; cbn [map List.filter set_zone zone].
  - by destruct (String.eqb z' z).
  - rewrite IH. by destruct (String.eqb z' z).
Qed.

Lemma map_watts_set_zone (z : string) (l : list VMInfo) :
  map watts (map (set_zone z) l) = map watts l.
Proof. rewrite map_map. reflexivity. Qed.

(** X15.  The per-VM entries stored in a data point account for its
    totals: the core (package) total is the sum of the wattages of the
    entries stored for that zone, [vm_count] is the number of core
    entries, and the entries are the filtered readings of the scrape, core
    first, each tagged with its zone and otherwise unchanged. *)
Theorem data_point_breakdown (self : Collector) (target_timestamp : Q)
    (text : string) (p : PowerDataPoint) :
  build_data_point parse self target_timestamp text = Some p ->
  total_cpu_watts_core p = sumQ (map watts (zone_entries "core" p))
  /\ total_cpu_watts_package p = sumQ (map watts (zone_entries "package" p))
  /\ vm_count p = Z.of_nat (length (zone_entries "core" p))
  /\ vms p = zone_entries "core" p ++ zone_entries "package" p
  /\ zone_entries "core" p
     = map (set_zone "core") (_filter_vms self (core (parse text)))
  /\ zone_entries "package" p
     = map (set_zone "package") (_filter_vms self (package (parse text))).
Proof.
  unfold build_data_point.
  destruct (collection_start_time self) as [start|]; [|done].
  cbn [mbind option_bind]. intros [= <-].
  unfold zone_entries.
  cbn [total_cpu_watts_core total_cpu_watts_package vm_count vms].
  rewrite !List.filter_app, !filter_set_zone.
  cbn [String.eqb Ascii.eqb Bool.eqb app].
  rewrite app_nil_r, !map_watts_set_zone, length_map.
  done.
Qed.

End PowerMore.

Section PowerExamples.

Import Power PowerProbe.

Lemma filter_vms_properties_witness :
  example_vm "core" (5 # 10)
  ∈ _filter_vms named_collector [other_vm; example_vm "core" (5 # 10)]
  /\ _filter_vms example_collector [other_vm] = [other_vm].
Proof.
  destruct (filter_vms_properties named_collector
              [other_vm; example_vm "core" (5 # 10)]) as (_ & _ & _ & Hname & _).
  destruct (filter_vms_properties example_collector [other_vm])
    as (_ & _ & Hall & _).
  split.
  - apply (Hname {["fedora40"]}); [reflexivity | | left].
    + apply elem_of_cons. right. apply elem_of_cons. by left.
    + by apply elem_of_singleton.
  - by apply Hall.
Defined.

Lemma retry_policy_witness :
  collect_power_metrics_with_timestamp example_parse example_collector flaky 100
  = build_data_point example_parse example_collector 100 ""
  /\ collect_power_metrics_with_timestamp example_parse example_collector
       (fun _ => RequestException) 100 = None.
Proof.
  destruct (retry_policy example_parse example_collector flaky 100)
    as (Hok & _).
  destruct (retry_policy example_parse example_collector
              (fun _ => RequestException) 100) as (_ & _ & Hnone & _).
  split.
  - apply (Hok 2%nat); [simpl; lia | | reflexivity].
    intros a Ha. unfold flaky.
    destruct (Nat.ltb_spec a 2); [reflexivity | lia].
  - by apply Hnone.
Defined.

Lemma samples_in_time_order_witness :
  StronglySorted (fun a b => timestamp a < timestamp b)
    (ls_power_data (collect_power_data example_parse example_collector
                      100 5 example_envs))
  /\ length (ls_power_data (collect_power_data example_parse example_collector
                              100 5 example_envs)) = 2%nat.
Proof.
  destruct (samples_in_time_order example_parse example_collector 100 5
              example_envs) as [H _]; [reflexivity | reflexivity |].
  split; [exact H | reflexivity].
Defined.

Lemma probe_then_collect_witness :
  exists dp,
    snd (collect_power_metrics example_parse example_collector
           (fun _ => Ok "") (fun _ => 99)) = Some dp
    /\ timestamp dp == 0
    /\ collection_start_time
         (fst (collect_power_metrics example_parse example_collector
                 (fun _ => Ok "") (fun _ => 99))) = Some 99.
Proof.
  destruct (probe_then_collect example_parse example_collector
              (fun _ => Ok "") (fun _ => 99) 100 5 example_envs) as [_ H].
  eexists. split; [reflexivity|].
  edestruct H as [H1 H2]; [reflexivity | reflexivity |].
  split; [exact H1 | exact H2].
Defined.

Lemma data_point_breakdown_witness :
  exists p,
    build_data_point example_parse (set_start example_collector 100) 100 ""
    = Some p
    /\ total_cpu_watts_core p = sumQ (map watts (zone_entries "core" p))
    /\ vms p = zone_entries "core" p ++ zone_entries "package" p.
Proof.
  eexists. split; [reflexivity|].
  edestruct (data_point_breakdown example_parse
               (set_start example_collector 100) 100 "")
    as (H1 & _ & _ & H4 & _); [reflexivity|].
  split; [exact H1 | exact H4].
Defined.

End PowerExamples.

(** ** bm_power_collector.py: the scrape parser *)

Section ScrapeParser.

Import Power PyStr PowerParse.

Variable py_float : string -> option Q.

Local Abbreviation parse_metric_line := (PowerParse.parse_metric_line py_float).
Local Abbreviation _parse_vm_metrics := (PowerParse._parse_vm_metrics py_float).

(** A reading a line contributes: the line is a sample line whose value
    text reads as the reading's wattage. *)
Local Abbreviation from_line line vm :=
  (String.prefix "kepler_vm_cpu_watts{" line = true
   /\ py_float (value_text line) = Some (watts vm)).

Lemma zone_app_empty_r m : zone_app m no_metrics = m.
Proof. destruct m. unfold zone_app. cbn. by rewrite !app_nil_r. Qed.

Lemma zone_app_empty_l m : zone_app no_metrics m = m.
Proof. by destruct m. Qed.

Lemma zone_app_assoc a b c :
  zone_app (zone_app a b) c = zone_app a (zone_app b c).
Proof. unfold zone_app. cbn. by rewrite !app_assoc. Qed.

Lemma append_zone_app m vm :
  append_zone m vm = zone_app m (append_zone no_metrics vm).
Proof.
  unfold append_zone.
  destruct (String.eqb (zone vm) "core").
  { unfold zone_app. cbn. by rewrite app_nil_r. }
  destruct (String.eqb (zone vm) "package").
  { unfold zone_app. cbn. by rewrite app_nil_r. }
  by rewrite zone_app_empty_r.
Qed.

(** One line leaves the readings as they are or appends one reading to
    the list of its zone. *)
Lemma parse_metric_line_cases m line :
  parse_metric_line m line = m
  \/ exists vm, from_line line vm
                /\ parse_metric_line m line = append_zone m vm.
Proof.
  unfold PowerParse.parse_metric_line.
  destruct (String.prefix "kepler_vm_cpu_watts{" line) eqn:Hp; [|by left].
  destruct (negb (length (split_on space line) =? 2)%nat); [by left|].
  destruct (py_float (item (split_on space line) 1)) as [value|] eqn:Hv;
    [|by left].
  right. eexists. split; [|reflexivity]. by split.
Qed.

Lemma parse_metric_line_app m line :
  parse_metric_line m line = zone_app m (parse_metric_line no_metrics line).
Proof.
  destruct (parse_metric_line_cases m line) as [Hm | (vm & _ & Hm)].
  - unfold PowerParse.parse_metric_line in *.
    destruct (String.prefix "kepler_vm_cpu_watts{" line);
      [|by rewrite zone_app_empty_r].
    destruct (negb (length (split_on space line) =? 2)%nat);
      [by rewrite zone_app_empty_r|].
    destruct (py_float (item (split_on space line) 1));
      [|by rewrite zone_app_empty_r].
    apply append_zone_app.
  - unfold PowerParse.parse_metric_line in *.
    destruct (String.prefix "kepler_vm_cpu_watts{" line);
      [|by rewrite zone_app_empty_r].
    destruct (negb (length (split_on space line) =? 2)%nat);
      [by rewrite zone_app_empty_r|].
    destruct (py_float (item (split_on space line) 1));
      [|by rewrite zone_app_empty_r].
    apply append_zone_app.
Qed.

Lemma parse_metric_lines_app lines m :
  fold_left parse_metric_line lines m
  = zone_app m (fold_left parse_metric_line lines no_metrics).
Proof.
  revert m. induction lines as [|line lines IH]; intros m.
  - cbn [fold_left]. by rewrite zone_app_empty_r.
  - cbn [fold_left].
    rewrite IH, (IH (parse_metric_line no_metrics line)).
    by rewrite (parse_metric_line_app m), zone_app_assoc.
Qed.

(** The invariant of the loop: every reading sits in the list of its own
    zone and comes from a sample line. *)
Lemma parse_metric_lines_inv lines m (P : VMInfo -> Prop) :
  (forall line vm, line ∈ lines -> from_line line vm -> P vm) ->
  Forall (fun vm => zone vm = "core" /\ P vm) (core m) ->
  Forall (fun vm => zone vm = "package" /\ P vm) (package m) ->
  Forall (fun vm => zone vm = "core" /\ P vm)
    (core (fold_left parse_metric_line lines m))
  /\ Forall (fun vm => zone vm = "package" /\ P vm)
       (package (fold_left parse_metric_line lines m)).
Proof.
  revert m. induction lines as [|line lines IH]; intros m HP Hc Hk.
  - by split.
  - cbn [fold_left]. apply IH.
    + intros l vm Hl. apply HP. by right.
    + destruct (parse_metric_line_cases m line) as [-> | (vm & Hvm & ->)];
        [done|].
      unfold append_zone.
      destruct (String.eqb (zone vm) "core") eqn:Ez; cbn [core].
      * apply Forall_app. split; [done|]. constructor; [|done].
        apply String.eqb_eq in Ez. split; [done|].
        eapply HP; [by left | done].
      * by destruct (String.eqb (zone vm) "package").
    + destruct (parse_metric_line_cases m line) as [-> | (vm & Hvm & ->)];
        [done|].
      unfold append_zone.
      destruct (String.eqb (zone vm) "core") eqn:Ez; cbn [package]; [done|].
      destruct (String.eqb (zone vm) "package") eqn:Ek; cbn [package]; [|done].
      apply Forall_app. split; [done|]. constructor; [|done].
      apply String.eqb_eq in Ek. split; [done|].
      eapply HP; [by left | done].
Qed.

Lemma parse_vm_metrics_inv text :
  Forall (fun vm => zone vm = "core"
                    /\ exists line, line ∈ split_on newline text
                                    /\ from_line line vm)
    (core (_parse_vm_metrics text))
  /\ Forall (fun vm => zone vm = "package"
                       /\ exists line, line ∈ split_on newline text
                                       /\ from_line line vm)
       (package (_parse_vm_metrics text)).
Proof.
  apply parse_metric_lines_inv; [|constructor|constructor].
  intros line vm Hl Hvm. by exists line.
Qed.

(** X16.  [_parse_vm_metrics] files every reading under its own zone:
    the readings of the core list have zone [core], those of the package
    list have zone [package], and samples of any other zone are dropped.
    Every reading comes from a line that starts with the metric name and
    whose text after its single space reads as the wattage; and the
    scrape is read line by line, so the readings of a text are those of
    its first part followed by those of the rest. *)
Theorem parse_vm_metrics_zones (text : string) :
  Forall (fun vm => zone vm = "core") (core (_parse_vm_metrics text))
  /\ Forall (fun vm => zone vm = "package") (package (_parse_vm_metrics text))
  /\ (forall vm,
        vm ∈ core (_parse_vm_metrics text) ++ package (_parse_vm_metrics text) ->
        exists line, line ∈ split_on newline text
                     /\ String.prefix "kepler_vm_cpu_watts{" line = true
                     /\ py_float (value_text line) = Some (watts vm))
  /\ (forall before after,
        text = before +:+ String newline after ->
        _parse_vm_metrics text
        = zone_app (_parse_vm_metrics before) (_parse_vm_metrics after)).
Proof.
  destruct (parse_vm_metrics_inv text) as [Hc Hk]. split_and!.
  - eapply Forall_impl; [exact Hc|]. by intros vm [H _].
  - eapply Forall_impl; [exact Hk|]. by intros vm [H _].
  - intros vm Hvm. rewrite list.Forall_forall in Hc, Hk.
    apply elem_of_app in Hvm as [Hvm | Hvm].
    + destruct (Hc vm Hvm) as (_ & line & Hl & Hp & Hv). by exists line.
    + destruct (Hk vm Hvm) as (_ & line & Hl & Hp & Hv). by exists line.
  - intros before after ->. unfold PowerParse._parse_vm_metrics.
    rewrite split_on_app, fold_left_app. apply parse_metric_lines_app.
Qed.

Lemma set_zone_same z vm : zone vm = z -> set_zone z vm = vm.
Proof. intros <-. by destruct vm. Qed.

Lemma map_set_zone_same z l :
  Forall (fun vm => zone vm = z) l -> map (set_zone z) l = l.
Proof.
  induction 1 as [|vm l Hvm _ IH]; [done|].
  cbn [map]. by rewrite IH, set_zone_same.
Qed.

Lemma filter_vms_elem self vm l : vm ∈ _filter_vms self l -> vm ∈ l.
Proof.
  unfold _filter_vms.
  destruct (negb (has_targets self)
            && negb (bool_decide (is_Some (vm_pattern self)))); [done|].
  intros H. apply list_elem_of_In, filter_In in H as [H _].
  by apply list_elem_of_In.
Qed.

Lemma filter_vms_forall self (P : VMInfo -> Prop) l :
  Forall P l -> Forall P (_filter_vms self l).
Proof.
  rewrite !list.Forall_forall. intros H vm Hvm.
  by apply H, (filter_vms_elem self).
Qed.

(** X17.  With the scrape parser in place, the per-VM entries a data
    point stores are exactly the parsed readings that pass the filter,
    core readings first: tagging them with the zone changes nothing.  The
    core total is the sum over the filtered core readings, [vm_count]
    their number, and every stored wattage is [float] of the value text of
    a sample line of the scrape. *)
Theorem scrape_to_data_point (self : Collector) (target_timestamp : Q)
    (text : string) (p : PowerDataPoint) :
  build_data_point _parse_vm_metrics self target_timestamp text = Some p ->
  let metrics := _parse_vm_metrics text in
  vms p = _filter_vms self (core metrics) ++ _filter_vms self (package metrics)
  /\ total_cpu_watts_core p = sumQ (map watts (_filter_vms self (core metrics)))
  /\ total_cpu_watts_package p
     = sumQ (map watts (_filter_vms self (package metrics)))
  /\ vm_count p = Z.of_nat (length (_filter_vms self (core metrics)))
  /\ Forall (fun vm =>
               (zone vm = "core" \/ zone vm = "package")
               /\ exists line, line ∈ split_on newline text
                               /\ py_float (value_text line) = Some (watts vm))
       (vms p).
Proof.
  intros Hp metrics. unfold build_data_point in Hp.
  destruct (collection_start_time self) as [start|]; [|done].
  cbn [mbind option_bind] in Hp. apply (inj Some) in Hp. subst p.
  cbn [vms total_cpu_watts_core total_cpu_watts_package vm_count].
  fold metrics.
  destruct (parse_vm_metrics_inv text) as [Hc Hk]. fold metrics in Hc, Hk.
  pose proof (filter_vms_forall self _ _ Hc) as Hfc.
  pose proof (filter_vms_forall self _ _ Hk) as Hfk.
  rewrite (map_set_zone_same "core"), (map_set_zone_same "package");
    [|eapply Forall_impl; [exact Hfk|]; by intros vm [H _]
     |eapply Forall_impl; [exact Hfc|]; by intros vm [H _]].
  split_and!; try done.
  apply Forall_app. split.
  - eapply Forall_impl; [exact Hfc|].
    intros vm (Hz & line & Hl & _ & Hv). split; [by left | by exists line].
  - eapply Forall_impl; [exact Hfk|].
    intros vm (Hz & line & Hl & _ & Hv). split; [by right | by exists line].
Qed.

End ScrapeParser.

Section ScrapeParserExamples.

Import Power PyStr PowerParse PowerProbe.

Lemma parse_vm_metrics_zones_witness :
  map watts (core (_parse_vm_metrics example_float example_scrape)) = [5 # 10]
  /\ map watts (package (_parse_vm_metrics example_float example_scrape))
     = [7 # 10]
  /\ Forall (fun vm => zone vm = "core")
       (core (_parse_vm_metrics example_float example_scrape))
  /\ _parse_vm_metrics example_float
       (example_scrape +:+ String newline example_scrape)
     = zone_app (_parse_vm_metrics example_float example_scrape)
         (_parse_vm_metrics example_float example_scrape).
Proof.
  destruct (parse_vm_metrics_zones example_float example_scrape)
    as (Hc & _ & _ & _).
  destruct (parse_vm_metrics_zones example_float
              (example_scrape +:+ String newline example_scrape))
    as (_ & _ & _ & Happ).
  split_and!; [by vm_compute | by vm_compute | exact Hc | by apply Happ].
Defined.

Lemma scrape_to_data_point_witness :
  exists p,
    build_data_point (_parse_vm_metrics example_float)
      (set_start example_collector 100) 100 example_scrape = Some p
    /\ map watts (vms p) = [5 # 10; 7 # 10]
    /\ vms p
       = _filter_vms (set_start example_collector 100)
           (core (_parse_vm_metrics example_float example_scrape))
         ++ _filter_vms (set_start example_collector 100)
              (package (_parse_vm_metrics example_float example_scrape)).
Proof.
  eexists. split; [reflexivity|].
  split; [by vm_compute|].
  edestruct (scrape_to_data_point example_float
               (set_start example_collector 100) 100 example_scrape)
    as (H & _); [reflexivity|].
  exact H.
Defined.

End ScrapeParserExamples.

(** ** vm_feature_collector.py: the CPU-time percentages *)

Section Percentages.

Import Features FeatureKeys.

Lemma percent_key_inj f g :
  f ∈ cpu_fields -> g ∈ cpu_fields -> percent_key f = percent_key g -> f = g.
Proof.
  unfold cpu_fields. intros Hf Hg.
  repeat (apply elem_of_cons in Hf as [-> | Hf]);
    try (by apply elem_of_nil in Hf);
    repeat (apply elem_of_cons in Hg as [-> | Hg]);
    try (by apply elem_of_nil in Hg);
    (reflexivity || (intros H; vm_compute in H; discriminate)).
Qed.

Lemma percent_key_other key f :
  key ∈ ["sys_cpu_utilization"; "sys_cpu_user_seconds";
         "sys_cpu_system_seconds"; "sys_cpu_total_seconds";
         "sys_context_switches"; "sys_processes_created";
         "sys_procs_running"; "sys_procs_blocked"] ->
  f ∈ cpu_fields -> percent_key f <> key.
Proof.
  unfold cpu_fields. intros Hkey Hf.
  repeat (apply elem_of_cons in Hkey as [-> | Hkey]);
    try (by apply elem_of_nil in Hkey);
    repeat (apply elem_of_cons in Hf as [-> | Hf]);
    try (by apply elem_of_nil in Hf);
    (intros H; vm_compute in H; discriminate).
Qed.

Section Loop.

Variable jps : Z.
Variable cd : gmap string Q.
Variable total : Z.

Lemma percent_loop_values fields d :
  total <> 0%Z ->
  (forall f, f ∈ fields -> f ∈ cpu_fields /\ is_Some (cd !! f)) ->
  NoDup fields ->
  exists d',
    percent_loop jps cd total fields d = (d', Some tt)
    /\ (forall f x, f ∈ fields -> cd !! f = Some x ->
          d' !! percent_key f
          = Some (x * inject_Z jps / inject_Z total * 100))
    /\ (forall key, (forall f, f ∈ fields -> percent_key f <> key) ->
          d' !! key = d !! key).
Proof.
  intros Ht. revert d. induction fields as [|f fields IH]; intros d Hcd Hnd.
  - exists d. split_and!; [done | | done]. intros f x Hf. by apply elem_of_nil in Hf.
  - apply NoDup_cons in Hnd as [Hf Hnd].
    destruct (Hcd f) as [Hfc [x Hx]]; [by left|].
    destruct (IH (<[percent_key f := x * inject_Z jps / inject_Z total * 100]> d))
      as (d' & Hrun & Hval & Hkeep); [|done|].
    { intros g Hg. apply Hcd. by right. }
    exists d'. split_and!.
    + cbn [percent_loop]. erewrite bind_ok; [|unfold must; by rewrite Hx].
      erewrite bind_ok.
      2:{ unfold must. rewrite py_truediv_ok by by apply inject_Z_nonzero. done. }
      erewrite bind_ok; [|done]. exact Hrun.
    + intros g y Hg Hy. apply elem_of_cons in Hg as [-> | Hg].
      * rewrite Hkeep.
        -- rewrite lookup_insert_eq. congruence.
        -- intros h Hh Heq. apply percent_key_inj in Heq; [congruence | |done].
           apply Hcd. by right.
      * by apply Hval.
    + intros key Hkey. rewrite Hkeep.
      * apply lookup_insert_ne. apply Hkey. by left.
      * intros g Hg. apply Hkey. by right.
Qed.

End Loop.

Section ProcPercent.

Variable jps : Z.
Variables prev_cpu curr_cpu : gmap string Z.

Local Abbreviation T := (total_of prev_cpu curr_cpu cpu_fields 0).

(** What the CPU block leaves under the percentage keys and under the
    total of the CPU seconds. *)
Lemma cpu_block_percent d :
  jps <> 0%Z ->
  exists d',
    cpu_block jps prev_cpu curr_cpu d = (d', Some tt)
    /\ (forall f, f ∈ cpu_fields ->
          d' !! percent_key f
          = if (0 <? T)%Z then Some (percent_of jps prev_cpu curr_cpu f)
            else d !! percent_key f)
    /\ d' !! "sys_cpu_total_seconds"
       = Some (seconds_of jps prev_cpu curr_cpu "user"
               + seconds_of jps prev_cpu curr_cpu "system"
               + seconds_of jps prev_cpu curr_cpu "nice").
Proof.
  intros Hj. unfold cpu_block.
  erewrite bind_ok; [|by apply cpu_loop_ok]. cbv beta iota.
  do 8 (erewrite bind_ok;
          [|first [done
                  |unfold must; rewrite cpu_fields_lookup; [done|in_list]]]).
  destruct (0 <? T)%Z eqn:Ht.
  - apply Z.ltb_lt in Ht.
    erewrite bind_ok.
    2:{ erewrite bind_ok;
          [|unfold must; rewrite cpu_fields_lookup; [done|in_list]].
        erewrite bind_ok.
        2:{ unfold must. rewrite py_truediv_ok; [done|].
            apply inject_Z_nonzero. lia. }
        done. }
    match goal with |- context [percent_loop _ _ _ _ ?d0] =>
      destruct (percent_loop_values jps
                  (cpu_deltas_of jps prev_cpu curr_cpu cpu_fields ∅)
                  T cpu_fields d0)
        as (d' & Hrun & Hval & Hkeep) end.
    { lia. }
    { intros f Hf. split; [done|]. rewrite cpu_fields_lookup by done. by eexists. }
    { apply (bool_decide_unpack _). by vm_compute. }
    exists d'. split; [exact Hrun|]. split.
    + intros f Hf. apply Hval; [done|]. by apply cpu_fields_lookup.
    + rewrite Hkeep; [by simplify_map_eq|].
      intros f Hf. apply percent_key_other; [in_list | done].
  - erewrite bind_ok; [|done]. eexists. split; [done|]. split.
    + intros f Hf. unfold store. cbn [fst].
      rewrite !lookup_insert_ne
        by (apply not_eq_sym, percent_key_other; [in_list | done]).
      done.
    + unfold store. cbn [fst]. by simplify_map_eq.
Qed.

End ProcPercent.

(** X18. /proc/stat percentages.  When both snapshots carry a [cpu]
    entry and the tick rate is not 0, [_compute_proc_stat_deltas] stores
    [sys_cpu_total_seconds] as the sum of the user, system and nice
    seconds.  When at least one tick elapsed it stores one
    [sys_cpu_<field>_percent] for each of the eight CPU states, holding
    the value the code forms from that state's tick delta; when no tick
    elapsed it stores none of the eight and a [sys_cpu_utilization] of 0.
    With a tick rate of 0 the first division raises and the result is the
    empty dictionary, without the counters that follow the CPU block. *)
Theorem proc_stat_percentages jps prev_stat curr_stat time_delta :
  let prev_cpu := default ∅ (ps_cpu prev_stat) in
  let curr_cpu := default ∅ (ps_cpu curr_stat) in
  let deltas := _compute_proc_stat_deltas jps prev_stat curr_stat time_delta in
  let total_delta := total_of prev_cpu curr_cpu cpu_fields 0 in
  nonempty prev_cpu && nonempty curr_cpu = true ->
  (jps <> 0%Z ->
     deltas !! "sys_cpu_total_seconds"
     = Some (seconds_of jps prev_cpu curr_cpu "user"
             + seconds_of jps prev_cpu curr_cpu "system"
             + seconds_of jps prev_cpu curr_cpu "nice")
     /\ ((0 < total_delta)%Z ->
         forall f, f ∈ cpu_fields ->
           deltas !! percent_key f
           = Some (percent_of jps prev_cpu curr_cpu f))
     /\ (total_delta = 0%Z ->
         deltas !! "sys_cpu_utilization" = Some 0
         /\ forall f, f ∈ cpu_fields -> deltas !! percent_key f = None))
  /\ (jps = 0%Z -> deltas = ∅).
Proof.
  intros prev_cpu curr_cpu deltas total_delta Hne.
  assert (Hst : stat_nonempty prev_stat = true /\ stat_nonempty curr_stat = true).
  { apply andb_true_iff in Hne as [H1 H2].
    subst prev_cpu curr_cpu. unfold stat_nonempty.
    destruct (ps_cpu prev_stat), (ps_cpu curr_stat); try done;
      cbn in H1, H2; try done. }
  destruct Hst as [Hp Hc]. split.
  - intros Hj.
    destruct (cpu_block_percent jps prev_cpu curr_cpu ∅ Hj)
      as (d' & Hrun & Hval & Htot).
    assert (Hdeltas : forall key,
              key ∉ ["sys_context_switches"; "sys_processes_created";
                     "sys_procs_running"; "sys_procs_blocked"] ->
              deltas !! key = d' !! key).
    { intros key Hkey. subst deltas.
      rewrite proc_stat_deltas_unfold by done.
      unfold run_try, proc_stat_body. fold prev_cpu curr_cpu. rewrite Hne.
      erewrite bind_ok; [|exact Hrun].
      do 3 (erewrite bind_ok; [|done]). unfold store. cbn [fst].
      rewrite !not_elem_of_cons in Hkey.
      destruct Hkey as (H1 & H2 & H3 & H4 & _).
      by rewrite !lookup_insert_ne by done. }
    assert (Hlook : forall f, f ∈ cpu_fields ->
              deltas !! percent_key f
              = if (0 <? total_delta)%Z
                then Some (percent_of jps prev_cpu curr_cpu f) else None).
    { intros f Hf. rewrite Hdeltas.
      - rewrite (Hval f Hf). fold total_delta.
        by destruct (0 <? total_delta)%Z.
      - rewrite !not_elem_of_cons. split_and!;
          try (apply percent_key_other; [in_list | done]).
        apply not_elem_of_nil. }
    split_and!.
    + rewrite Hdeltas; [exact Htot|]. in_list.
    + intros Ht f Hf. apply Z.ltb_lt in Ht. by rewrite (Hlook f Hf), Ht.
    + intros Hz. split.
      * destruct (proc_stat_deltas_cpu jps prev_stat curr_stat time_delta
                    Hp Hc Hj Hne) as (Hu & _).
        fold deltas prev_cpu curr_cpu in Hu. rewrite Hu.
        unfold utilization_of. fold total_delta. by rewrite Hz.
      * intros f Hf. by rewrite (Hlook f Hf), Hz.
  - intros Hj. subst deltas. rewrite proc_stat_deltas_unfold by done.
    unfold run_try, proc_stat_body. fold prev_cpu curr_cpu. rewrite Hne.
    erewrite bind_fail; [done|]. by apply cpu_block_fail.
Qed.

Section OSPercent.

Variables t0 t1 : gmap string Q.
Variable time_delta : Q.

Local Abbreviation S := (sumQ (map (os_delta t0 t1) cpu_fields)).

Lemma os_sum_bound k : k ∈ cpu_fields -> 0 <= os_delta t0 t1 k <= S.
Proof.
  intros Hk. split; [apply os_delta_nonneg|].
  destruct (sumQ_bound (map (os_delta t0 t1) cpu_fields) 0) as [H1 H2].
  { apply list.Forall_forall. intros x Hx.
    apply list_elem_of_fmap in Hx as (j & -> & _). apply os_delta_nonneg. }
  rewrite list.Forall_forall in H2.
  assert (Hin : os_delta t0 t1 k ∈ map (os_delta t0 t1) cpu_fields).
  { apply list_elem_of_fmap. by exists k. }
  specialize (H2 _ Hin). unfold sumQ. lra.
Qed.

Lemma os_total_elapsed : ~ S == 0 -> os_total t0 t1 time_delta = S.
Proof.
  intros HS. unfold os_total, first_nonzero.
  destruct (Qeq_bool S 0) eqn:E; [|done].
  apply Qeq_bool_iff in E. done.
Qed.

Lemma os_percent_of_range k :
  k ∈ cpu_fields ->
  0 <= os_percent_of t0 t1 time_delta k <= 100
  /\ (S == 0 -> os_percent_of t0 t1 time_delta k == 0).
Proof.
  intros Hk. destruct (os_sum_bound k Hk) as [H0 HS].
  unfold os_percent_of, os_total, first_nonzero.
  set (D := os_delta t0 t1 k) in *.
  destruct (Qeq_bool S 0) eqn:ES; cbn [negb].
  - apply Qeq_bool_iff in ES.
    assert (HD : D == 0) by lra.
    assert (Hz : forall t, D / t * 100 == 0).
    { intros t. rewrite HD. unfold Qdiv. lra. }
    destruct (negb (Qeq_bool time_delta 0)); rewrite Hz; split;
      (lra || (intros; lra)).
  - apply Qeq_bool_neq in ES. assert (HSpos : 0 < S) by lra.
    assert (Hq : 0 <= D / S <= 1).
    { split.
      - apply Qle_shift_div_l; [done|]. lra.
      - apply Qle_shift_div_r; [done|]. lra. }
    split; [lra|]. intros Hc. lra.
Qed.

End OSPercent.

(** X19. OS-snapshot percentages.  [_compute_os_metrics_from_snapshots]
    always stores the eight [cpu_*] percentages; each lies between 0 and
    100 and all are 0 when no CPU time elapsed between the snapshots;
    [cpu_utilization] and [cpu_idle] add up to 100; and when CPU time
    elapsed, each percentage is that state's CPU-time delta divided by the
    sum of the eight deltas, not by the length of the window. *)
Theorem os_percentages snap0 snap1 time_delta :
  let metrics := _compute_os_metrics_from_snapshots snap0 snap1 time_delta in
  let t0 := default ∅ (cpu_times snap0) in
  let t1 := default ∅ (cpu_times snap1) in
  let elapsed := sumQ (map (os_delta t0 t1) cpu_fields) in
  (forall k, k ∈ cpu_fields ->
     exists p, metrics !! metrics_map k = Some p /\ 0 <= p <= 100
               /\ (elapsed == 0 -> p == 0))
  /\ getQ metrics "cpu_utilization" + getQ metrics "cpu_idle" == 100
  /\ (~ elapsed == 0 ->
      forall k, k ∈ cpu_fields ->
        metrics !! metrics_map k = Some (os_delta t0 t1 k / elapsed * 100)).
Proof.
  intros metrics t0 t1 elapsed.
  assert (Hget : forall k, k ∈ cpu_fields ->
            getQ metrics (metrics_map k) = os_percent_of t0 t1 time_delta k).
  { intros k Hk. unfold getQ. subst metrics.
    by rewrite os_metrics_percent. }
  split_and!.
  - intros k Hk. eexists. split; [by apply os_metrics_percent|].
    destruct (os_percent_of_range t0 t1 time_delta k Hk) as [H1 H2].
    fold t0 t1. split; [exact H1 | exact H2].
  - destruct (os_metrics_lookup snap0 snap1 time_delta) as (_ & Hu & _).
    fold metrics t0 t1 in Hu. unfold getQ at 1. rewrite Hu. cbn [default id].
    change "cpu_idle" with (metrics_map "idle").
    rewrite Hget by in_list. unfold os_utilization_of, os_percent_of.
    set (X := os_delta t0 t1 "idle" / os_total t0 t1 time_delta). lra.
  - intros He k Hk. subst metrics. rewrite os_metrics_percent by done.
    fold t0 t1. by rewrite (os_total_elapsed t0 t1 time_delta He).
Qed.

Lemma derived_efficiency pmc_data os_data derived :
  calculate_derived_features pmc_data os_data = Some derived ->
  derived !! "cpu_efficiency"
  = Some ((getQ os_data "cpu_user_time" + getQ os_data "cpu_system_time") / 100).
Proof.
  unfold calculate_derived_features.
  rewrite !guarded_ratio_spec. cbn [mbind option_bind].
  rewrite py_truediv_ok by done. cbn [mbind option_bind].
  intros [= <-]. by simplify_map_eq.
Qed.

Lemma proc_counters_nonneg jps prev_stat curr_stat time_delta :
  let deltas := _compute_proc_stat_deltas jps prev_stat curr_stat time_delta in
  0 <= getQ deltas "sys_context_switches"
  /\ 0 <= getQ deltas "sys_processes_created".
Proof.
  intros deltas.
  destruct (stat_nonempty prev_stat) eqn:Hp;
    [destruct (stat_nonempty curr_stat) eqn:Hc|].
  - set (prev_cpu := default ∅ (ps_cpu prev_stat)).
    set (curr_cpu := default ∅ (ps_cpu curr_stat)).
    destruct (decide (jps <> 0%Z \/ nonempty prev_cpu && nonempty curr_cpu = false))
      as [Hok | Hbad].
    + destruct (proc_stat_deltas_counters jps prev_stat curr_stat time_delta
                  Hp Hc Hok) as [H1 H2].
      fold deltas in H1, H2. unfold getQ. rewrite H1, H2. cbn [default id].
      split; rewrite <- (Zle_Qle 0); lia.
    + assert (Hj : jps = 0%Z) by (destruct (decide (jps = 0%Z)); [done | tauto]).
      assert (Hne : nonempty prev_cpu && nonempty curr_cpu = true).
      { destruct (nonempty prev_cpu && nonempty curr_cpu); [done | tauto]. }
      subst deltas. rewrite proc_stat_deltas_unfold by done.
      unfold run_try, proc_stat_body. fold prev_cpu curr_cpu. rewrite Hne.
      erewrite bind_fail; [|by apply cpu_block_fail].
      cbn [fst]. unfold getQ. rewrite !lookup_empty. done.
  - subst deltas. unfold _compute_proc_stat_deltas. rewrite Hp, Hc.
    cbn [negb orb]. unfold getQ. rewrite !lookup_empty. done.
  - subst deltas. unfold _compute_proc_stat_deltas. rewrite Hp.
    cbn [negb orb]. unfold getQ. rewrite !lookup_empty. done.
Qed.

(** X20. The emitted feature point.  A synchronized cycle always emits a
    point in which every CPU-state percentage lies between 0 and 100,
    [cpu_utilization] and [cpu_idle] add up to 100, [cpu_efficiency] is
    the sum of the user and system percentages divided by 100 and is not
    negative, the disk and network deltas and the /proc/stat counter
    deltas are not negative, and the window length is at least one
    microsecond. *)
Theorem feature_point_invariants jps interval e :
  exists point,
    collect_feature_point jps interval e = Some point
    /\ Forall (fun p => 0 <= p <= 100) (cpu_state_fields point)
    /\ cpu_utilization point + cpu_idle point == 100
    /\ cpu_efficiency point
       = (cpu_user_time point + cpu_system_time point) / 100
    /\ 0 <= cpu_efficiency point
    /\ 0 <= disk_io_read_mb point /\ 0 <= disk_io_write_mb point
    /\ 0 <= network_bytes_sent point /\ 0 <= network_bytes_recv point
    /\ 0 <= sys_context_switches point /\ 0 <= sys_processes_created point
    /\ (1 # 1000000) <= time_delta_seconds point.
Proof.
  unfold collect_feature_point.
  set (td := py_maxQ (1 # 1000000) (t1_of interval e - ce_t0 e)).
  set (aligned := _compute_os_metrics_from_snapshots (ce_os0 e) (ce_os1 e) td).
  set (sysd := _compute_proc_stat_deltas jps (ce_proc_stat0 e) (ce_proc_stat1 e) td).
  destruct (calculate_derived_features_spec (ce_pmc_data e) aligned)
    as (derived & Hd & _).
  rewrite Hd. cbn [mbind option_bind]. eexists. split; [reflexivity|].
  unfold cpu_state_fields.
  cbn [cpu_user_time cpu_nice_time cpu_system_time cpu_idle cpu_iowait cpu_irq
       cpu_softirq cpu_steal cpu_utilization cpu_efficiency disk_io_read_mb
       disk_io_write_mb network_bytes_sent network_bytes_recv
       sys_context_switches sys_processes_created time_delta_seconds].
  set (t0 := default ∅ (cpu_times (ce_os0 e))).
  set (t1 := default ∅ (cpu_times (ce_os1 e))).
  assert (Hget : forall k, k ∈ cpu_fields ->
            getQ aligned (metrics_map k) = os_percent_of t0 t1 td k).
  { intros k Hk. unfold getQ. subst aligned. by rewrite os_metrics_percent. }
  change "cpu_user_time" with (metrics_map "user").
  change "cpu_nice_time" with (metrics_map "nice").
  change "cpu_system_time" with (metrics_map "system").
  change "cpu_idle" with (metrics_map "idle").
  change "cpu_iowait" with (metrics_map "iowait").
  change "cpu_irq" with (metrics_map "irq").
  change "cpu_softirq" with (metrics_map "softirq").
  change "cpu_steal" with (metrics_map "steal").
  rewrite !Hget by in_list.
  destruct (os_metrics_lookup (ce_os0 e) (ce_os1 e) td)
    as (_ & Hu & Hr & Hw & Hs & Hv).
  fold aligned t0 t1 in Hu, Hr, Hw, Hs, Hv.
  assert (Hmib : 0 < mib) by done.
  split_and!.
  - repeat constructor;
      (apply os_percent_of_range; in_list).
  - unfold getQ. rewrite Hu. cbn [default id].
    unfold os_utilization_of, os_percent_of.
    set (X := os_delta t0 t1 "idle" / os_total t0 t1 td). lra.
  - unfold getQ at 1. erewrite derived_efficiency by exact Hd. cbn [default id].
    change "cpu_user_time" with (metrics_map "user").
    change "cpu_system_time" with (metrics_map "system").
    by rewrite !Hget by in_list.
  - unfold getQ at 1. erewrite derived_efficiency by exact Hd. cbn [default id].
    change "cpu_user_time" with (metrics_map "user").
    change "cpu_system_time" with (metrics_map "system").
    rewrite !Hget by in_list.
    destruct (os_percent_of_range t0 t1 td "user") as [[H1 _] _]; [in_list|].
    destruct (os_percent_of_range t0 t1 td "system") as [[H2 _] _]; [in_list|].
    apply Qle_shift_div_l; [done|]. lra.
  - unfold getQ. rewrite Hr. cbn [default id].
    apply Qle_shift_div_l; [done|]. rewrite Qmult_0_l, <- (Zle_Qle 0). lia.
  - unfold getQ. rewrite Hw. cbn [default id].
    apply Qle_shift_div_l; [done|]. rewrite Qmult_0_l, <- (Zle_Qle 0). lia.
  - unfold getQ. rewrite Hs. cbn [default id]. rewrite <- (Zle_Qle 0). lia.
  - unfold getQ. rewrite Hv. cbn [default id]. rewrite <- (Zle_Qle 0). lia.
  - apply proc_counters_nonneg.
  - apply proc_counters_nonneg.
  - apply py_maxQ_lower.
Qed.

End Percentages.

Section PercentageExamples.

Import Features FeatureKeys.

Lemma proc_stat_percentages_witness :
  _compute_proc_stat_deltas 100 stat_a stat_b 1 !! percent_key "user"
  = Some (percent_of 100 (default ∅ (ps_cpu stat_a))
            (default ∅ (ps_cpu stat_b)) "user")
  /\ (forall f, f ∈ cpu_fields ->
        _compute_proc_stat_deltas 100 stat_a stat_a 1 !! percent_key f = None)
  /\ _compute_proc_stat_deltas 0 stat_a stat_b 1 = ∅.
Proof.
  destruct (proc_stat_percentages 100 stat_a stat_b 1) as [H _];
    [by vm_compute|].
  destruct H as (_ & Hf & _); [done|].
  destruct (proc_stat_percentages 100 stat_a stat_a 1) as [H' _];
    [by vm_compute|].
  destruct H' as (_ & _ & Hnone); [done|].
  destruct (proc_stat_percentages 0 stat_a stat_b 1) as [_ Hzero];
    [by vm_compute|].
  split_and!.
  - apply Hf; [by vm_compute | in_list].
  - apply Hnone. by vm_compute.
  - by apply Hzero.
Defined.

Lemma os_percentages_witness :
  _compute_os_metrics_from_snapshots still_snapshot busy_snapshot 1
    !! "cpu_user_time"
  = Some (os_delta (default ∅ (cpu_times still_snapshot))
            (default ∅ (cpu_times busy_snapshot)) "user"
          / sumQ (map (os_delta (default ∅ (cpu_times still_snapshot))
                         (default ∅ (cpu_times busy_snapshot))) cpu_fields)
          * 100)
  /\ getQ (_compute_os_metrics_from_snapshots still_snapshot still_snapshot 1)
       "cpu_user_time" == 0.
Proof.
  destruct (os_percentages still_snapshot busy_snapshot 1) as (_ & _ & Hshare).
  destruct (os_percentages still_snapshot still_snapshot 1) as (Hzero & _).
  split.
  - apply (Hshare ltac:(by vm_compute) "user"). in_list.
  - destruct (Hzero "user") as (p & Hp & _ & Hz); [in_list|].
    change "cpu_user_time" with (metrics_map "user").
    unfold getQ. rewrite Hp. cbn [default id]. apply Hz. by vm_compute.
Defined.

End PercentageExamples.

(** ** vm_feature_collector.py: the perf output *)

Section PerfOutput.

Import Features PyStr FeatureParse.

Variable py_int : string -> option Z.

Local Abbreviation parse_perf_line := (FeatureParse.parse_perf_line py_int).
Local Abbreviation _parse_perf_output := (FeatureParse._parse_perf_output py_int).

Lemma event_map_names event name :
  event_map event = Some name -> name ∈ pmc_names.
Proof.
  unfold event_map, pmc_names.
  repeat (destruct (String.eqb event _); [intros [= <-]; in_list|]).
  done.
Qed.

(** One line leaves the dictionary as it is or stores one count. *)
Lemma parse_perf_line_cases metrics line :
  parse_perf_line metrics line = metrics
  \/ exists name value,
       reads py_int line name value
       /\ parse_perf_line metrics line = <[name := value]> metrics.
Proof.
  unfold FeatureParse.parse_perf_line.
  destruct (contains comma line && negb (String.eqb (strip line) ""));
    [|by left].
  destruct (3 <=? length (split_on comma line))%nat; [|by left].
  destruct (String.eqb (strip (item (split_on comma line) 0)) "<not supported>");
    [by left|].
  rewrite remove_char_absent by apply contains_strip, item_no_sep.
  destruct (py_int (strip (item (split_on comma line) 0))) as [value|] eqn:Ev;
    [|by left].
  destruct (event_map (strip (item (split_on comma line) 2))) as [name|] eqn:Ee;
    [|by left].
  right. exists name, value. by split.
Qed.

Lemma parse_perf_line_union metrics line :
  parse_perf_line metrics line = parse_perf_line ∅ line ∪ metrics.
Proof.
  unfold FeatureParse.parse_perf_line.
  repeat case_match; try (by rewrite (left_id_L ∅ (∪))).
  by rewrite <- insert_union_l, (left_id_L ∅ (∪)).
Qed.

Lemma parse_perf_lines_union lines metrics :
  fold_left parse_perf_line lines metrics
  = fold_left parse_perf_line lines ∅ ∪ metrics.
Proof.
  revert metrics. induction lines as [|line lines IH]; intros metrics.
  - cbn [fold_left]. by rewrite (left_id_L ∅ (∪)).
  - cbn [fold_left]. rewrite IH, (IH (parse_perf_line ∅ line)).
    rewrite (parse_perf_line_union metrics). by rewrite (assoc_L (∪)).
Qed.

Lemma parse_perf_lines_lookup lines metrics name value :
  fold_left parse_perf_line lines metrics !! name = Some value ->
  metrics !! name = Some value
  \/ exists line, line ∈ lines /\ reads py_int line name value.
Proof.
  revert metrics. induction lines as [|line lines IH]; intros metrics H.
  - by left.
  - cbn [fold_left] in H. apply IH in H as [H | (l & Hl & Hr)].
    + destruct (parse_perf_line_cases metrics line)
        as [Heq | (n & v & Hr & Heq)]; rewrite Heq in H.
      * by left.
      * destruct (decide (n = name)) as [-> | Hne].
        -- rewrite lookup_insert_eq in H. injection H as <-.
           right. exists line. split; [by left | done].
        -- rewrite lookup_insert_ne in H by done. by left.
    + right. exists l. split; [by right | done].
Qed.

(** X21.  [_parse_perf_output] stores counts only under the eight PMC
    feature names, and every stored count is [int] of the stripped text
    before the first comma of a line whose third field names the event:
    the removal of thousands separators never applies, since no comma is
    left in that text.  The lines are read in order, a later line
    overriding an earlier one for the same event. *)
Theorem perf_output_parse (text : string) :
  (forall name value, _parse_perf_output text !! name = Some value ->
     name ∈ pmc_names
     /\ exists line, line ∈ split_on newline text
                     /\ reads py_int line name value)
  /\ (forall line, remove_char comma (strip (first_field line))
                   = strip (first_field line))
  /\ (forall before after,
        text = before +:+ String newline after ->
        _parse_perf_output text
        = _parse_perf_output after ∪ _parse_perf_output before).
Proof.
  split_and!.
  - intros name value H.
    apply parse_perf_lines_lookup in H as [H | (line & Hl & Hr)]; [done|].
    split; [|by exists line].
    destruct Hr as [_ Hr]. by eapply event_map_names.
  - intros line. apply remove_char_absent, contains_strip, item_no_sep.
  - intros before after ->. unfold FeatureParse._parse_perf_output.
    rewrite split_on_app, fold_left_app. apply parse_perf_lines_union.
Qed.

(** X22.  A line [value,unit,event] followed by further fields, whose
    value field is not the [<not supported>] marker and reads as an
    integer and whose event is a known one, stores that integer under the
    event's feature name. *)
Theorem perf_line_read (metrics : gmap string Z)
    (value unit event rest name : string) (n : Z) :
  contains comma value = false ->
  contains comma unit = false ->
  contains comma event = false ->
  strip value <> "<not supported>" ->
  py_int (strip value) = Some n ->
  event_map (strip event) = Some name ->
  parse_perf_line metrics
    (value +:+ String comma (unit +:+ String comma (event +:+ String comma rest)))
  = <[name := n]> metrics.
Proof.
  intros Hv Hu He Hns Hint Hev.
  unfold FeatureParse.parse_perf_line.
  set (line := value +:+ String comma (unit +:+ String comma (event +:+ String comma rest))).
  assert (Hparts : split_on comma line
                   = value :: unit :: event :: split_on comma rest).
  { subst line. rewrite !split_on_app.
    by rewrite (split_on_absent comma value), (split_on_absent comma unit),
      (split_on_absent comma event). }
  assert (Hc : contains comma line = true).
  { subst line. clear. induction value as [|a v IH]; simpl.
    - done.
    - rewrite IH. apply orb_true_r. }
  rewrite Hc, Hparts. cbn [andb].
  destruct (String.eqb (strip line) "") eqn:Es.
  { apply String.eqb_eq in Es. by apply (strip_keeps comma) in Hc. }
  cbn [negb length Nat.leb item nth].
  destruct (String.eqb (strip value) "<not supported>") eqn:Em.
  { by apply String.eqb_eq in Em. }
  rewrite remove_char_absent by (by apply contains_strip).
  by rewrite Hint, Hev.
Qed.

End PerfOutput.

Section PerfOutputExamples.

Import Features PyStr FeatureParse.

Lemma perf_output_parse_witness :
  _parse_perf_output decimal_int
    (perf_cycles +:+ String newline perf_instructions) !! "cpu_cycles"
  = Some 1200%Z
  /\ "cpu_cycles" ∈ pmc_names
  /\ _parse_perf_output decimal_int
       (perf_cycles +:+ String newline perf_instructions)
     = _parse_perf_output decimal_int perf_instructions
       ∪ _parse_perf_output decimal_int perf_cycles
  /\ _parse_perf_output decimal_int perf_grouped = ∅.
Proof.
  destruct (perf_output_parse decimal_int
              (perf_cycles +:+ String newline perf_instructions))
    as (Hkeys & _ & Hlines).
  assert (H : _parse_perf_output decimal_int
                (perf_cycles +:+ String newline perf_instructions)
              !! "cpu_cycles" = Some 1200%Z) by (by vm_compute).
  split_and!.
  - exact H.
  - by destruct (Hkeys _ _ H).
  - by apply Hlines.
  - by vm_compute.
Defined.

Lemma perf_line_read_witness :
  parse_perf_line decimal_int ∅ perf_cycles = {["cpu_cycles" := 1200%Z]}.
Proof.
  apply (perf_line_read decimal_int ∅ "1200" "" "cpu-cycles"
           "1000000,100.00" "cpu_cycles" 1200); by vm_compute.
Defined.

End PerfOutputExamples.

(** ** vm_feature_collector.py: reading /proc/stat *)

Section ReadProcStat.

Import Features PyStr FeatureParse.

Variable py_int : string -> option Z.

Local Abbreviation cpu_values_loop := (FeatureParse.cpu_values_loop py_int).
Local Abbreviation read_stat_line := (FeatureParse.read_stat_line py_int).
Local Abbreviation _read_proc_stat := (FeatureParse._read_proc_stat py_int).
Local Abbreviation cpu_field_value := (FeatureParse.cpu_field_value py_int).

Lemma field_value parts j :
  (if (j + 1 <? length parts)%nat then
     match py_int (item parts (j + 1)) with Some v => v | None => 0%Z end
   else 0%Z)
  = default 0%Z (parts !! (j + 1)%nat ≫= py_int).
Proof.
  unfold item. destruct (Nat.ltb_spec (j + 1) (length parts)) as [Hlt | Hge].
  - destruct (lookup_lt_is_Some_2 parts (j + 1)%nat Hlt) as [x Hx].
    rewrite Hx. cbn [mbind option_bind].
    rewrite (nth_lookup_Some _ _ EmptyString _ Hx). by destruct (py_int x).
  - by rewrite (lookup_ge_None_2 parts (j + 1)%nat Hge).
Qed.

Lemma cpu_values_loop_dom parts i fields m :
  dom (cpu_values_loop parts i fields m)
  = (list_to_set fields ∪ dom m : gset string).
Proof.
  revert i m. induction fields as [|f fields IH]; intros i m.
  - cbn [FeatureParse.cpu_values_loop list_to_set].
    by rewrite (left_id_L ∅ (∪)).
  - cbn [FeatureParse.cpu_values_loop list_to_set]. rewrite IH, dom_insert_L.
    rewrite (assoc_L (∪)). f_equal. apply (comm_L (∪)).
Qed.

Lemma cpu_values_loop_notin parts i fields m f :
  f ∉ fields -> cpu_values_loop parts i fields m !! f = m !! f.
Proof.
  revert i m. induction fields as [|g fields IH]; intros i m Hf; [done|].
  apply not_elem_of_cons in Hf as [Hne Hf].
  cbn [FeatureParse.cpu_values_loop]. rewrite IH by done.
  by apply lookup_insert_ne.
Qed.

Lemma cpu_values_loop_lookup parts i fields m k f :
  NoDup fields -> fields !! k = Some f ->
  cpu_values_loop parts i fields m !! f
  = Some (default 0%Z (parts !! (i + k + 1)%nat ≫= py_int)).
Proof.
  revert i m k. induction fields as [|g fields IH]; intros i m k Hnd Hk;
    [done|].
  apply NoDup_cons in Hnd as [Hg Hnd].
  cbn [FeatureParse.cpu_values_loop]. destruct k as [|k].
  - injection Hk as ->. rewrite cpu_values_loop_notin by done.
    rewrite lookup_insert_eq, field_value. by rewrite Nat.add_0_r.
  - cbn in Hk. rewrite (IH (S i) _ k Hnd Hk).
    by replace (S i + k + 1)%nat with (i + S k + 1)%nat by lia.
Qed.

(** What one line does to the [cpu] entry. *)
Lemma read_stat_line_cpu metrics line :
  (exists tokens,
     split_ws (strip line) = "cpu" :: tokens
     /\ ps_cpu (read_stat_line metrics line)
        = Some (cpu_values_loop ("cpu" :: tokens) 0 cpu_line_fields ∅))
  \/ (~ is_cpu_line line
      /\ ps_cpu (read_stat_line metrics line) = ps_cpu metrics).
Proof.
  unfold FeatureParse.read_stat_line, is_cpu_line.
  destruct (String.eqb (strip line) "") eqn:Ee.
  { apply String.eqb_eq in Ee. rewrite Ee. by right. }
  destruct (split_ws (strip line)) as [|first tokens]; [by right|].
  destruct (String.eqb first "cpu") eqn:Ec.
  { apply String.eqb_eq in Ec as ->. left. by exists tokens. }
  right. split.
  { cbn [head]. intros [= ->]. by rewrite String.eqb_refl in Ec. }
  unfold store_int.
  repeat case_match; done.
Qed.

Lemma read_stat_lines_cpu lines metrics :
  (ps_cpu (fold_left read_stat_line lines metrics) = ps_cpu metrics
   /\ Forall (fun line => ~ is_cpu_line line) lines)
  \/ exists line tokens,
       line ∈ lines
       /\ split_ws (strip line) = "cpu" :: tokens
       /\ ps_cpu (fold_left read_stat_line lines metrics)
          = Some (cpu_values_loop ("cpu" :: tokens) 0 cpu_line_fields ∅).
Proof.
  revert metrics. induction lines as [|line lines IH]; intros metrics.
  - left. by split.
  - cbn [fold_left].
    destruct (IH (read_stat_line metrics line))
      as [[Heq Hnone] | (l & tokens & Hl & Ht & Heq)].
    + destruct (read_stat_line_cpu metrics line)
        as [(tokens & Ht & Hc) | [Hno Hc]].
      * right. exists line, tokens. split_and!; [by left | done |].
        by rewrite Heq.
      * left. split; [by rewrite Heq | by constructor].
    + right. exists l, tokens. split_and!; [by right | done | done].
Qed.

Lemma cpu_fields_nodup : NoDup cpu_line_fields.
Proof. apply (bool_decide_unpack _). by vm_compute. Qed.

(** X23.  [_read_proc_stat] returns a [cpu] entry exactly when some line
    of the file has [cpu] as its first token (per-core lines such as
    [cpu0] do not count).  The entry then holds all ten fields, each read
    from the token at its position after [cpu] and 0 when that token is
    missing or is no integer; an unreadable file gives the empty
    result. *)
Theorem read_proc_stat_cpu (content : string) :
  (is_Some (ps_cpu (_read_proc_stat (Some content)))
   <-> exists line, line ∈ split_on newline content /\ is_cpu_line line)
  /\ (forall cpu, ps_cpu (_read_proc_stat (Some content)) = Some cpu ->
        dom cpu = (list_to_set cpu_line_fields : gset string)
        /\ exists line tokens,
             line ∈ split_on newline content
             /\ split_ws (strip line) = "cpu" :: tokens
             /\ forall (k : nat) field, cpu_line_fields !! k = Some field ->
                  cpu !! field = Some (cpu_field_value tokens k))
  /\ stat_nonempty (_read_proc_stat None) = false.
Proof.
  unfold FeatureParse._read_proc_stat.
  destruct (read_stat_lines_cpu (split_on newline content) empty_stat)
    as [[Heq Hnone] | (line & tokens & Hl & Ht & Heq)].
  - rewrite Heq. cbn [ps_cpu empty_stat]. split_and!; [|done|done].
    split; [by intros [? [=]]|].
    intros (line & Hl & Hc). rewrite list.Forall_forall in Hnone.
    by destruct (Hnone line Hl).
  - rewrite Heq. split_and!; [| |done].
    + split; [|by eexists]. intros _. exists line. split; [done|].
      unfold is_cpu_line. by rewrite Ht.
    + intros cpu Hc.
      assert (cpu = cpu_values_loop ("cpu" :: tokens) 0 cpu_line_fields ∅)
        as -> by congruence.
      split.
      * rewrite cpu_values_loop_dom, dom_empty_L.
        by rewrite (right_id_L ∅ (∪)).
      * exists line, tokens. split_and!; [done | done |].
        intros k field Hk.
        rewrite (cpu_values_loop_lookup _ 0 _ _ k field cpu_fields_nodup Hk).
        unfold FeatureParse.cpu_field_value.
        by replace (0 + k + 1)%nat with (S k) by lia.
Qed.

Lemma read_cpu_nonempty (content : string) :
  (exists line, line ∈ split_on newline content /\ is_cpu_line line) ->
  stat_nonempty (_read_proc_stat (Some content)) = true
  /\ nonempty (default ∅ (ps_cpu (_read_proc_stat (Some content)))) = true.
Proof.
  intros Hline.
  destruct (read_stat_lines_cpu (split_on newline content) empty_stat)
    as [[_ Hnone] | (line & tokens & _ & _ & Heq)].
  { destruct Hline as (line & Hl & Hc). rewrite list.Forall_forall in Hnone.
    by destruct (Hnone line Hl). }
  unfold FeatureParse._read_proc_stat, stat_nonempty. rewrite Heq.
  split; [done|]. cbn [default id]. unfold nonempty.
  apply negb_true_iff, bool_decide_eq_false. intros Hempty.
  assert (Hdom : "user" ∈ dom (cpu_values_loop ("cpu" :: tokens) 0
                                 cpu_line_fields ∅)).
  { rewrite cpu_values_loop_dom. apply elem_of_union_l.
    unfold cpu_line_fields. cbn [list_to_set].
    apply elem_of_union_l. by apply elem_of_singleton. }
  rewrite Hempty, dom_empty_L in Hdom. by apply not_elem_of_empty in Hdom.
Qed.

(** X24.  From two readings of /proc/stat that each have a [cpu] line,
    and with a non-zero tick rate, [_compute_proc_stat_deltas] reaches
    the end of its block: it stores [sys_cpu_utilization], the user and
    system seconds and non-negative context-switch and process-creation
    deltas; when either file could not be read it returns the empty
    dictionary. *)
Theorem proc_stat_pipeline (jps : Z) (content0 content1 : string)
    (time_delta : Q) :
  jps <> 0%Z ->
  (exists line, line ∈ split_on newline content0 /\ is_cpu_line line) ->
  (exists line, line ∈ split_on newline content1 /\ is_cpu_line line) ->
  let stat0 := _read_proc_stat (Some content0) in
  let stat1 := _read_proc_stat (Some content1) in
  let deltas := _compute_proc_stat_deltas jps stat0 stat1 time_delta in
  is_Some (deltas !! "sys_cpu_utilization")
  /\ is_Some (deltas !! "sys_cpu_user_seconds")
  /\ is_Some (deltas !! "sys_cpu_system_seconds")
  /\ (exists c, deltas !! "sys_context_switches" = Some c /\ 0 <= c)
  /\ (exists p, deltas !! "sys_processes_created" = Some p /\ 0 <= p)
  /\ _compute_proc_stat_deltas jps (_read_proc_stat None) stat1 time_delta = ∅
  /\ _compute_proc_stat_deltas jps stat0 (_read_proc_stat None) time_delta = ∅.
Proof.
  intros Hj H0 H1 stat0 stat1 deltas.
  destruct (read_cpu_nonempty content0 H0) as [Hs0 Hn0].
  destruct (read_cpu_nonempty content1 H1) as [Hs1 Hn1].
  fold stat0 in Hs0, Hn0. fold stat1 in Hs1, Hn1.
  assert (Hne : nonempty (default ∅ (ps_cpu stat0))
                && nonempty (default ∅ (ps_cpu stat1)) = true).
  { by rewrite Hn0, Hn1. }
  destruct (proc_stat_deltas_cpu jps stat0 stat1 time_delta Hs0 Hs1 Hj Hne)
    as (Hu & Hus & Hsy).
  destruct (proc_stat_deltas_counters jps stat0 stat1 time_delta Hs0 Hs1
              (or_introl Hj)) as [Hc Hp].
  fold deltas in Hu, Hus, Hsy, Hc, Hp.
  split_and!.
  - by eexists.
  - by eexists.
  - by eexists.
  - eexists. split; [exact Hc|]. rewrite <- (Zle_Qle 0). lia.
  - eexists. split; [exact Hp|]. rewrite <- (Zle_Qle 0). lia.
  - unfold _compute_proc_stat_deltas. done.
  - unfold _compute_proc_stat_deltas. rewrite Hs0. done.
Qed.

End ReadProcStat.

Section ReadProcStatExamples.

Import Features PyStr FeatureParse.

Lemma stat_text_cpu_line :
  (exists line, line ∈ split_on newline stat_text0 /\ is_cpu_line line)
  /\ (exists line, line ∈ split_on newline stat_text1 /\ is_cpu_line line).
Proof.
  split.
  - exists "cpu  500 0 200 7000 10 0 5 0 0 0". split; [|by vm_compute].
    vm_compute. left.
  - exists "cpu  800 0 200 7100". split; [|by vm_compute].
    vm_compute. left.
Qed.

Lemma read_proc_stat_cpu_witness :
  exists cpu,
    ps_cpu (_read_proc_stat decimal_int (Some stat_text1)) = Some cpu
    /\ dom cpu = (list_to_set cpu_line_fields : gset string)
    /\ getZ (default ∅ (ps_cpu (_read_proc_stat decimal_int (Some stat_text1))))
         "user" = 800%Z
    /\ getZ (default ∅ (ps_cpu (_read_proc_stat decimal_int (Some stat_text1))))
         "steal" = 0%Z.
Proof.
  destruct (read_proc_stat_cpu decimal_int stat_text1) as (Hsome & Hcpu & _).
  destruct (proj2 Hsome (proj2 stat_text_cpu_line)) as [cpu Hc].
  exists cpu. split; [exact Hc|].
  destruct (Hcpu cpu Hc) as [Hdom _]. split; [exact Hdom|].
  split; by vm_compute.
Defined.

Lemma proc_stat_pipeline_witness :
  is_Some (_compute_proc_stat_deltas 100
             (_read_proc_stat decimal_int (Some stat_text0))
             (_read_proc_stat decimal_int (Some stat_text1)) 1
           !! "sys_cpu_utilization")
  /\ exists c,
       _compute_proc_stat_deltas 100
         (_read_proc_stat decimal_int (Some stat_text0))
         (_read_proc_stat decimal_int (Some stat_text1)) 1
       !! "sys_context_switches" = Some c
       /\ 0 <= c.
Proof.
  destruct (proc_stat_pipeline decimal_int 100 stat_text0 stat_text1 1)
    as (Hu & _ & _ & Hc & _);
    [done | apply stat_text_cpu_line | apply stat_text_cpu_line |].
  by split.
Defined.

End ReadProcStatExamples.

(** ** vm_feature_collector.py: the performance counters *)

Section PmcPipeline.

Import Features PyStr FeatureParse.

Variable py_int : string -> option Z.

Lemma collect_pmc_metrics_failed pmcs result :
  perf_failed pmcs result -> collect_pmc_metrics py_int pmcs result = ∅.
Proof.
  unfold collect_pmc_metrics. intros [-> | H]; [done|].
  destruct pmcs; [done|]. destruct result as [rc stderr| |]; [|done|done].
  apply Z.eqb_neq in H. by rewrite H.
Qed.

Lemma collect_pmc_metrics_names pmcs result name value :
  collect_pmc_metrics py_int pmcs result !! name = Some value ->
  name ∈ pmc_names.
Proof.
  unfold collect_pmc_metrics. destruct pmcs; [done|].
  destruct result as [rc stderr| |]; [|done|done].
  destruct (negb (rc =? 0)%Z); [done|].
  intros H. apply parse_perf_lines_lookup in H as [H | (line & _ & _ & H)];
    [done|].
  by eapply event_map_names.
Qed.

(** X25.  The events [_check_pmc_availability] offers are candidates
    that passed their test run, in the candidates' order, and each is an
    event the parser knows; the parser's feature names are exactly those
    of the candidates.  [collect_pmc_metrics] returns counts under those
    names only, and nothing when [perf] did not deliver; the synchronized
    cycle then still emits a point, with the counters and the three
    ratios at 0. *)
Theorem pmc_pipeline (test_run : string -> option Z) (pmcs : list string)
    (result : PerfResult) (jps : Z) (interval : Q) (e : CycleEnv) :
  _check_pmc_availability test_run `sublist_of` candidate_events
  /\ (forall event, event ∈ _check_pmc_availability test_run ->
        test_run event = Some 0%Z /\ is_Some (event_map event))
  /\ (forall name, name ∈ pmc_names
        <-> exists event, event ∈ candidate_events
                          /\ event_map event = Some name)
  /\ (forall name value,
        collect_pmc_metrics py_int pmcs result !! name = Some value ->
        name ∈ pmc_names)
  /\ (perf_failed pmcs result ->
      ce_pmc_data e = collect_pmc_metrics py_int pmcs result ->
      exists point,
        collect_feature_point jps interval e = Some point
        /\ Forall (fun c => c = 0%Z) (pmc_counters point)
        /\ Forall (fun r => r = 0) (pmc_ratios point)).
Proof.
  split_and!.
  - unfold _check_pmc_availability.
    induction candidate_events as [|x l IH]; [done|]. cbn [List.filter].
    destruct (test_run x) as [rc|];
      [destruct (rc =? 0)%Z|];
      (by apply sublist_skip) || (by apply sublist_cons).
  - intros event H. unfold _check_pmc_availability in H.
    apply list_elem_of_In, filter_In in H as [Hin Hrc].
    apply list_elem_of_In in Hin. split.
    + destruct (test_run event) as [rc|]; [|done].
      by apply Z.eqb_eq in Hrc as ->.
    + unfold candidate_events in Hin.
      repeat (apply elem_of_cons in Hin as [-> | Hin]; [by eexists|]).
      by apply elem_of_nil in Hin.
  - intros name. split.
    + intros H. unfold pmc_names in H.
      repeat (apply elem_of_cons in H as [-> | H]);
        [exists "cpu-cycles" | exists "instructions"
        | exists "cache-references" | exists "cache-misses"
        | exists "branches" | exists "branch-misses"
        | exists "page-faults" | exists "context-switches"
        | by apply elem_of_nil in H];
        (split; [in_list | reflexivity]).
    + intros (event & _ & H). by eapply event_map_names.
  - apply collect_pmc_metrics_names.
  - intros Hfail Hpmc.
    rewrite (collect_pmc_metrics_failed _ _ Hfail) in Hpmc.
    destruct (collect_feature_point_spec jps interval e)
      as (point & Hp & _ & _ & _ & H1 & H2 & H3 & H4 & H5 & H6 & H7 & H8 & H9).
    exists point. split; [exact Hp|].
    rewrite Hpmc in *. unfold pmc_counters, pmc_ratios. split.
    + rewrite H1, H2, H3, H4, H5, H6. by repeat constructor.
    + unfold guarded_ratio in H7, H8, H9. cbn in H7, H8, H9.
      injection H7 as ->. injection H8 as ->. injection H9 as ->.
      by repeat constructor.
Qed.

End PmcPipeline.

Section PmcPipelineExamples.

Import Features PyStr FeatureParse.

Lemma pmc_pipeline_witness :
  exists point,
    collect_feature_point 100 1
      (cycle_with (collect_pmc_metrics decimal_int ["cpu-cycles"] TimeoutExpired))
    = Some point
    /\ Forall (fun c => c = 0%Z) (pmc_counters point)
    /\ Forall (fun r => r = 0) (pmc_ratios point).
Proof.
  destruct (pmc_pipeline decimal_int (fun _ => Some 0%Z) ["cpu-cycles"]
              TimeoutExpired 100 1
              (cycle_with (collect_pmc_metrics decimal_int ["cpu-cycles"]
                             TimeoutExpired)))
    as (_ & _ & _ & _ & H).
  apply H; [by right | reflexivity].
Defined.

End PmcPipelineExamples.

(** ** vm_feature_collector.py: the collection loop *)

Section FeatureCollection.

Import Features FeatureLoop.

Variable jps : Z.
Variable interval : Q.

Local Abbreviation pass := (FeatureLoop.pass jps interval).
Local Abbreviation run := (FeatureLoop.run jps interval).
Local Abbreviation point_of e := (collect_feature_point jps interval (pe_cycle e)).

Lemma pass_appends st e :
  exists point,
    point_of e = Some point
    /\ timestamp point = t1_of interval (pe_cycle e)
    /\ pass st e
       = {| feature_data := feature_data st ++ [point];
            collection_count := (collection_count st + 1)%Z;
            error_count := error_count st |}.
Proof.
  destruct (collect_feature_point_spec jps interval (pe_cycle e))
    as (point & Hp & Ht & _).
  exists point. split_and!; [done | done |].
  unfold FeatureLoop.pass. by rewrite Hp.
Qed.

Lemma run_appends start duration envs st :
  exists points,
    feature_data (run start duration st envs) = feature_data st ++ points
    /\ Forall2 (fun e point => point_of e = Some point)
         (executed start duration envs) points
    /\ map timestamp points
       = map (fun e => t1_of interval (pe_cycle e))
           (executed start duration envs)
    /\ collection_count (run start duration st envs)
       = (collection_count st
          + Z.of_nat (length (executed start duration envs)))%Z
    /\ error_count (run start duration st envs) = error_count st.
Proof.
  revert st. induction envs as [|e envs IH]; intros st.
  - exists []. cbn. rewrite app_nil_r. split_and!; (done || constructor || lia).
  - cbn [FeatureLoop.run executed].
    destruct (loop_test start duration e).
    + destruct (pass_appends st e) as (point & Hp & Ht & Hst).
      destruct (IH (pass st e)) as (points & H1 & H2 & H3 & H4 & H5).
      exists (point :: points). split_and!.
      * rewrite H1, Hst. cbn [feature_data]. by rewrite <- app_assoc.
      * by constructor.
      * cbn [map]. by rewrite Ht, H3.
      * rewrite H4, Hst. cbn [collection_count length]. lia.
      * by rewrite H5, Hst.
    + exists []. cbn. rewrite app_nil_r.
      split_and!; (done || constructor || lia).
Qed.

(** X26.  In synchronized mode [collect_vm_features] loses no pass:
    every executed pass appends exactly one point to the points already
    held, in the order of the passes and stamped with the T1 of its
    cycle; the point count equals the number of passes and the error
    count stays 0. *)
Theorem feature_collection_accounting (data : list VMFeaturePoint)
    (start duration : Q) (envs : list PassEnv) :
  let final := collect_vm_features jps interval data start duration envs in
  let passes := executed start duration envs in
  exists points,
    feature_data final = data ++ points
    /\ Forall2 (fun e point => point_of e = Some point) passes points
    /\ map timestamp points = map (fun e => t1_of interval (pe_cycle e)) passes
    /\ collection_count final = Z.of_nat (length passes)
    /\ error_count final = 0%Z.
Proof.
  intros final passes. subst final passes. unfold collect_vm_features.
  destruct (run_appends start duration envs
              {| feature_data := data; collection_count := 0;
                 error_count := 0 |})
    as (points & H1 & H2 & H3 & H4 & H5).
  exists points. by split_and!.
Qed.

End FeatureCollection.
